(** * A verification development for the arbitrage bot's decision core

    The development embeds the decision core of the bot in Rocq and
    proves properties of the embedded functions:

    - [packages/core/src/math.ts]: the constant-product swap arithmetic
      on [bigint], as module [Amm]; the spread and the size search, as
      module [Pricing];
    - the gas estimator's file: [estimateArbitrageGas], as module
      [Gas]; the price trends, the dynamic price and the acceptance
      test, as module [GasPricing];
    - [packages/risk/src/limits.ts]: Kelly sizing and value at risk,
      as module [Limits]; the drawdown tracker, as module [Tuning];
    - [packages/risk/src/controls.ts] (the [RiskManager] class), as
      modules [Risk] and [Manager];
    - the connector's [simulateSwap], as module [Connector];
    - [packages/core/src/profit.ts] (the trade sizes), as module
      [Profit];
    - the in-memory cache ([MemoryCache]), as module [Cache].

    [calculateSharpeRatio] and [calculateSortinoRatio] of [limits.ts]
    and [calculateVolatility] of the cache are left out: they rest on
    [Math.sqrt], [Math.pow] and [Math.log], which the interface of
    [number] below does not have.

    Conventions of the embedding.

    - A JavaScript [bigint] is a [Z]; [bigint] division truncates
      toward zero ([Z.quot]) and raises [RangeError] on a zero divisor.
    - A JavaScript [number] is a value of a type [num] that implements
      the interface [JsNumber] (the operators and the [Math] functions
      the sources use).  Two implementations are given: [float64], the
      IEEE 754 binary64 arithmetic that JavaScript runs, on Rocq's
      primitive floats; and [exact], the rationals, where no operation
      rounds and there is no NaN or infinity.  The functions are
      written once, over the interface.  What is proved of the program
      as it runs is proved on [float64], or over the interface when it
      holds whatever the arithmetic; [exact] serves to compare the
      doubles with the arithmetic of the reals.
    - A [number] that only ever holds a count (a list length, a counter
      incremented by one) is a [nat]; a [Date] is its time value in
      milliseconds, a [Z].  They are converted with [of_Z] where the
      source compares them with a [number].
    - An [async] method is a computation in the monad [M]: it reads and
      writes the manager's fields, may raise, and consults an
      environment [Env] for what lies outside the class (the clock and
      the database).  A call of a method runs up to its end before the
      next event.  The one asynchronous call that nobody awaits, the
      [initializeState()] of the constructor, is a pending task of the
      object ([Risk.Instance]): its continuations are events of their
      own, which may fall between the calls of the methods.  Calls of
      [logger] have no effect on the modelled state and are left out.
    - The limits given to [updateLimits] are numbers: a key that is
      given as [undefined] is not modelled. *)

From Stdlib Require Import ZArith QArith Qround Qabs Qminmax.
From Stdlib Require Import String DecimalString Bool Lia Lqa List.
From Stdlib Require Import Permutation Sorted.
From Stdlib Require Import Floats.
Import ListNotations.

Close Scope Q_scope.

(* ================================================================== *)
(** * The JavaScript run time the sources rely on *)

Module Js.

(** The exceptions the modelled code raises or meets. *)
Inductive exn : Type :=
| Error (message : string)
| RangeError (message : string).

(** How an evaluation ends: with a value, or with a raised exception. *)
Inductive completion (A : Type) : Type :=
| Return (a : A)
| Throw (e : exn).

Arguments Return {A} a.
Arguments Throw {A} e.

Definition bindc {A B : Type} (c : completion A) (k : A -> completion B)
  : completion B :=
  match c with
  | Return a => k a
  | Throw e => Throw e
  end.

(** [try { c } catch (error) { h error }] *)
Definition try_catch {A : Type} (c : completion A) (h : exn -> completion A)
  : completion A :=
  match c with
  | Return a => Return a
  | Throw e => h e
  end.

(** [a / b] on [bigint]. *)
Definition bigint_div (a b : Z) : completion Z :=
  if (b =? 0)%Z then Throw (RangeError "Division by zero")
  else Return (Z.quot a b).

(** The decimal numeral of a count, as a template string prints it. *)
Definition string_of_nat (n : nat) : string :=
  NilEmpty.string_of_uint (Nat.to_uint n).

(** [xs[i]] for an integer-valued index: [undefined] ([None]) outside
    the array. *)
Definition array_get {A : Type} (xs : list A) (i : Z) : option A :=
  if (i <? 0)%Z then None else nth_error xs (Z.to_nat i).

(** The interface of [number]. *)
Class JsNumber (num : Type) : Type := {
  (** [Number(n)] for an integer [n]; an integer literal *)
  of_Z : Z -> num;
  (** [Number(s)] for the decimal string of [n / 10^k]; a decimal literal *)
  of_decimal : Z -> nat -> num;
  add : num -> num -> num;
  sub : num -> num -> num;
  mul : num -> num -> num;
  div : num -> num -> num;
  neg : num -> num;
  (** [x === y], [x < y], [x <= y] *)
  eqb : num -> num -> bool;
  ltb : num -> num -> bool;
  leb : num -> num -> bool;
  (** [ToBoolean(x)], as in [x || d] *)
  truthy : num -> bool;
  Math_abs : num -> num;
  Math_floor : num -> num;
  Math_min : num -> num -> num;
  Math_max : num -> num -> num;
  (** the integer a number is, if it is one: what [BigInt(x)] returns
      (it raises [RangeError] otherwise) and the array index [x] names *)
  to_integer : num -> option Z
}.

(** [x > y] and [x >= y]. *)
Definition gtb {num} `{JsNumber num} (x y : num) : bool := ltb y x.
Definition geb {num} `{JsNumber num} (x y : num) : bool := leb y x.

(** ** IEEE 754 binary64 *)

Module F64.

Definition pow2 (n : Z) : Z := Z.pow 2 n.

(** The integer [z] rounded to the nearest double, ties to even. *)
Definition of_Z (z : Z) : float :=
  SF2Prim (binary_normalize prec emax z 0 false).

(** [n / d] (with [0 < d]) rounded to the nearest double, ties to even.
    The quotient is taken with at least 64 significant bits and a
    sticky bit, so that a single rounding gives the nearest double. *)
Definition of_ratio (n d : Z) : float :=
  let a := Z.abs n in
  let k := Z.max 0 (64 + Z.log2 d - Z.log2 a) in
  let q := Z.div (a * pow2 k) d in
  let sticky := if (Z.modulo (a * pow2 k) d =? 0)%Z then 0%Z else 1%Z in
  let m := (2 * q + sticky)%Z in
  let r := SF2Prim (binary_normalize prec emax m (- k - 1) false) in
  if (n <? 0)%Z then (- r)%float else r.

Definition of_decimal (n : Z) (k : nat) : float :=
  of_ratio n (Z.pow 10 (Z.of_nat k)).

(** The integer value of a double, when it has one. *)
Definition to_integer (x : float) : option Z :=
  match Prim2SF x with
  | S754_zero _ => Some 0%Z
  | S754_finite s m e =>
      let v :=
        if (0 <=? e)%Z then Some (Zpos m * pow2 e)%Z
        else if (Z.modulo (Zpos m) (pow2 (- e)) =? 0)%Z
             then Some (Z.div (Zpos m) (pow2 (- e)))
             else None in
      match v with
      | Some z => Some (if s then (- z)%Z else z)
      | None => None
      end
  | S754_infinity _ | S754_nan => None
  end.

Definition Math_floor (x : float) : float :=
  match Prim2SF x with
  | S754_finite s m e =>
      if (0 <=? e)%Z then x
      else
        let q := Z.div (Zpos m) (pow2 (- e)) in
        let exact := (Z.modulo (Zpos m) (pow2 (- e)) =? 0)%Z in
        if s then (- of_Z (if exact then q else q + 1))%float
        else of_Z q
  | _ => x
  end.

Definition is_neg_zero (x : float) : bool :=
  match classify x with NZero => true | _ => false end.

Definition is_pos_zero (x : float) : bool :=
  match classify x with PZero => true | _ => false end.

Definition Math_min (x y : float) : float :=
  if is_nan x || is_nan y then nan
  else if (x <? y)%float then x
  else if (y <? x)%float then y
  else if is_neg_zero x then x else y.

Definition Math_max (x y : float) : float :=
  if is_nan x || is_nan y then nan
  else if (x <? y)%float then y
  else if (y <? x)%float then x
  else if is_pos_zero x then x else y.

Definition truthy (x : float) : bool :=
  negb (is_nan x || is_zero x).

End F64.

#[export] Instance float64 : JsNumber float := {|
  of_Z := F64.of_Z;
  of_decimal := F64.of_decimal;
  add := PrimFloat.add;
  sub := PrimFloat.sub;
  mul := PrimFloat.mul;
  div := PrimFloat.div;
  neg := PrimFloat.opp;
  eqb := PrimFloat.eqb;
  ltb := PrimFloat.ltb;
  leb := PrimFloat.leb;
  truthy := F64.truthy;
  Math_abs := PrimFloat.abs;
  Math_floor := F64.Math_floor;
  Math_min := F64.Math_min;
  Math_max := F64.Math_max;
  to_integer := F64.to_integer
|}.

(** ** Exact arithmetic on the rationals *)

Module Exact.

Definition of_decimal (n : Z) (k : nat) : Q :=
  inject_Z n / inject_Z (Z.pow 10 (Z.of_nat k)).

Definition ltb (x y : Q) : bool := negb (Qle_bool y x).

Definition truthy (x : Q) : bool := negb (Qeq_bool x 0).

Definition Math_floor (x : Q) : Q := inject_Z (Qfloor x).

Definition Math_min (x y : Q) : Q := if Qle_bool x y then x else y.

Definition Math_max (x y : Q) : Q := if Qle_bool x y then y else x.

Definition to_integer (x : Q) : option Z :=
  if Qeq_bool x (inject_Z (Qfloor x)) then Some (Qfloor x) else None.

End Exact.

#[export] Instance exact : JsNumber Q := {|
  of_Z := inject_Z;
  of_decimal := Exact.of_decimal;
  add := Qplus;
  sub := Qminus;
  mul := Qmult;
  div := Qdiv;
  neg := Qopp;
  eqb := Qeq_bool;
  ltb := Exact.ltb;
  leb := Qle_bool;
  truthy := Exact.truthy;
  Math_abs := Qabs;
  Math_floor := Exact.Math_floor;
  Math_min := Exact.Math_min;
  Math_max := Exact.Math_max;
  to_integer := Exact.to_integer
|}.

(** [BigInt(x)] for a [number] [x]. *)
Definition BigInt {num : Type} `{JsNumber num} (x : num) : completion Z :=
  match to_integer x with
  | Some z => Return z
  | None => Throw (RangeError "The number cannot be converted to a BigInt")
  end.

End Js.

Import Js.

(* ================================================================== *)
(** * [packages/core/src/math.ts]: swap arithmetic *)

Module Amm.

Section WithNumber.
Context {num : Type} `{JsNumber num}.

(** [feeBps] is a [number]: the fee factor [10000 - feeBps] is computed
    in the arithmetic of numbers, and [BigInt(feeFactor)] raises
    [RangeError] unless it is an integer. *)

Definition getAmountOut (amountIn reserveIn reserveOut : Z) (feeBps : num)
  : completion Z :=
  if ((amountIn =? 0) || (reserveIn =? 0) || (reserveOut =? 0))%Z
  then Return 0%Z
  else
    let feeFactor := sub (of_Z 10000) feeBps in
    bindc (BigInt feeFactor) (fun feeFactorInt =>
    let amountInWithFee := (amountIn * feeFactorInt)%Z in
    let numerator := (amountInWithFee * reserveOut)%Z in
    let denominator := (reserveIn * 10000 + amountInWithFee)%Z in
    bigint_div numerator denominator).

Definition getAmountIn (amountOut reserveIn reserveOut : Z) (feeBps : num)
  : completion Z :=
  if ((amountOut =? 0) || (reserveIn =? 0) || (reserveOut =? 0))%Z
  then Return 0%Z
  else if (amountOut >=? reserveOut)%Z
  then Throw (Error "Insufficient liquidity")
  else
    let feeFactor := sub (of_Z 10000) feeBps in
    let numerator := (reserveIn * amountOut * 10000)%Z in
    bindc (BigInt feeFactor) (fun feeFactorInt =>
    let denominator := ((reserveOut - amountOut) * feeFactorInt)%Z in
    bindc (bigint_div numerator denominator) (fun q => Return (q + 1)%Z)).

(** The default of the optional parameter [feeBps]. *)
Definition default_feeBps : num := of_Z 30.

End WithNumber.

End Amm.

(* ================================================================== *)
(** * The gas estimator *)

Module Gas.

(** [ethers.parseUnits(s, decimals)] for the decimal string [s] of
    [mantissa / 10^fractionDigits], with [fractionDigits <= decimals]. *)
Definition parseUnits (mantissa : Z) (fractionDigits decimals : nat) : Z :=
  (mantissa * Z.pow 10 (Z.of_nat (decimals - fractionDigits)))%Z.

Definition gwei : nat := 9.
Definition ether : nat := 18.

(** What [provider.getFeeData()] resolves to; a field is [null] when
    the network does not report it. *)
Record FeeData : Type := {
  gasPrice : option Z;
  feeData_maxFeePerGas : option Z;
  feeData_maxPriorityFeePerGas : option Z
}.

(** The provider, as far as the estimator uses it. *)
Record JsonRpcProvider : Type := {
  getFeeData : completion FeeData
}.

(** [x || d] for a [bigint | null]. *)
Definition bigint_or (x : option Z) (d : Z) : Z :=
  match x with
  | Some v => if (v =? 0)%Z then d else v
  | None => d
  end.

Section WithNumber.
Context {num : Type} `{JsNumber num}.

Record GasEstimate : Type := {
  gasLimit : Z;
  maxFeePerGas : Z;
  maxPriorityFeePerGas : Z;
  estimatedCostWei : Z;
  estimatedCostUsd : num
}.

(** [Number(ethers.formatUnits(value, decimals))]: ethers holds the
    value as a signed fixed-point number of 512 bits and raises
    [RangeError] when it does not fit; otherwise the result is the
    number nearest to [value / 10^decimals].  [formatEther(value)] is
    [formatUnits(value, 18)]. *)
Definition formatUnits (value : Z) (decimals : nat) : completion num :=
  if ((value <=? - 2 ^ 511) || (2 ^ 511 <=? value))%Z
  then Throw (RangeError "overflow")
  else Return (of_decimal value decimals).

Definition fallbackEstimate : GasEstimate := {|
  gasLimit := 400000;
  maxFeePerGas := parseUnits 50 0 gwei;
  maxPriorityFeePerGas := parseUnits 2 0 gwei;
  estimatedCostWei := parseUnits 2 2 ether;
  estimatedCostUsd := of_Z 40
|}.

Definition estimateArbitrageGas
    (provider : JsonRpcProvider) (ethPriceUsd multiplier : num)
  : completion GasEstimate :=
  try_catch
    (bindc (getFeeData provider) (fun feeData =>
     let baseGasLimit := 350000%Z in
     bindc (BigInt (Math_floor (mul (of_Z baseGasLimit) multiplier)))
       (fun gasLimit =>
     let maxFeePerGas :=
       bigint_or (feeData_maxFeePerGas feeData) (parseUnits 30 0 gwei) in
     let maxPriorityFeePerGas :=
       bigint_or (feeData_maxPriorityFeePerGas feeData) (parseUnits 2 0 gwei) in
     let estimatedCostWei := (gasLimit * maxFeePerGas)%Z in
     bindc (formatUnits estimatedCostWei ether) (fun estimatedCostEth =>
     let estimatedCostUsd := mul estimatedCostEth ethPriceUsd in
     Return {|
       gasLimit := gasLimit;
       maxFeePerGas := maxFeePerGas;
       maxPriorityFeePerGas := maxPriorityFeePerGas;
       estimatedCostWei := estimatedCostWei;
       estimatedCostUsd := estimatedCostUsd
     |}))))
    (fun _error => Return fallbackEstimate).

(** The defaults of the optional parameters. *)
Definition default_ethPriceUsd : num := of_Z 2000.
Definition default_multiplier : num := of_decimal 11 1.

End WithNumber.

Arguments GasEstimate num : clear implicits.

End Gas.

(* ================================================================== *)
(** * [packages/risk/src/limits.ts]: sizing and risk metrics *)

Module Limits.

Section WithNumber.
Context {num : Type} `{JsNumber num}.

Definition calculateKellyPositionSize
    (totalCapital winProbability avgWinAmount avgLossAmount : num) : num :=
  if eqb avgLossAmount (of_Z 0) || eqb winProbability (of_Z 0)
  then of_Z 0
  else
    let kellyFraction :=
      div (sub (mul winProbability avgWinAmount)
               (mul (sub (of_Z 1) winProbability) avgLossAmount))
          avgLossAmount in
    let cappedFraction :=
      Math_max (of_Z 0) (Math_min (of_decimal 1 1) kellyFraction) in
    mul totalCapital cappedFraction.

(** [xs.sort(compareFn)].  The language fixes the result only for a
    comparator that is consistent on the elements, which asks, first of
    all, that it never returns NaN; the sort is then stable, so an
    element moves behind a later one only when [compareFn] puts it
    strictly after.  Where [compareFn] returns NaN on two elements the
    order is left to the engine and is not modelled: [None].  With
    [(a, b) => a - b] that is the case of an array that holds a NaN or
    an infinity. *)
Fixpoint sort_insert (compareFn : num -> num -> num) (x : num)
    (sorted : list num) : list num :=
  match sorted with
  | [] => [x]
  | y :: rest =>
      if gtb (compareFn x y) (of_Z 0)
      then y :: sort_insert compareFn x rest
      else x :: sorted
  end.

(** [compareFn] returns a number that [===] itself, which NaN does
    not, on every two elements. *)
Definition neverNaN (compareFn : num -> num -> num) (xs : list num) : bool :=
  forallb (fun a => forallb (fun b => eqb (compareFn a b) (compareFn a b)) xs)
          xs.

Definition Array_sort (compareFn : num -> num -> num) (xs : list num)
  : option (list num) :=
  if neverNaN compareFn xs
  then Some (fold_right (sort_insert compareFn) [] xs)
  else None.

(** [xs[i]] for a [number] index *)
Definition array_at (xs : list num) (i : num) : option num :=
  match to_integer i with
  | Some z => array_get xs z
  | None => None
  end.

(** [None] where the sort is not modelled. *)
Definition calculateVaR (returns : list num) (confidenceLevel : num)
  : option num :=
  if Nat.eqb (length returns) 0 then Some (of_Z 0)
  else
    match Array_sort (fun a b => sub a b) returns with
    | None => None
    | Some sortedReturns =>
        let index :=
          Math_floor (mul (sub (of_Z 1) confidenceLevel)
                          (of_Z (Z.of_nat (length sortedReturns)))) in
        Some (match array_at sortedReturns index with
              | Some x => if truthy x then x else of_Z 0
              | None => of_Z 0
              end)
    end.

(** The default of the optional parameter [confidenceLevel]. *)
Definition default_confidenceLevel : num := of_decimal 95 2.

End WithNumber.

End Limits.

(* ================================================================== *)
(** * [packages/risk/src/controls.ts]: the risk manager *)

Module Risk.

Inductive TradeStatus : Type := pending | success | failed.
Inductive TradeMode : Type := paper | live.

Section WithNumber.
Context {num : Type} `{JsNumber num}.

Record RiskLimits : Type := {
  maxDailyLossUsd : num;
  maxNotionalUsd : num;
  maxTradesPerHour : num;
  maxConsecutiveLosses : num;
  cooldownAfterLossMs : num;
  minTimeBetweenTradesMs : num
}.

Record RiskState : Type := {
  isKilled : bool;
  dailyPnl : num;
  tradesInLastHour : nat;
  consecutiveLosses : nat;
  lastTradeTime : option Z;
  lastLossTime : option Z;
  killReason : option string
}.

(** [Trade], of [@pkg/shared]. *)
Record Trade : Type := {
  id : string;
  timestamp : Z;
  route : string;
  amountInUsd : num;
  expectedProfitUsd : num;
  actualProfitUsd : num;
  gasUsedUsd : num;
  aiScore : num;
  status : TradeStatus;
  mode : TradeMode;
  txHash : option string;
  errorMessage : option string
}.

(** [DailyStats], of [@pkg/shared]: the field the manager reads. *)
Record DailyStats : Type := {
  stats_dailyPnl : num
}.

(** The fields of [Config] the constructor reads. *)
Record Config : Type := {
  MAX_DAILY_LOSS_USD : num;
  MAX_NOTIONAL_USD : num
}.

(** The third argument of [database.recordRiskEvent]. *)
Inductive EventData : Type :=
| KillSwitchData (pnl : num) (losses : nat) (isoTime : Z)
| ConsecutiveLossesData (losses : nat) (lastTrade : Trade).

Record RiskEvent : Type := {
  eventType : string;
  description : string;
  data : option EventData
}.

(** What lies outside the class: [clock k] is the time the [k]-th
    reading of the clock gives ([Date.now()], [new Date()]); the other
    fields are how the database answers. *)
Record Env : Type := {
  clock : nat -> Z;
  getDailyStats : completion DailyStats;
  getRecentTrades : nat -> completion (list Trade);
  recordRiskEvent : RiskEvent -> completion unit
}.

(** The manager's fields [limits] and [state], with the number of
    clock readings so far and the risk events the database has
    accepted. *)
Record World : Type := {
  limits : RiskLimits;
  state : RiskState;
  clockReads : nat;
  riskEvents : list RiskEvent
}.

(** ** Assignments to single fields *)

Definition set_isKilled (v : bool) (s : RiskState) : RiskState :=
  {| isKilled := v; dailyPnl := dailyPnl s;
     tradesInLastHour := tradesInLastHour s;
     consecutiveLosses := consecutiveLosses s;
     lastTradeTime := lastTradeTime s; lastLossTime := lastLossTime s;
     killReason := killReason s |}.

Definition set_dailyPnl (v : num) (s : RiskState) : RiskState :=
  {| isKilled := isKilled s; dailyPnl := v;
     tradesInLastHour := tradesInLastHour s;
     consecutiveLosses := consecutiveLosses s;
     lastTradeTime := lastTradeTime s; lastLossTime := lastLossTime s;
     killReason := killReason s |}.

Definition set_tradesInLastHour (v : nat) (s : RiskState) : RiskState :=
  {| isKilled := isKilled s; dailyPnl := dailyPnl s;
     tradesInLastHour := v;
     consecutiveLosses := consecutiveLosses s;
     lastTradeTime := lastTradeTime s; lastLossTime := lastLossTime s;
     killReason := killReason s |}.

Definition set_consecutiveLosses (v : nat) (s : RiskState) : RiskState :=
  {| isKilled := isKilled s; dailyPnl := dailyPnl s;
     tradesInLastHour := tradesInLastHour s;
     consecutiveLosses := v;
     lastTradeTime := lastTradeTime s; lastLossTime := lastLossTime s;
     killReason := killReason s |}.

Definition set_lastTradeTime (v : option Z) (s : RiskState) : RiskState :=
  {| isKilled := isKilled s; dailyPnl := dailyPnl s;
     tradesInLastHour := tradesInLastHour s;
     consecutiveLosses := consecutiveLosses s;
     lastTradeTime := v; lastLossTime := lastLossTime s;
     killReason := killReason s |}.

Definition set_lastLossTime (v : option Z) (s : RiskState) : RiskState :=
  {| isKilled := isKilled s; dailyPnl := dailyPnl s;
     tradesInLastHour := tradesInLastHour s;
     consecutiveLosses := consecutiveLosses s;
     lastTradeTime := lastTradeTime s; lastLossTime := v;
     killReason := killReason s |}.

Definition set_killReason (v : option string) (s : RiskState) : RiskState :=
  {| isKilled := isKilled s; dailyPnl := dailyPnl s;
     tradesInLastHour := tradesInLastHour s;
     consecutiveLosses := consecutiveLosses s;
     lastTradeTime := lastTradeTime s; lastLossTime := lastLossTime s;
     killReason := v |}.

(** ** The monad of the methods *)

Definition M (A : Type) : Type := World -> completion A * World.

Definition ret {A : Type} (a : A) : M A := fun w => (Return a, w).

Definition bind {A B : Type} (m : M A) (k : A -> M B) : M B :=
  fun w =>
    match m w with
    | (Return a, w') => k a w'
    | (Throw e, w') => (Throw e, w')
    end.

(** [try { m } catch (error) { h error }]: what [m] wrote before it
    raised stays written. *)
Definition try {A : Type} (m : M A) (h : exn -> M A) : M A :=
  fun w =>
    match m w with
    | (Return a, w') => (Return a, w')
    | (Throw e, w') => h e w'
    end.

Definition lift {A : Type} (c : completion A) : M A := fun w => (c, w).

Definition getS : M RiskState := fun w => (Return (state w), w).

Definition getL : M RiskLimits := fun w => (Return (limits w), w).

Definition modify (f : RiskState -> RiskState) : M unit :=
  fun w =>
    (Return tt,
     {| limits := limits w; state := f (state w);
        clockReads := clockReads w; riskEvents := riskEvents w |}).

Definition putL (l : RiskLimits) : M unit :=
  fun w =>
    (Return tt,
     {| limits := l; state := state w;
        clockReads := clockReads w; riskEvents := riskEvents w |}).

End WithNumber.

Arguments RiskLimits num : clear implicits.
Arguments RiskState num : clear implicits.
Arguments Trade num : clear implicits.
Arguments DailyStats num : clear implicits.
Arguments Config num : clear implicits.
Arguments EventData num : clear implicits.
Arguments RiskEvent num : clear implicits.
Arguments Env num : clear implicits.
Arguments World num : clear implicits.
Arguments M num A : clear implicits.

Declare Scope risk_scope.
Delimit Scope risk_scope with risk.
Notation "x <- m ;; k" := (bind m (fun x => k))
  (at level 61, m at next level, right associativity) : risk_scope.
Notation "m ;; k" := (bind m (fun _ => k))
  (at level 61, right associativity) : risk_scope.

Section Methods.
Context {num : Type} `{JsNumber num}.
Variable env : Env num.
Local Open Scope risk_scope.

(** [Date.now()], and the time value of [new Date()]. *)
Definition Date_now : M num Z :=
  fun w =>
    (Return (clock env (clockReads w)),
     {| limits := limits w; state := state w;
        clockReads := S (clockReads w); riskEvents := riskEvents w |}).

(** [await this.database.getDailyStats(..)] *)
Definition db_getDailyStats : M num (DailyStats num) :=
  lift (getDailyStats env).

(** [await this.database.getRecentTrades(limit)] *)
Definition db_getRecentTrades (limit : nat) : M num (list (Trade num)) :=
  lift (getRecentTrades env limit).

(** [await this.database.recordRiskEvent(..)]: the event is in the
    table when the call resolves. *)
Definition db_recordRiskEvent (ev : RiskEvent num) : M num unit :=
  fun w =>
    match recordRiskEvent env ev with
    | Return _ =>
        (Return tt,
         {| limits := limits w; state := state w;
            clockReads := clockReads w;
            riskEvents := riskEvents w ++ [ev] |})
    | Throw e => (Throw e, w)
    end.

(** [constructor], up to the call of [initializeState]. *)
Definition constructed (config : Config num) : World num := {|
  limits := {|
    maxDailyLossUsd := MAX_DAILY_LOSS_USD config;
    maxNotionalUsd := MAX_NOTIONAL_USD config;
    maxTradesPerHour := of_Z 100;
    maxConsecutiveLosses := of_Z 5;
    cooldownAfterLossMs := of_Z 60000;
    minTimeBetweenTradesMs := of_Z 5000
  |};
  state := {|
    isKilled := false;
    dailyPnl := of_Z 0;
    tradesInLastHour := 0;
    consecutiveLosses := 0;
    lastTradeTime := None;
    lastLossTime := None;
    killReason := None
  |};
  clockReads := 0;
  riskEvents := []
|}.

(** The loop of [calculateConsecutiveLosses]: it counts until the
    first profitable trade. *)
Fixpoint countLosses (trades : list (Trade num)) : nat :=
  match trades with
  | [] => 0
  | trade :: rest =>
      if leb (actualProfitUsd trade) (of_Z 0)
      then S (countLosses rest)
      else 0
  end.

Definition calculateConsecutiveLosses (trades : list (Trade num))
  : M num unit :=
  let losses := countLosses trades in
  modify (set_consecutiveLosses losses).

Definition initializeState : M num unit :=
  try
    (_today <- Date_now ;;
     stats <- db_getDailyStats ;;
     modify (set_dailyPnl (stats_dailyPnl stats)) ;;
     recentTrades <- db_getRecentTrades 10 ;;
     calculateConsecutiveLosses recentTrades)
    (fun _error => ret tt).

Definition updateDailyPnl : M num unit :=
  try
    (stats <- db_getDailyStats ;;
     modify (set_dailyPnl (stats_dailyPnl stats)))
    (fun _error => ret tt).

Definition updateTradeCount : M num unit :=
  try
    (now <- Date_now ;;
     let oneHourAgo := (now - 60 * 60 * 1000)%Z in
     recentTrades <- db_getRecentTrades 1000 ;;
     let tradesInLastHour :=
       List.length
         (filter (fun trade => (timestamp trade >? oneHourAgo)%Z)
                 recentTrades) in
     modify (set_tradesInLastHour tradesInLastHour))
    (fun _error => ret tt).

Definition killSwitch (reason : string) : M num unit :=
  modify (set_isKilled true) ;;
  modify (set_killReason (Some reason)) ;;
  s <- getS ;;
  now <- Date_now ;;
  db_recordRiskEvent
    {| eventType := "kill_switch";
       description := reason;
       data := Some (KillSwitchData (dailyPnl s) (consecutiveLosses s) now) |}.

Definition shouldStop : M num bool :=
  updateDailyPnl ;;
  s <- getS ;;
  ret (isKilled s).

(** The projected loss that [canTrade] compares with the ceiling. *)
Definition potentialDailyLoss (pnl expectedProfitUsd : num) : num :=
  Math_abs (Math_min (of_Z 0) (add pnl expectedProfitUsd)).

Definition canTrade (amountUsd expectedProfitUsd : num) : M num bool :=
  s <- getS ;;
  if isKilled s then ret false else
  l <- getL ;;
  if gtb amountUsd (maxNotionalUsd l) then ret false else
  updateDailyPnl ;;
  s <- getS ;;
  if gtb (potentialDailyLoss (dailyPnl s) expectedProfitUsd)
         (maxDailyLossUsd l)
  then killSwitch "Daily loss limit would be exceeded" ;; ret false
  else
  if geb (of_Z (Z.of_nat (consecutiveLosses s))) (maxConsecutiveLosses l)
  then ret false else
  inCooldown <-
    match lastLossTime s with
    | Some lossTime =>
        now <- Date_now ;;
        let timeSinceLoss := of_Z (now - lossTime) in
        ret (ltb timeSinceLoss (cooldownAfterLossMs l))
    | None => ret false
    end ;;
  if (inCooldown : bool) then ret false else
  tooSoon <-
    match lastTradeTime s with
    | Some tradeTime =>
        now <- Date_now ;;
        let timeSinceTrade := of_Z (now - tradeTime) in
        ret (ltb timeSinceTrade (minTimeBetweenTradesMs l))
    | None => ret false
    end ;;
  if (tooSoon : bool) then ret false else
  updateTradeCount ;;
  s <- getS ;;
  if geb (of_Z (Z.of_nat (tradesInLastHour s))) (maxTradesPerHour l)
  then ret false
  else ret true.

Definition recordTrade (trade : Trade num) : M num unit :=
  now <- Date_now ;;
  modify (set_lastTradeTime (Some now)) ;;
  modify (fun s => set_dailyPnl (add (dailyPnl s) (actualProfitUsd trade)) s) ;;
  (if leb (actualProfitUsd trade) (of_Z 0)
   then
     modify (fun s => set_consecutiveLosses (S (consecutiveLosses s)) s) ;;
     lossTime <- Date_now ;;
     modify (set_lastLossTime (Some lossTime))
   else modify (set_consecutiveLosses 0)) ;;
  s <- getS ;;
  l <- getL ;;
  (if geb (neg (dailyPnl s)) (maxDailyLossUsd l)
   then killSwitch "Daily loss limit exceeded"
   else ret tt) ;;
  s <- getS ;;
  (if (3 <=? consecutiveLosses s)%nat
   then
     db_recordRiskEvent
       {| eventType := "consecutive_losses";
          description :=
            String.append (string_of_nat (consecutiveLosses s))
                          " consecutive losses recorded";
          data := Some (ConsecutiveLossesData (consecutiveLosses s) trade) |}
   else ret tt).

Definition resetKillSwitch : M num unit :=
  modify (set_isKilled false) ;;
  modify (set_killReason None) ;;
  db_recordRiskEvent
    {| eventType := "kill_switch_reset";
       description := "Kill switch manually reset";
       data := None |}.

(** [Partial<RiskLimits>]: [None] for a key that is not given. *)
Record PartialRiskLimits : Type := {
  new_maxDailyLossUsd : option num;
  new_maxNotionalUsd : option num;
  new_maxTradesPerHour : option num;
  new_maxConsecutiveLosses : option num;
  new_cooldownAfterLossMs : option num;
  new_minTimeBetweenTradesMs : option num
}.

Definition or_old (new : option num) (old : num) : num :=
  match new with Some v => v | None => old end.

Definition updateLimits (newLimits : PartialRiskLimits) : M num unit :=
  l <- getL ;;
  putL {|
    maxDailyLossUsd := or_old (new_maxDailyLossUsd newLimits) (maxDailyLossUsd l);
    maxNotionalUsd := or_old (new_maxNotionalUsd newLimits) (maxNotionalUsd l);
    maxTradesPerHour :=
      or_old (new_maxTradesPerHour newLimits) (maxTradesPerHour l);
    maxConsecutiveLosses :=
      or_old (new_maxConsecutiveLosses newLimits) (maxConsecutiveLosses l);
    cooldownAfterLossMs :=
      or_old (new_cooldownAfterLossMs newLimits) (cooldownAfterLossMs l);
    minTimeBetweenTradesMs :=
      or_old (new_minTimeBetweenTradesMs newLimits) (minTimeBetweenTradesMs l)
  |}.

Definition getState : M num (RiskState num) := getS.

Definition getLimits : M num (RiskLimits num) := getL.

Definition checkLimits : M num unit :=
  updateDailyPnl ;;
  s <- getS ;;
  l <- getL ;;
  if geb (neg (dailyPnl s)) (maxDailyLossUsd l) && negb (isKilled s)
  then killSwitch "Daily loss limit check failed"
  else ret tt.

Definition resetDailyCounters : M num unit :=
  modify (set_dailyPnl (of_Z 0)) ;;
  modify (set_consecutiveLosses 0) ;;
  modify (set_lastLossTime None).

Definition emergencyStop : M num unit :=
  killSwitch "Emergency stop activated".

End Methods.

Arguments PartialRiskLimits num : clear implicits.

(** ** Calls from outside *)

(** One call of a method of the class. *)
Inductive Call (num : Type) : Type :=
| CallInitializeState
| CallShouldStop
| CallCanTrade (amountUsd expectedProfitUsd : num)
| CallRecordTrade (trade : Trade num)
| CallKillSwitch (reason : string)
| CallResetKillSwitch
| CallUpdateLimits (newLimits : PartialRiskLimits num)
| CallGetState
| CallGetLimits
| CallCheckLimits
| CallResetDailyCounters
| CallEmergencyStop.

Arguments CallInitializeState {num}.
Arguments CallCanTrade {num} amountUsd expectedProfitUsd.
Arguments CallRecordTrade {num} trade.
Arguments CallKillSwitch {num} reason.
Arguments CallUpdateLimits {num} newLimits.
Arguments CallShouldStop {num}.
Arguments CallResetKillSwitch {num}.
Arguments CallGetState {num}.
Arguments CallGetLimits {num}.
Arguments CallCheckLimits {num}.
Arguments CallResetDailyCounters {num}.
Arguments CallEmergencyStop {num}.

Section Calls.
Context {num : Type} `{JsNumber num}.

(** The world after a call, whether it returned or raised. *)
Definition after (env : Env num) (c : Call num) (w : World num) : World num :=
  match c with
  | CallInitializeState => snd (initializeState env w)
  | CallShouldStop => snd (shouldStop env w)
  | CallCanTrade a e => snd (canTrade env a e w)
  | CallRecordTrade t => snd (recordTrade env t w)
  | CallKillSwitch r => snd (killSwitch env r w)
  | CallResetKillSwitch => snd (resetKillSwitch env w)
  | CallUpdateLimits p => snd (updateLimits p w)
  | CallGetState => snd (getState w)
  | CallGetLimits => snd (getLimits w)
  | CallCheckLimits => snd (checkLimits env w)
  | CallResetDailyCounters => snd (resetDailyCounters w)
  | CallEmergencyStop => snd (emergencyStop env w)
  end.

(** The world after a sequence of calls, each in its own environment. *)
Fixpoint afterAll (calls : list (Env num * Call num)) (w : World num)
  : World num :=
  match calls with
  | [] => w
  | (env, c) :: rest => afterAll rest (after env c w)
  end.

Definition isReset (c : Call num) : bool :=
  match c with CallResetKillSwitch => true | _ => false end.

(** The world after [recordTrade] is called on each outcome in turn. *)
Definition recordAll (calls : list (Env num * Trade num)) (w : World num)
  : World num :=
  afterAll (map (fun p => (fst p, CallRecordTrade (snd p))) calls) w.

(** ** The initialization the constructor starts *)

(** The constructor calls [initializeState()] and does not await it.
    The call runs inside the constructor up to its first [await]; its
    two continuations run later, each once the promise it waits for has
    settled, between whatever the caller of the class does in the
    meantime.  [InitStage] tells where the initialization stands. *)
Inductive InitStage : Type :=
| AwaitsDailyStats
| AwaitsRecentTrades
| Settled.

(** The next continuation of the initialization, when the promise it
    waits for settles with what the database of [env] answers: after
    [getDailyStats], the assignment of [dailyPnl] and the call of
    [getRecentTrades]; after [getRecentTrades], the count.  A
    rejection goes to the [catch], which only logs. *)
Definition initResume (env : Env num) (stage : InitStage) (w : World num)
  : InitStage * World num :=
  match stage with
  | AwaitsDailyStats =>
      match getDailyStats env with
      | Return stats =>
          (AwaitsRecentTrades,
           snd (modify (set_dailyPnl (stats_dailyPnl stats)) w))
      | Throw _ => (Settled, w)
      end
  | AwaitsRecentTrades =>
      match getRecentTrades env 10 with
      | Return recentTrades =>
          (Settled, snd (calculateConsecutiveLosses recentTrades w))
      | Throw _ => (Settled, w)
      end
  | Settled => (Settled, w)
  end.

(** An object of the class: its fields, and the stage of its
    initialization. *)
Record Instance : Type := {
  world : World num;
  initStage : InitStage
}.

(** [new RiskManager(config, database)]: the fields are assigned, and
    [initializeState] has read the clock and waits for the daily
    statistics. *)
Definition construct (env : Env num) (config : Config num) : Instance := {|
  world := snd (Date_now env (constructed config));
  initStage := AwaitsDailyStats
|}.

(** What happens to an object: a method is called, and runs up to its
    end; or the initialization runs its next continuation. *)
Inductive Event : Type :=
| Invoke (env : Env num) (call : Call num)
| InitResumes (env : Env num).

Definition step (m : Instance) (ev : Event) : Instance :=
  match ev with
  | Invoke env call =>
      {| world := after env call (world m); initStage := initStage m |}
  | InitResumes env =>
      {| world := snd (initResume env (initStage m) (world m));
         initStage := fst (initResume env (initStage m) (world m)) |}
  end.

Definition run (events : list Event) (m : Instance) : Instance :=
  fold_left step events m.

(** [recordTrade] called on each outcome in turn.  [recordTrade] writes
    the fields of the state before its first [await], so a continuation
    of the initialization that runs while a call is suspended finds the
    state as the call leaves it: as to the state, every schedule is a
    sequence of these calls with the continuations in between. *)
Definition records (calls : list (Env num * Trade num)) : list Event :=
  map (fun p => Invoke (fst p) (CallRecordTrade (snd p))) calls.

(** ** The vocabulary of the properties *)




(** The daily PnL [canTrade] works with once it has called
    [updateDailyPnl]: the database's when that query resolves, the
    manager's own when it is rejected. *)
Definition refreshedPnl (env : Env num) (w : World num) : num :=
  match getDailyStats env with
  | Return stats => stats_dailyPnl stats
  | Throw _ => dailyPnl (state w)
  end.

(** The number [updateTradeCount] stores when the clock reads [now]
    and the database lists [recentTrades]. *)
Definition countLastHour (now : Z) (recentTrades : list (Trade num)) : nat :=
  List.length
    (filter (fun trade => (timestamp trade >? now - 60 * 60 * 1000)%Z)
            recentTrades).

(** The guards of [canTrade] that follow the daily-loss guard; each
    is [true] when it refuses the trade.  The clock has been read
    [clockReads w] times when the call starts, and the call reads it
    once for each of the two time guards that has a time to compare
    with, and once more for the hourly count. *)
Definition streakGuard (w : World num) : bool :=
  geb (of_Z (Z.of_nat (consecutiveLosses (state w))))
      (maxConsecutiveLosses (limits w)).

Definition cooldownGuard (env : Env num) (w : World num) : bool :=
  match lastLossTime (state w) with
  | Some lossTime =>
      ltb (of_Z (clock env (clockReads w) - lossTime))
          (cooldownAfterLossMs (limits w))
  | None => false
  end.

Definition readsBeforeSpacing (w : World num) : nat :=
  clockReads w + match lastLossTime (state w) with Some _ => 1 | None => 0 end.

Definition spacingGuard (env : Env num) (w : World num) : bool :=
  match lastTradeTime (state w) with
  | Some tradeTime =>
      ltb (of_Z (clock env (readsBeforeSpacing w) - tradeTime))
          (minTimeBetweenTradesMs (limits w))
  | None => false
  end.

Definition readsBeforeCount (w : World num) : nat :=
  readsBeforeSpacing w
  + match lastTradeTime (state w) with Some _ => 1 | None => 0 end.

(** The hourly count [canTrade] works with once it has called
    [updateTradeCount]: recomputed when the query resolves, the
    manager's own when it is rejected. *)
Definition refreshedTradeCount (env : Env num) (w : World num) : nat :=
  match getRecentTrades env 1000 with
  | Return recentTrades =>
      countLastHour (clock env (readsBeforeCount w)) recentTrades
  | Throw _ => tradesInLastHour (state w)
  end.

Definition hourlyGuard (env : Env num) (w : World num) : bool :=
  geb (of_Z (Z.of_nat (refreshedTradeCount env w)))
      (maxTradesPerHour (limits w)).

End Calls.

Arguments Instance num : clear implicits.
Arguments Event num : clear implicits.

End Risk.

(* ================================================================== *)
(** * Fixtures: the values the repository's tests build *)

Module Fixtures.

Section WithNumber.
Context {num : Type} `{JsNumber num}.

(** [createMockConfig()] of the risk tests: a ceiling of 100 USD a day
    and a cap of 500 USD a trade. *)
Definition mockConfig : Risk.Config num := {|
  Risk.MAX_DAILY_LOSS_USD := of_Z 100;
  Risk.MAX_NOTIONAL_USD := of_Z 500
|}.

(** [createMockTrade({ actualProfitUsd })] *)
Definition mockTrade (actualProfitUsd : num) : Risk.Trade num := {|
  Risk.id := "trade";
  Risk.timestamp := 0;
  Risk.route := "USDC-ETH-USDC";
  Risk.amountInUsd := of_Z 100;
  Risk.expectedProfitUsd := of_Z 2;
  Risk.actualProfitUsd := actualProfitUsd;
  Risk.gasUsedUsd := of_decimal 5 1;
  Risk.aiScore := of_decimal 8 1;
  Risk.status := Risk.success;
  Risk.mode := Risk.paper;
  Risk.txHash := None;
  Risk.errorMessage := None
|}.

(** [MockDatabase] with [setDailyStats({ dailyPnl })] and no trades; the
    clock advances by one millisecond at each reading. *)
Definition mockEnv (dailyPnl : num) : Risk.Env num := {|
  Risk.clock := fun k => (1700000000000 + Z.of_nat k)%Z;
  Risk.getDailyStats := Return {| Risk.stats_dailyPnl := dailyPnl |};
  Risk.getRecentTrades := fun _ => Return [];
  Risk.recordRiskEvent := fun _ => Return tt
|}.

(** A database whose every query is rejected. *)
Definition failingEnv : Risk.Env num := {|
  Risk.clock := fun k => (1700000000000 + Z.of_nat k)%Z;
  Risk.getDailyStats := Throw (Error "DB Error");
  Risk.getRecentTrades := fun _ => Throw (Error "DB Error");
  Risk.recordRiskEvent := fun _ => Throw (Error "DB Error")
|}.

(** Each outcome recorded against the mock database. *)
Definition outcomes (profits : list num)
  : list (Risk.Env num * Risk.Trade num) :=
  map (fun p => (mockEnv (of_Z 0), mockTrade p)) profits.



(** The manager of the tests of a killed bot: [killSwitch('Test kill')]
    on a new manager. *)
Definition killed : Risk.World num :=
  Risk.after (mockEnv (of_Z 0)) (Risk.CallKillSwitch "Test kill")
    (Risk.constructed mockConfig).

End WithNumber.

(** The return sample of the value-at-risk test, in hundredths. *)
Definition varSample {num : Type} `{JsNumber num} : list num :=
  map (fun z => of_decimal z 2) [-10; -5; 2; 8; 15; -2; 6; -1; 4; 12]%Z.

(** A provider whose fee query is rejected. *)
Definition failingProvider : Gas.JsonRpcProvider := {|
  Gas.getFeeData := Throw (Error "network error")
|}.

End Fixtures.

(* ================================================================== *)
(** * [packages/core/src/math.ts]: prices, spreads and the size search *)

Module Pricing.

(** [{ reserve0: bigint; reserve1: bigint }] *)
Record Reserves : Type := {
  reserve0 : Z;
  reserve1 : Z
}.


Section WithNumber.
Context {num : Type} `{JsNumber num}.






(** [priceC] is [None] when the third argument is left out. *)
Definition calculateSpreadBps (priceA priceB : num) (priceC : option num)
  : num :=
  match priceC with
  | Some priceC =>
      let composite := mul (mul priceA priceB) priceC in
      mul (Math_abs (sub (of_Z 1) composite)) (of_Z 10000)
  | None =>
      let diff := Math_abs (sub priceA priceB) in
      let avg := div (add priceA priceB) (of_Z 2) in
      mul (div diff avg) (of_Z 10000)
  end.

End WithNumber.

End Pricing.

(* ================================================================== *)
(** * The gas estimator's file: price trends and dynamic pricing *)

Module GasPricing.

(** ['low' | 'medium' | 'high'] *)
Inductive Level : Type := low | medium | high.

Record GasPriceTrends : Type := {
  current : Z;
  fast : Z;
  safe : Z;
  congestion : Level
}.

Definition fallbackTrends : GasPriceTrends := {|
  current := Gas.parseUnits 25 0 Gas.gwei;
  fast := Gas.parseUnits 35 0 Gas.gwei;
  safe := Gas.parseUnits 30 0 Gas.gwei;
  congestion := medium
|}.

Section WithNumber.
Context {num : Type} `{JsNumber num}.

Definition getGasPriceTrends (provider : Gas.JsonRpcProvider)
  : completion GasPriceTrends :=
  try_catch
    (bindc (Gas.getFeeData provider) (fun feeData =>
     let currentGasPrice :=
       Gas.bigint_or (Gas.gasPrice feeData) (Gas.parseUnits 20 0 Gas.gwei) in
     bindc (Gas.formatUnits currentGasPrice Gas.gwei) (fun gasPriceGwei =>
     let congestion :=
       if ltb gasPriceGwei (of_Z 20) then low
       else if ltb gasPriceGwei (of_Z 50) then medium
       else high in
     bindc (bigint_div (currentGasPrice * 130) 100) (fun fast =>
     bindc (bigint_div (currentGasPrice * 110) 100) (fun safe =>
     Return {|
       current := currentGasPrice;
       fast := fast;
       safe := safe;
       congestion := congestion
     |})))))
    (fun _error => Return fallbackTrends).

(** The [switch] assigns [multiplier] in each of its three cases, so
    the initial [1.0] is never read. *)
Definition calculateDynamicGasPrice (baseGasPrice : Z) (urgency : Level)
    (marketVolatility profitMarginBps : num) : completion Z :=
  let multiplier :=
    match urgency with
    | low => of_decimal 105 2
    | medium => of_decimal 115 2
    | high => of_decimal 13 1
    end in
  let multiplier := add multiplier (mul marketVolatility (of_decimal 1 1)) in
  let multiplier :=
    if gtb profitMarginBps (of_Z 500)
    then add multiplier (of_decimal 1 1)
    else multiplier in
  let multiplier := Math_min multiplier (of_Z 2) in
  BigInt (Math_floor (mul (of_Z baseGasPrice) multiplier)).

Definition isGasCostAcceptable
    (gasCostUsd expectedProfitUsd maxGasRatio : num) : bool :=
  if leb expectedProfitUsd (of_Z 0) then false
  else leb (div gasCostUsd expectedProfitUsd) maxGasRatio.

(** The default of the optional parameter [maxGasRatio]. *)
Definition default_maxGasRatio : num := of_decimal 3 1.

End WithNumber.

End GasPricing.

(* ================================================================== *)
(** * [packages/risk/src/limits.ts]: the drawdown tracker *)

Module Tuning.

Section WithNumber.
Context {num : Type} `{JsNumber num}.

Record MAETracker : Type := {
  maxDrawdown : num;
  maxDrawdownDate : Z;
  currentDrawdown : num;
  peakValue : num
}.

(** [updateMAE] writes into the tracker it is given and returns that
    tracker; [now] is the time [new Date()] gives, which is read only
    when the maximal drawdown is raised. *)
Definition updateMAE (tracker : MAETracker) (currentValue : num) (now : Z)
  : MAETracker :=
  if gtb currentValue (peakValue tracker)
  then {| maxDrawdown := maxDrawdown tracker;
          maxDrawdownDate := maxDrawdownDate tracker;
          currentDrawdown := of_Z 0;
          peakValue := currentValue |}
  else
    let drawdown :=
      div (sub (peakValue tracker) currentValue) (peakValue tracker) in
    if gtb drawdown (maxDrawdown tracker)
    then {| maxDrawdown := drawdown;
            maxDrawdownDate := now;
            currentDrawdown := drawdown;
            peakValue := peakValue tracker |}
    else {| maxDrawdown := maxDrawdown tracker;
            maxDrawdownDate := maxDrawdownDate tracker;
            currentDrawdown := drawdown;
            peakValue := peakValue tracker |}.

End WithNumber.

Arguments MAETracker num : clear implicits.

End Tuning.

(* ================================================================== *)
(** * [packages/risk/src/controls.ts]: further vocabulary *)

Module Manager.

Import Risk.

Section WithNumber.
Context {num : Type} `{JsNumber num}.

(** The event [killSwitch] hands to the database when it is called in
    the world [w]. *)
Definition killEvent (env : Env num) (reason : string) (w : World num)
  : RiskEvent num :=
  {| eventType := "kill_switch";
     description := reason;
     data := Some (KillSwitchData (dailyPnl (state w))
                     (consecutiveLosses (state w))
                     (clock env (clockReads w))) |}.

End WithNumber.

End Manager.

(* ================================================================== *)
(** * The connector's swap simulation *)

Module Connector.

(** [Reserves], as [getReserves] returns them. *)
Record Reserves : Type := {
  reserve0 : Z;
  reserve1 : Z;
  blockTimestampLast : Z
}.

Section WithNumber.
Context {num : Type} `{JsNumber num}.

(** [simulateSwap] on a connector whose [getReserves(tokenIn, tokenOut)]
    completes as [getReserves] says ([None] for [null]); the swap is at
    the default fee, a [number]. *)
Definition simulateSwap (getReserves : completion (option Reserves))
    (amountIn : Z) : completion (option Z) :=
  try_catch
    (bindc getReserves (fun reserves =>
     match reserves with
     | None => Return None
     | Some reserves =>
         bindc (Amm.getAmountOut amountIn (reserve0 reserves)
                  (reserve1 reserves) Amm.default_feeBps)
           (fun amountOut => Return (Some amountOut))
     end))
    (fun _error => Return None).

End WithNumber.

End Connector.

(* ================================================================== *)
(** * [packages/core/src/profit.ts]: profit and trade size *)

Module Profit.

Section WithNumber.
Context {num : Type} `{JsNumber num}.

Definition calculateOptimalSize
    (spreadBps gasCostUsd maxSizeUsd minProfitUsd : num) : num :=
  if leb spreadBps (of_Z 0) then of_Z 0
  else
    let minSizeForBreakeven :=
      div (mul gasCostUsd (of_Z 10000)) spreadBps in
    let minSizeForProfit :=
      div (mul (add gasCostUsd minProfitUsd) (of_Z 10000)) spreadBps in
    let optimalSize := Math_max minSizeForProfit minSizeForBreakeven in
    Math_min optimalSize maxSizeUsd.

Definition maxProfitableSize
    (spreadBps gasCostUsd slippageBps maxSizeUsd : num) : num :=
  if leb spreadBps slippageBps then of_Z 0
  else
    let netSpreadBps := sub spreadBps slippageBps in
    let maxProfitableUsd :=
      mul (div (mul gasCostUsd (of_Z 10000)) netSpreadBps) (of_Z 10) in
    Math_min maxProfitableUsd maxSizeUsd.

Definition calculatePositionSize
    (availableCapitalUsd maxRiskPerTradePercent expectedReturnBps
       volatilityBps : num) : num :=
  let maxRiskUsd :=
    mul availableCapitalUsd (div maxRiskPerTradePercent (of_Z 100)) in
  let winProbability :=
    Math_min (of_decimal 8 1)
      (Math_max (of_decimal 1 1)
         (div expectedReturnBps (add expectedReturnBps volatilityBps))) in
  let kellyFraction :=
    div (sub (mul winProbability expectedReturnBps)
             (mul (sub (of_Z 1) winProbability) volatilityBps))
        expectedReturnBps in
  let kellySize :=
    mul availableCapitalUsd
        (Math_max (of_Z 0) (Math_min kellyFraction (of_decimal 25 2))) in
  Math_min maxRiskUsd kellySize.

End WithNumber.

End Profit.

(* ================================================================== *)
(** * The in-memory cache *)

Module Cache.

(** ** [Map<string, T>]: the entries in the order of insertion *)

Section MapOps.
Context {T : Type}.

Fixpoint Map_get (key : string) (m : list (string * T)) : option T :=
  match m with
  | [] => None
  | (k, v) :: rest => if String.eqb k key then Some v else Map_get key rest
  end.

(** [m.set(key, value)]: a key already there keeps its place. *)
Fixpoint Map_set (key : string) (value : T) (m : list (string * T))
  : list (string * T) :=
  match m with
  | [] => [(key, value)]
  | (k, v) :: rest =>
      if String.eqb k key then (k, value) :: rest
      else (k, v) :: Map_set key value rest
  end.

Fixpoint Map_delete (key : string) (m : list (string * T))
  : list (string * T) :=
  match m with
  | [] => []
  | (k, v) :: rest =>
      if String.eqb k key then rest else (k, v) :: Map_delete key rest
  end.

End MapOps.

Section WithNumber.
Context {num : Type} `{JsNumber num}.

(** [V]: the values the cache holds (none of them [null]). *)
Context {V : Type}.

Record CacheEntry : Type := {
  data : V;
  timestamp : Z;
  ttl : num
}.

(** The field [cache] of a [MemoryCache]. *)
Definition MemoryCache : Type := list (string * CacheEntry).

(** [now - entry.timestamp > entry.ttl] *)
Definition expired (now : Z) (entry : CacheEntry) : bool :=
  gtb (of_Z (now - timestamp entry)) (ttl entry).

(** The methods take the time [Date.now()] gives as [now]. *)

Definition set (key : string) (value : V) (ttlMs : num) (now : Z)
    (cache : MemoryCache) : MemoryCache :=
  Map_set key {| data := value; timestamp := now; ttl := ttlMs |} cache.

(** The default of the optional parameter [ttlMs]. *)
Definition default_ttlMs : num := of_Z 30000.

(** [get] returns the value, or [None] for [null], and the cache it
    leaves. *)
Definition get (key : string) (now : Z) (cache : MemoryCache)
  : option V * MemoryCache :=
  match Map_get key cache with
  | None => (None, cache)
  | Some entry =>
      if expired now entry then (None, Map_delete key cache)
      else (Some (data entry), cache)
  end.

Definition has (key : string) (now : Z) (cache : MemoryCache)
  : bool * MemoryCache :=
  let (value, cache') := get key now cache in
  (match value with Some _ => true | None => false end, cache').

Definition delete (key : string) (cache : MemoryCache) : MemoryCache :=
  Map_delete key cache.

Definition clear (cache : MemoryCache) : MemoryCache := [].

Definition size (cache : MemoryCache) : nat := List.length cache.

Definition cleanup (now : Z) (cache : MemoryCache) : MemoryCache :=
  let keysToDelete :=
    map fst (filter (fun kv => expired now (snd kv)) cache) in
  fold_left (fun c key => Map_delete key c) keysToDelete cache.

End WithNumber.

Arguments CacheEntry num V : clear implicits.
Arguments MemoryCache num V : clear implicits.

(** ** The snapshot history *)

(** [Snapshot], of [@pkg/shared]. *)
Record Snapshot : Type := {
  snapshot_timestamp : Z;
  pairAddress : string;
  snapshot_reserve0 : string;
  snapshot_reserve1 : string;
  token0 : string;
  token1 : string;
  dex : string
}.

Section Snapshots.
Context {num : Type} `{JsNumber num}.

(** [`snapshot:${pairAddress}:${dex}`] *)
Definition snapshotKey (pairAddress dex : string) : string :=
  String.append "snapshot:"
    (String.append pairAddress (String.append ":" dex)).

(** [addSnapshot] on a cache whose values are snapshot arrays; [now] is
    the time at its [get] and [now'] the time at its [set]. *)
Definition addSnapshot (snapshot : Snapshot) (now now' : Z)
    (cache : MemoryCache num (list Snapshot))
  : MemoryCache num (list Snapshot) :=
  let key := snapshotKey (pairAddress snapshot) (dex snapshot) in
  let (found, cache) := get key now cache in
  let existing := match found with Some l => l | None => [] end in
  let existing := existing ++ [snapshot] in
  let existing :=
    if (100 <? List.length existing)%nat then tl existing else existing in
  set key existing (of_Z 300000) now' cache.

Definition getSnapshotHistory (pairAddress dex : string) (now : Z)
    (cache : MemoryCache num (list Snapshot))
  : list Snapshot * MemoryCache num (list Snapshot) :=
  let key := snapshotKey pairAddress dex in
  let (found, cache) := get key now cache in
  (match found with Some l => l | None => [] end, cache).

End Snapshots.

End Cache.

(* ================================================================== *)
(** * Facts about binary64 *)

(** The comparisons, the sign of a product and the sign of a
    difference, from the specification of the primitive operations on
    [spec_float]. *)

Section RoundingSign.
Local Open Scope Z_scope.

Lemma shr_1_nonneg (mrs : shr_record) :
  0 <= shr_m mrs -> 0 <= shr_m (shr_1 mrs).
Proof.
  destruct mrs as [m r s]. simpl.
  destruct m as [| p | p]; simpl; try lia; destruct p; simpl; lia.
Qed.

Lemma iter_shr_1_nonneg (p : positive) (mrs : shr_record) :
  0 <= shr_m mrs -> 0 <= shr_m (iter_pos shr_1 p mrs).
Proof.
  revert mrs. induction p as [p IH | p IH |]; intros mrs H; simpl.
  - apply IH, IH, shr_1_nonneg, H.
  - apply IH, IH, H.
  - apply shr_1_nonneg, H.
Qed.

Lemma shr_fexp_nonneg (m e : Z) (l : location) :
  0 <= m -> 0 <= shr_m (fst (shr_fexp prec emax m e l)).
Proof.
  intros H. unfold shr_fexp, shr.
  assert (H0 : 0 <= shr_m (shr_record_of_loc m l))
    by (destruct l as [| []]; exact H).
  destruct (fexp prec emax (Zdigits2 m + e) - e); simpl; try exact H0.
  now apply iter_shr_1_nonneg.
Qed.

Lemma round_nearest_even_nonneg (m : Z) (l : location) :
  0 <= m -> 0 <= round_nearest_even m l.
Proof.
  intros H. destruct l as [| []]; simpl; try lia.
  destruct (Z.even m); lia.
Qed.

(** Rounding a magnitude that is not negative gives no NaN and keeps
    the sign. *)
Lemma binary_round_aux_sign (s : bool) (m e : Z) (l : location) :
  0 <= m ->
  match binary_round_aux prec emax s m e l with
  | S754_zero s' | S754_infinity s' | S754_finite s' _ _ => s' = s
  | S754_nan => False
  end.
Proof.
  intros H. unfold binary_round_aux.
  pose proof (shr_fexp_nonneg m e l H) as H1.
  destruct (shr_fexp prec emax m e l) as [mrs' e']. simpl in H1.
  pose proof (round_nearest_even_nonneg
                (shr_m mrs') (loc_of_shr_record mrs') H1) as H2.
  pose proof (shr_fexp_nonneg _ e' loc_Exact H2) as H3.
  destruct (shr_fexp prec emax _ e' loc_Exact) as [mrs'' e''].
  simpl in H3.
  destruct (shr_m mrs'') as [| p | p]; try reflexivity; [| lia].
  destruct (e'' <=? emax - prec); reflexivity.
Qed.

Lemma digits_shr_1 (mrs : shr_record) :
  Zdigits2 (shr_m (shr_1 mrs)) = Z.max 0 (Zdigits2 (shr_m mrs) - 1).
Proof.
  destruct mrs as [m r s].
  destruct m as [| p | p]; try reflexivity; destruct p;
    cbn [shr_1 shr_m Zdigits2 digits2_pos];
    rewrite ?Pos2Z.inj_succ; lia.
Qed.

Lemma digits_iter_shr_1 (p : positive) (mrs : shr_record) :
  Zdigits2 (shr_m (iter_pos shr_1 p mrs))
  = Z.max 0 (Zdigits2 (shr_m mrs) - Zpos p).
Proof.
  revert mrs. induction p as [p IH | p IH |]; intros mrs; simpl.
  - rewrite !IH, digits_shr_1. lia.
  - rewrite !IH. lia.
  - apply digits_shr_1.
Qed.

Lemma digits_pos_iff (m : Z) : 0 <= m -> (0 < Zdigits2 m <-> 0 < m).
Proof. destruct m; simpl; lia. Qed.

Lemma shr_m_record_of_loc (m : Z) (l : location) :
  shr_m (shr_record_of_loc m l) = m.
Proof. destruct l as [| []]; reflexivity. Qed.

(** Shifting a positive mantissa to its canonical exponent leaves it
    positive. *)
Lemma shr_fexp_pos (m e : Z) (l : location) :
  0 < m -> emin <= e ->
  0 < shr_m (fst (shr_fexp prec emax m e l))
  /\ emin <= snd (shr_fexp prec emax m e l).
Proof.
  intros Hm He. unfold shr_fexp, shr.
  pose proof (proj2 (digits_pos_iff m ltac:(lia)) Hm) as Hd.
  destruct (fexp prec emax (Zdigits2 m + e) - e) as [| n | n] eqn:En; simpl.
  - rewrite shr_m_record_of_loc. lia.
  - split; [| lia].
    apply digits_pos_iff.
    + apply iter_shr_1_nonneg. rewrite shr_m_record_of_loc. lia.
    + rewrite digits_iter_shr_1, shr_m_record_of_loc.
      unfold fexp in En. change prec with 53 in *. change emin with (-1074) in *. lia.
  - rewrite shr_m_record_of_loc. lia.
Qed.

Lemma round_nearest_even_pos (m : Z) (l : location) :
  0 < m -> 0 < round_nearest_even m l.
Proof.
  intros H. destruct l as [| []]; simpl; try lia.
  destruct (Z.even m); lia.
Qed.

(** Rounding a positive magnitude at an exponent that is not below the
    least one gives a number that is not zero and has the sign asked
    for. *)
Lemma binary_round_aux_pos (s : bool) (m e : Z) (l : location) :
  0 < m -> emin <= e ->
  match binary_round_aux prec emax s m e l with
  | S754_infinity s' | S754_finite s' _ _ => s' = s
  | _ => False
  end.
Proof.
  intros Hm He. unfold binary_round_aux.
  destruct (shr_fexp_pos m e l Hm He) as [H1 H1e].
  destruct (shr_fexp prec emax m e l) as [mrs' e']. simpl in H1, H1e.
  pose proof (round_nearest_even_pos (shr_m mrs') (loc_of_shr_record mrs') H1) as H2.
  destruct (shr_fexp_pos _ e' loc_Exact H2 H1e) as [H3 _].
  destruct (shr_fexp prec emax _ e' loc_Exact) as [mrs'' e'']. simpl in H3.
  destruct (shr_m mrs'') as [| p | p]; try lia.
  destruct (e'' <=? emax - prec); reflexivity.
Qed.

Lemma shl_align_spec (m : positive) (e e' : Z) :
  0 < Zpos (fst (shl_align m e e')) /\
  (snd (shl_align m e e') = e \/ snd (shl_align m e e') = e').
Proof.
  unfold shl_align. destruct (e' - e); simpl; split; try lia; auto.
Qed.

Lemma fexp_ge_emin (e : Z) : emin <= fexp prec emax e.
Proof. unfold fexp. lia. Qed.

Lemma binary_round_pos (s : bool) (m : positive) (e : Z) :
  emin <= e ->
  match binary_round prec emax s m e with
  | S754_infinity s' | S754_finite s' _ _ => s' = s
  | _ => False
  end.
Proof.
  intros He. unfold binary_round.
  pose proof (shl_align_spec m e (fexp prec emax (Zpos (digits2_pos m) + e))) as [Hm Hz].
  destruct (shl_align m e _) as [mz ez]. simpl in Hm, Hz.
  apply binary_round_aux_pos; [exact Hm |].
  destruct Hz as [-> | ->]; [exact He | apply fexp_ge_emin].
Qed.

Lemma digits2_pos_bounds (m : positive) :
  2 ^ (Zpos (digits2_pos m) - 1) <= Zpos m < 2 ^ Zpos (digits2_pos m).
Proof.
  induction m as [m IH | m IH |]; cbn [digits2_pos];
    rewrite ?Pos2Z.inj_succ.
  - replace (Z.succ (Zpos (digits2_pos m)) - 1) with (Z.succ (Zpos (digits2_pos m) - 1)) by lia.
    rewrite !Z.pow_succ_r by lia. lia.
  - replace (Z.succ (Zpos (digits2_pos m)) - 1) with (Z.succ (Zpos (digits2_pos m) - 1)) by lia.
    rewrite !Z.pow_succ_r by lia. lia.
  - simpl. lia.
Qed.

(** What the mantissa and the exponent of a finite double satisfy. *)
Lemma bounded_spec (m : positive) (e : Z) :
  bounded prec emax m e = true ->
  emin <= e
  /\ Zpos m < 2 ^ 53
  /\ (emin < e -> 2 ^ 52 <= Zpos m).
Proof.
  unfold bounded, canonical_mantissa, fexp. intros H.
  apply andb_true_iff in H as [H _]. apply Z.eqb_eq in H.
  change prec with 53 in *. change emin with (-1074) in *.
  pose proof (digits2_pos_bounds m) as [Hlo Hhi].
  assert (Hd : Zpos (digits2_pos m) <= 53) by lia.
  split; [lia |]. split.
  - apply Z.lt_le_trans with (1 := Hhi). apply Z.pow_le_mono_r; lia.
  - intros He. assert (Zpos (digits2_pos m) = 53) as Hd53 by lia.
    rewrite Hd53 in Hlo. exact Hlo.
Qed.

Lemma iter_xO_value (m d : positive) :
  Zpos (Pos.iter xO m d) = Zpos m * 2 ^ Zpos d.
Proof.
  induction d as [| d IH] using Pos.peano_ind.
  - change (2 ^ 1) with 2. cbn [Pos.iter]. lia.
  - rewrite Pos.iter_succ, Pos2Z.inj_succ, Z.pow_succ_r by lia.
    rewrite Pos2Z.inj_xO, IH. ring.
Qed.

Lemma shl_align_value (m : positive) (e ez : Z) :
  ez <= e ->
  Zpos (fst (shl_align m e ez)) = Zpos m * 2 ^ (e - ez).
Proof.
  intros H. unfold shl_align.
  destruct (ez - e) as [| d | d] eqn:Ed; simpl fst.
  - replace (e - ez) with 0 by lia. simpl. lia.
  - lia.
  - rewrite iter_xO_value. f_equal. f_equal. lia.
Qed.

Lemma aligned_lt (m m' : positive) (e e' : Z) :
  bounded prec emax m e = true -> bounded prec emax m' e' = true ->
  e < e' ->
  Zpos m * 2 ^ (e - e) < Zpos m' * 2 ^ (e' - e).
Proof.
  intros B B' He.
  destruct (bounded_spec m e B) as (Hmin & Hm & _).
  destruct (bounded_spec m' e' B') as (_ & _ & Hn).
  specialize (Hn ltac:(lia)).
  replace (e - e) with 0 by lia. rewrite Z.pow_0_r, Z.mul_1_r.
  assert (2 ^ 1 <= 2 ^ (e' - e)) by (apply Z.pow_le_mono_r; lia).
  change (2 ^ 1) with 2 in *. change (2^53) with (2 * 2^52) in Hm. nia.
Qed.

(** Two finite doubles compare as their mantissas do once brought to
    the smaller of the two exponents and signed. *)
Lemma SFcompare_aligned (sx sy : bool) (mx my : positive) (ex ey : Z) :
  bounded prec emax mx ex = true -> bounded prec emax my ey = true ->
  let ez := Z.min ex ey in
  SFcompare (S754_finite sy my ey) (S754_finite sx mx ex)
  = Some (cond_Zopp sy (Zpos (fst (shl_align my ey ez)))
          ?= cond_Zopp sx (Zpos (fst (shl_align mx ex ez)))).
Proof.
  intros Bx By ez. subst ez.
  rewrite !shl_align_value by lia.
  assert (P2 : forall k, 0 < 2 ^ (k - Z.min ex ey) \/ k < Z.min ex ey).
  { intros k. destruct (Z_lt_le_dec k (Z.min ex ey)); [now right | left].
    apply Z.pow_pos_nonneg; lia. }
  destruct (P2 ex) as [Px | ?]; [| lia]. destruct (P2 ey) as [Py | ?]; [| lia].
  simpl SFcompare.
  destruct (Z.compare_spec ey ex) as [E | L | G].
  - subst ey. rewrite Z.min_id in *. replace (ex - ex) with 0 by lia.
    rewrite Z.pow_0_r, !Z.mul_1_r.
    change (Pos.compare_cont Eq my mx) with (Zpos my ?= Zpos mx).
    destruct sy, sx; reflexivity.
  - rewrite (Z.min_r ex ey) in * by lia.
    pose proof (aligned_lt my mx ey ex By Bx L) as A.
    destruct sy, sx; unfold cond_Zopp; f_equal; symmetry.
    + apply Z.compare_gt_iff. lia.
    + apply Z.compare_lt_iff. lia.
    + apply Z.compare_gt_iff. lia.
    + apply Z.compare_lt_iff. lia.
  - rewrite (Z.min_l ex ey) in * by lia.
    pose proof (aligned_lt mx my ex ey Bx By ltac:(lia)) as A.
    destruct sy, sx; unfold cond_Zopp; f_equal; symmetry.
    + apply Z.compare_lt_iff. lia.
    + apply Z.compare_lt_iff. lia.
    + apply Z.compare_gt_iff. lia.
    + apply Z.compare_gt_iff. lia.
Qed.

Lemma binary_normalize_sign (m e : Z) :
  SpecFloat.emin prec emax <= e ->
  SFltb (S754_zero false) (binary_normalize prec emax m e false)
  = (0 <? m).
Proof.
  intros He. unfold binary_normalize.
  destruct m as [| p | p].
  - reflexivity.
  - pose proof (binary_round_pos false p e He) as H.
    destruct (binary_round prec emax false p e) as [| s' | | s' m' e'];
      try contradiction; subst s'; reflexivity.
  - pose proof (binary_round_pos true p e He) as H.
    destruct (binary_round prec emax true p e) as [| s' | | s' m' e'];
      try contradiction; subst s'; reflexivity.
Qed.

(** A difference is positive exactly when the subtrahend is the
    smaller, infinities and NaN included. *)
Lemma SFsub_sign (x y : spec_float) :
  valid_binary x = true -> valid_binary y = true ->
  SFltb (S754_zero false) (SFsub prec emax x y) = SFltb y x.
Proof.
  intros Vx Vy.
  destruct x as [sx | sx | | sx mx ex], y as [sy | sy | | sy my ey];
    try (destruct sx; reflexivity); try (destruct sy; reflexivity);
    try (destruct sx, sy; reflexivity); try reflexivity.
  simpl in Vx, Vy.
  unfold SFsub, SFltb. rewrite (SFcompare_aligned sx sy mx my ex ey Vx Vy).
  fold (SFltb (S754_zero false)
          (binary_normalize prec emax
             (cond_Zopp sx (Zpos (fst (shl_align mx ex (Z.min ex ey))))
              - cond_Zopp sy (Zpos (fst (shl_align my ey (Z.min ex ey)))))
             (Z.min ex ey) false)).
  rewrite binary_normalize_sign.
  - set (X := cond_Zopp sx _). set (Y := cond_Zopp sy _).
    destruct (Z.ltb_spec 0 (X - Y)) as [H | H];
      destruct (Z.compare_spec Y X); try reflexivity; lia.
  - destruct (bounded_spec mx ex Vx) as [? _], (bounded_spec my ey Vy) as [? _]. lia.
Qed.

End RoundingSign.

Section Float64Facts.
Local Open Scope float_scope.

Lemma SFopp_involutive (x : spec_float) : SFopp (SFopp x) = x.
Proof.
  destruct x as [s | s | | s m e]; simpl;
    try rewrite negb_involutive; reflexivity.
Qed.

Lemma compare_cont_swap (p q : positive) :
  Pos.compare_cont Eq p q = CompOpp (Pos.compare_cont Eq q p).
Proof. now rewrite Pos.compare_cont_antisym. Qed.

(** Negating both sides reverses a comparison. *)
Lemma SFcompare_opp (x y : spec_float) :
  SFcompare (SFopp x) (SFopp y) = SFcompare y x.
Proof.
  destruct x as [sx | sx | | sx mx ex], y as [sy | sy | | sy my ey];
    try destruct sx; try destruct sy; simpl; try reflexivity.
  all: rewrite (Z.compare_antisym ey ex), (compare_cont_swap mx my).
  all: destruct (ey ?= ex)%Z; simpl; try reflexivity.
  all: destruct (Pos.compare_cont Eq my mx); reflexivity.
Qed.

Lemma SFcompare_opp_r (x y : spec_float) :
  SFcompare x (SFopp y) = SFcompare y (SFopp x).
Proof. rewrite <- (SFopp_involutive x) at 1. apply SFcompare_opp. Qed.

Lemma SFcompare_antisym (x y : spec_float) :
  SFcompare y x = option_map CompOpp (SFcompare x y).
Proof.
  destruct x as [sx | sx | | sx mx ex], y as [sy | sy | | sy my ey];
    try destruct sx; try destruct sy; simpl; try reflexivity.
  all: rewrite (Z.compare_antisym ex ey), (compare_cont_swap my mx).
  all: destruct (ex ?= ey)%Z; simpl; try reflexivity.
  all: destruct (Pos.compare_cont Eq mx my); reflexivity.
Qed.

Lemma leb_opp_swap (m x : float) : (m <=? - x) = (x <=? - m).
Proof.
  rewrite !leb_spec, !opp_spec. unfold SFleb. now rewrite SFcompare_opp_r.
Qed.

Lemma is_nan_spec (x : float) :
  is_nan x = match Prim2SF x with S754_nan => true | _ => false end.
Proof.
  unfold is_nan. rewrite FloatAxioms.eqb_spec. unfold SFeqb.
  destruct (Prim2SF x) as [s | s | | s m e]; try destruct s; simpl;
    try reflexivity.
  all: rewrite Z.compare_refl, Pos.compare_cont_refl; reflexivity.
Qed.

Lemma ltb_leb (x y : float) : (x <? y) = true -> (x <=? y) = true.
Proof.
  rewrite ltb_spec, leb_spec. unfold SFltb, SFleb.
  destruct (SFcompare _ _) as [[] |]; congruence.
Qed.

(** The order is total on the doubles that are not NaN. *)
Lemma not_ltb_leb (x y : float) :
  is_nan x = false -> is_nan y = false ->
  (x <? y) = false -> (y <=? x) = true.
Proof.
  rewrite !is_nan_spec, ltb_spec, leb_spec. unfold SFltb, SFleb.
  rewrite (SFcompare_antisym (Prim2SF x) (Prim2SF y)).
  destruct (Prim2SF x) as [sx | sx | | sx mx ex],
           (Prim2SF y) as [sy | sy | | sy my ey];
    try discriminate; intros _ _;
    destruct (SFcompare _ _) as [[] |] eqn:E; simpl;
    try congruence; try discriminate E.
Qed.

Lemma leb_ltb_infinity (x c : float) :
  (x <=? c) = true -> (c <? infinity) = true -> (x <? infinity) = true.
Proof.
  rewrite leb_spec, !ltb_spec.
  change (Prim2SF infinity) with (S754_infinity false).
  destruct (Prim2SF x) as [sx | sx | | sx mx ex],
           (Prim2SF c) as [sc | sc | | sc mc ec];
    try destruct sx; try destruct sc; unfold SFleb, SFltb; simpl;
    congruence.
Qed.

Lemma Prim2SF_nonneg (x : float) :
  (0 <=? x) = true ->
  match Prim2SF x with
  | S754_zero _ | S754_infinity false | S754_finite false _ _ => True
  | _ => False
  end.
Proof.
  rewrite leb_spec. change (Prim2SF 0) with (S754_zero false).
  destruct (Prim2SF x) as [s | s | | s m e]; try destruct s; simpl;
    try discriminate; trivial.
Qed.

(** The product of two finite doubles that are not negative is not
    negative. *)
Lemma float64_mul_nonneg (x y : float) :
  (0 <=? x) = true -> (x <? infinity) = true ->
  (0 <=? y) = true -> (y <? infinity) = true ->
  (0 <=? x * y) = true.
Proof.
  intros Hx Hxf Hy Hyf.
  pose proof (Prim2SF_nonneg x Hx) as Px.
  pose proof (Prim2SF_nonneg y Hy) as Py.
  rewrite ltb_spec in Hxf, Hyf.
  change (Prim2SF infinity) with (S754_infinity false) in *.
  rewrite leb_spec, mul_spec. change (Prim2SF 0) with (S754_zero false).
  unfold SF64mul.
  destruct (Prim2SF x) as [sx | sx | | sx mx ex]; try destruct sx;
    try contradiction; try discriminate Hxf.
  all: destruct (Prim2SF y) as [sy | sy | | sy my ey]; try destruct sy;
    try contradiction; try discriminate Hyf.
  all: try reflexivity.
  unfold SFmul. simpl xorb.
  pose proof (binary_round_aux_sign false (Zpos (mx * my)) (ex + ey)
                loc_Exact ltac:(lia)) as S.
  destruct (binary_round_aux _ _ _ _ _ _) as [s | s | | s m e];
    try contradiction; subst; reflexivity.
Qed.

(** The fraction the Kelly sizer applies lies between 0 and 0.1,
    unless the Kelly fraction is NaN. *)
Lemma float64_cap_bounds (k : float) :
  is_nan k = false ->
  let f := F64.Math_max 0 (F64.Math_min (F64.of_decimal 1 1) k) in
  (0 <=? f) = true /\ (f <=? F64.of_decimal 1 1) = true.
Proof.
  intros Hk f. subst f.
  set (tenth := F64.of_decimal 1 1).
  assert (Htenth : is_nan tenth = false) by reflexivity.
  assert (H0t : (0 <=? tenth) = true) by reflexivity.
  assert (H00 : (0 <=? 0) = true) by reflexivity.
  assert (Htt : (tenth <=? tenth) = true) by reflexivity.
  assert (Hm : let m := F64.Math_min tenth k in
               is_nan m = false /\ (m <=? tenth) = true).
  { unfold F64.Math_min. rewrite Htenth, Hk. simpl orb.
    destruct (tenth <? k) eqn:E1; [now split |].
    destruct (k <? tenth) eqn:E2;
      [split; [exact Hk | now apply ltb_leb] |].
    change (F64.is_neg_zero tenth) with false.
    split; [exact Hk | now apply not_ltb_leb]. }
  cbv zeta in Hm. destruct Hm as [Hmn Hmt].
  set (m := F64.Math_min tenth k) in *.
  unfold F64.Math_max. change (is_nan 0) with false. rewrite Hmn.
  simpl orb.
  destruct (0 <? m) eqn:E1; [split; [now apply ltb_leb | exact Hmt] |].
  destruct (m <? 0) eqn:E2; [now split |].
  change (F64.is_pos_zero 0) with true. now split.
Qed.

Lemma eqb_zero_sym (x : float) : (0 =? x) = (x =? 0).
Proof.
  rewrite !FloatAxioms.eqb_spec. change (Prim2SF 0) with (S754_zero false).
  destruct (Prim2SF x) as [s | s | | s m e]; try destruct s; reflexivity.
Qed.

(** [|min(0, x)| > m] says [x < -m], when [m] is not negative. *)
Lemma potential_loss_threshold (m x : float) :
  (0 <=? m) = true ->
  (m <? abs (F64.Math_min (F64.of_Z 0) x)) = (x <? - m).
Proof.
  change (F64.of_Z 0) with 0. unfold F64.Math_min.
  change (is_nan 0) with false. change (F64.is_neg_zero 0) with false.
  simpl orb.
  rewrite is_nan_spec. rewrite !ltb_spec, leb_spec.
  change (Prim2SF 0) with (S754_zero false).
  destruct (Prim2SF x) as [sx | sx | | sx mx ex] eqn:Ex.
  all: destruct (Prim2SF m) as [sm | sm | | sm mm em] eqn:Em.
  all: try destruct sx; try destruct sm; simpl; intros Hm;
    try discriminate Hm.
  all: rewrite ?ltb_spec, ?abs_spec, ?opp_spec, ?Ex, ?Em; simpl;
    try reflexivity.
  unfold SFltb; simpl.
  rewrite (Z.compare_antisym ex em), (compare_cont_swap mm mx).
  destruct (ex ?= em)%Z; simpl; reflexivity.
Qed.

(** [-pnl >= m] says [pnl <= -m]. *)
Lemma float64_realized_breach (pnl m : float) :
  geb (neg pnl) m = leb pnl (neg m).
Proof. exact (leb_opp_swap m pnl). Qed.

Lemma float64_projected_breach (pnl e m : float) :
  leb (of_Z 0) m = true ->
  gtb (Risk.potentialDailyLoss pnl e) m = ltb (add pnl e) (neg m).
Proof. intros H. exact (potential_loss_threshold m (pnl + e) H). Qed.

(** On doubles, [x || 0] is [x] itself or equal to it, unless [x] is
    NaN. *)
Lemma float64_or_zero (x : float) :
  is_nan x = false ->
  eqb (if truthy x then x else of_Z 0) x = true.
Proof.
  intros Hnan. cbn. unfold F64.truthy. rewrite Hnan. simpl orb.
  destruct (is_zero x) eqn:Hz; simpl.
  - change (F64.of_Z 0) with 0. rewrite eqb_zero_sym. exact Hz.
  - unfold is_nan in Hnan. now apply negb_false_iff in Hnan.
Qed.

(** The comparator [(a, b) => a - b] is positive exactly when [b < a],
    on every pair of doubles. *)
Lemma float64_sub_sign (x y : float) : (0 <? x - y) = (y <? x).
Proof.
  rewrite !ltb_spec, sub_spec.
  change (Prim2SF 0) with (S754_zero false).
  apply SFsub_sign; apply Prim2SF_valid.
Qed.

End Float64Facts.

(* ================================================================== *)
(** * Properties of the swap arithmetic *)

Section AmmFacts.
Local Open Scope Z_scope.

Lemma bigint_div_nonneg (a b : Z) :
  0 <= a -> 0 < b -> bigint_div a b = Return (a / b).
Proof.
  intros Ha Hb. unfold bigint_div.
  destruct (Z.eqb_spec b 0) as [E | _]; [lia |].
  now rewrite Z.quot_div_nonneg.
Qed.

Lemma zero_guard_false (a b c : Z) :
  a <> 0 -> b <> 0 -> c <> 0 -> ((a =? 0) || (b =? 0) || (c =? 0))%bool = false.
Proof.
  intros Ha Hb Hc.
  destruct (Z.eqb_spec a 0), (Z.eqb_spec b 0), (Z.eqb_spec c 0);
    simpl; congruence.
Qed.

Lemma zero_guard_true (a b c : Z) :
  a = 0 \/ b = 0 \/ c = 0 -> ((a =? 0) || (b =? 0) || (c =? 0))%bool = true.
Proof.
  intros [-> | [-> | ->]]; simpl; rewrite ?orb_true_r; reflexivity.
Qed.

(** The fee factor of an integer fee between 0 and 10000 basis points
    is computed without rounding: each of the 10001 cases is
    evaluated, the fee counted up from 0. *)
Lemma fee_factor_integer (feeBps : Z) :
  0 <= feeBps <= 10000 ->
  BigInt (sub (of_Z 10000) (of_Z feeBps : float)) = Return (10000 - feeBps).
Proof.
  intros Hf.
  set (unrounded := fun k : Z =>
                      match BigInt (sub (of_Z 10000) (of_Z k : float)) with
                      | Return z => z =? 10000 - k
                      | Throw _ => false
                      end).
  set (next := fun s : Z * bool => (fst s + 1, (snd s && unrounded (fst s))%bool)).
  assert (All : snd (Z.iter 10001 next (0, true)) = true)
    by (vm_compute; reflexivity).
  assert (Inv : forall n : nat,
            fst (Nat.iter n next (0, true)) = Z.of_nat n
            /\ (snd (Nat.iter n next (0, true)) = true ->
                forall k, 0 <= k < Z.of_nat n -> unrounded k = true)).
  { induction n as [| n [IH1 IH2]].
    - split; [reflexivity | intros _ k Hk; lia].
    - change (Nat.iter (S n) next (0, true))
        with (next (Nat.iter n next (0, true))).
      destruct (Nat.iter n next (0, true)) as [c ok].
      cbn [fst snd] in IH1, IH2. subst c. unfold next. cbn [fst snd].
      split; [lia |]. intros H k Hk.
      apply andb_true_iff in H as [H1 H2].
      destruct (Z.eq_dec k (Z.of_nat n)) as [-> | Hne];
        [exact H2 | apply IH2; [exact H1 | lia]]. }
  rewrite iter_nat_of_Z in All by lia. unfold iter_nat in All.
  pose proof (proj2 (Inv (Z.abs_nat 10001)) All feeBps ltac:(lia)) as Hk.
  unfold unrounded in Hk.
  destruct (BigInt _) as [z | e]; [| discriminate Hk].
  f_equal. now apply Z.eqb_eq.
Qed.

(** The quotient [getAmountOut] returns on positive operands. *)
Lemma getAmountOut_positive (amountIn reserveIn reserveOut feeBps : Z) :
  0 < amountIn -> 0 < reserveIn -> 0 < reserveOut -> 0 <= feeBps <= 10000 ->
  Amm.getAmountOut amountIn reserveIn reserveOut (of_Z feeBps : float) =
  Return (amountIn * (10000 - feeBps) * reserveOut
          / (reserveIn * 10000 + amountIn * (10000 - feeBps))).
Proof.
  intros Ha Hi Ho Hf. unfold Amm.getAmountOut.
  rewrite zero_guard_false by lia. cbv zeta.
  rewrite (fee_factor_integer feeBps Hf). cbn [bindc].
  apply bigint_div_nonneg; nia.
Qed.

(** C5. [getAmountOut] returns 0 when [amountIn], [reserveIn] or
    [reserveOut] is 0, whatever the fee is.  For positive operands and
    a fee of a whole number of basis points from 0 to 10000, it returns
    [floor(effIn * reserveOut / (reserveIn * 10000 + effIn))] with
    [effIn = amountIn * (10000 - feeBps)], which is not negative and
    strictly less than [reserveOut].  The fee is a [number]: when
    [10000 - feeBps] is not an integer, and no operand is 0, the
    conversion to [bigint] raises [RangeError]. *)
Theorem getAmountOut_constant_product (amountIn reserveIn reserveOut : Z) :
  (forall feeBps : float,
     amountIn = 0 \/ reserveIn = 0 \/ reserveOut = 0 ->
     Amm.getAmountOut amountIn reserveIn reserveOut feeBps = Return 0)
  /\
  (forall feeBps : Z,
     0 <= feeBps <= 10000 ->
     0 < amountIn -> 0 < reserveIn -> 0 < reserveOut ->
     let effIn := amountIn * (10000 - feeBps) in
     let out := effIn * reserveOut / (reserveIn * 10000 + effIn) in
     Amm.getAmountOut amountIn reserveIn reserveOut (of_Z feeBps : float)
     = Return out
     /\ 0 <= out < reserveOut)
  /\
  (forall feeBps : float,
     amountIn <> 0 -> reserveIn <> 0 -> reserveOut <> 0 ->
     to_integer (sub (of_Z 10000) feeBps) = None ->
     Amm.getAmountOut amountIn reserveIn reserveOut feeBps
     = Throw (RangeError "The number cannot be converted to a BigInt")).
Proof.
  split; [| split].
  - intros feeBps Hz. unfold Amm.getAmountOut. now rewrite zero_guard_true.
  - intros feeBps Hf Ha Hi Ho effIn out. split.
    + now apply getAmountOut_positive.
    + subst out effIn. split.
      * apply Z.div_pos; nia.
      * apply Z.div_lt_upper_bound; nia.
  - intros feeBps Ha Hi Ho Hnone. unfold Amm.getAmountOut.
    rewrite zero_guard_false by assumption. cbv zeta.
    unfold BigInt. now rewrite Hnone.
Qed.

(** The theorem at the reserves of the unit tests: 1 ETH into a pool of
    100 ETH and 200000 USDC at the default fee of 30 basis points; and
    at a fee of 30.5 basis points, which raises. *)
Lemma getAmountOut_constant_product_witness :
  (Amm.getAmountOut (10 ^ 18) (100 * 10 ^ 18) (200000 * 10 ^ 6)
     (Amm.default_feeBps : float)
   = Return 1974316068
   /\ 0 <= 1974316068 < 200000 * 10 ^ 6)
  /\ Amm.getAmountOut (10 ^ 18) (100 * 10 ^ 18) (200000 * 10 ^ 6)
       (of_decimal 305 1 : float)
     = Throw (RangeError "The number cannot be converted to a BigInt").
Proof.
  split.
  - exact (proj1 (proj2 (getAmountOut_constant_product
                           (10 ^ 18) (100 * 10 ^ 18) (200000 * 10 ^ 6)))
                 30 ltac:(lia) ltac:(lia) ltac:(lia) ltac:(lia)).
  - apply (proj2 (proj2 (getAmountOut_constant_product
                           (10 ^ 18) (100 * 10 ^ 18) (200000 * 10 ^ 6))));
      try (vm_compute; discriminate).
    vm_compute. reflexivity.
Defined.

(** C6 (as amended). On a pool one of whose reserves is 0,
    [getAmountIn] returns 0 and does not raise, whatever is requested.
    On a pool with positive reserves it raises "Insufficient liquidity"
    exactly when [amountOut >= reserveOut], whatever the fee is.  And
    for positive reserves, [0 < amountOut < reserveOut] and a fee of a
    whole number of basis points from 0 to 9999, it returns an input
    that [getAmountOut], with the same reserves and fee, turns into at
    least [amountOut]. *)
Theorem getAmountIn_inverse (amountOut reserveIn reserveOut : Z) :
  (forall feeBps : float,
     reserveIn = 0 \/ reserveOut = 0 ->
     Amm.getAmountIn amountOut reserveIn reserveOut feeBps = Return 0)
  /\
  (forall feeBps : float,
     0 < reserveIn -> 0 < reserveOut ->
     (Amm.getAmountIn amountOut reserveIn reserveOut feeBps
      = Throw (Error "Insufficient liquidity")
      <-> amountOut >= reserveOut))
  /\
  (forall feeBps : Z,
     0 <= feeBps < 10000 ->
     0 < reserveIn -> 0 < reserveOut -> 0 < amountOut < reserveOut ->
     exists amountIn out,
       Amm.getAmountIn amountOut reserveIn reserveOut (of_Z feeBps : float)
       = Return amountIn
       /\ Amm.getAmountOut amountIn reserveIn reserveOut
            (of_Z feeBps : float) = Return out
       /\ amountOut <= out).
Proof.
  split; [| split].
  - intros feeBps Hz. unfold Amm.getAmountIn.
    rewrite zero_guard_true; [reflexivity |]. tauto.
  - intros feeBps Hi Ho. unfold Amm.getAmountIn. split.
    + intros Hthrow.
      destruct (Z.eq_dec amountOut 0) as [E | Ha].
      { rewrite zero_guard_true in Hthrow by auto. discriminate Hthrow. }
      rewrite zero_guard_false in Hthrow by lia.
      destruct (Z.geb_spec amountOut reserveOut) as [Hge | Hlt]; [lia |].
      exfalso. revert Hthrow. cbv zeta. unfold BigInt, bigint_div.
      destruct (to_integer _); cbn [bindc]; [| discriminate].
      destruct (_ =? 0); cbn [bindc]; discriminate.
    + intros Hge.
      rewrite zero_guard_false by lia.
      destruct (Z.geb_spec amountOut reserveOut); [reflexivity | lia].
  - intros feeBps Hfee Hi Ho [Ha Hlt].
    set (f := 10000 - feeBps).
    set (n := reserveIn * amountOut * 10000).
    set (d := (reserveOut - amountOut) * f).
    assert (Hfpos : 0 < f) by (subst f; lia).
    assert (Hd : 0 < d) by (subst d; nia).
    assert (Hn : 0 <= n) by (subst n; nia).
    exists (n / d + 1),
      ((n / d + 1) * f * reserveOut / (reserveIn * 10000 + (n / d + 1) * f)).
    assert (Hq : 0 <= n / d) by (apply Z.div_pos; lia).
    split; [| split].
    + unfold Amm.getAmountIn.
      rewrite zero_guard_false by lia.
      destruct (Z.geb_spec amountOut reserveOut); [lia |].
      cbv zeta. rewrite (fee_factor_integer feeBps) by lia. cbn [bindc].
      fold f n d.
      rewrite (bigint_div_nonneg n d Hn Hd). reflexivity.
    + apply getAmountOut_positive; lia.
    + apply Z.div_le_lower_bound; [nia |].
      (* n < d * (n / d + 1), the defining property of the quotient *)
      assert (Hmod : n < d * (n / d + 1)).
      { pose proof (Z.mul_succ_div_gt n d Hd) as G. lia. }
      subst n d. nia.
Qed.

(** The theorem at the reserves of the unit tests: 1000 USDC out of a
    pool of 100 ETH and 200000 USDC at 30 basis points. *)
Lemma getAmountIn_inverse_witness :
  exists amountIn out,
    Amm.getAmountIn (10 ^ 9) (100 * 10 ^ 18) (200000 * 10 ^ 6)
      (Amm.default_feeBps : float)
    = Return amountIn
    /\ Amm.getAmountOut amountIn (100 * 10 ^ 18) (200000 * 10 ^ 6)
         (Amm.default_feeBps : float)
       = Return out
    /\ 10 ^ 9 <= out.
Proof.
  exact (proj2 (proj2 (getAmountIn_inverse
                         (10 ^ 9) (100 * 10 ^ 18) (200000 * 10 ^ 6)))
               30 ltac:(lia) ltac:(lia) ltac:(lia) ltac:(lia)).
Defined.

(** C6, as stated, fails on an empty pool: the request is not below the
    reserve, and the call returns 0 where the claim has it raise.  At a
    fee of exactly 10000 basis points a request below the reserve
    raises a [RangeError], and nothing feeds back. *)
Lemma getAmountIn_empty_pool_returns_zero :
  1000 >= 0
  /\ Amm.getAmountIn 1000 (100 * 10 ^ 18) 0 (Amm.default_feeBps : float)
     = Return 0
  /\ Amm.getAmountIn 1 1 2 (of_Z 10000 : float)
     = Throw (RangeError "Division by zero").
Proof. split; [lia |]. split; vm_compute; reflexivity. Qed.

End AmmFacts.

(* ================================================================== *)
(** * Properties of the gas estimator *)

Section GasFacts.
Context {num : Type} {N : JsNumber num}.

(** C7. When the provider's fee query raises, [estimateArbitrageGas]
    returns the fixed estimate (gas limit 400000, 50 gwei a unit of
    gas, 40 USD) and does not raise; and whatever the provider does,
    the call returns an estimate. *)
Theorem estimateArbitrageGas_fallback
    (provider : Gas.JsonRpcProvider) (ethPriceUsd multiplier : num) :
  (forall e, Gas.getFeeData provider = Throw e ->
     Gas.estimateArbitrageGas provider ethPriceUsd multiplier
     = Return {| Gas.gasLimit := 400000;
                 Gas.maxFeePerGas := 50 * 10 ^ 9;
                 Gas.maxPriorityFeePerGas := 2 * 10 ^ 9;
                 Gas.estimatedCostWei := 2 * 10 ^ 16;
                 Gas.estimatedCostUsd := of_Z 40 |})
  /\
  (exists estimate,
     Gas.estimateArbitrageGas provider ethPriceUsd multiplier
     = Return estimate).
Proof.
  unfold Gas.estimateArbitrageGas. split.
  - intros e He. rewrite He. reflexivity.
  - destruct (Gas.getFeeData provider) as [feeData | e];
      cbn [bindc try_catch]; [| eauto].
    destruct (BigInt _) as [gasLimit | e]; cbn [bindc try_catch]; [| eauto].
    destruct (Gas.formatUnits _ _) as [estimatedCostEth | e];
      cbn [bindc try_catch]; eauto.
Qed.

End GasFacts.

(** The theorem on doubles, for a provider whose query is rejected and
    the default price and multiplier. *)
Lemma estimateArbitrageGas_fallback_witness :
  Gas.estimateArbitrageGas (num := float) Fixtures.failingProvider
    Gas.default_ethPriceUsd Gas.default_multiplier
  = Return {| Gas.gasLimit := 400000;
              Gas.maxFeePerGas := 50 * 10 ^ 9;
              Gas.maxPriorityFeePerGas := 2 * 10 ^ 9;
              Gas.estimatedCostWei := 2 * 10 ^ 16;
              Gas.estimatedCostUsd := of_Z 40 |}.
Proof.
  exact (proj1 (estimateArbitrageGas_fallback
                  Fixtures.failingProvider
                  Gas.default_ethPriceUsd Gas.default_multiplier)
               (Error "network error") eq_refl).
Defined.

(* ================================================================== *)
(** * Properties of the sizing and risk metrics *)

Section SortFacts.
Context {num : Type} {N : JsNumber num}.
Variable compareFn : num -> num -> num.

Lemma sort_insert_cons (x y : num) (l : list num) :
  Limits.sort_insert compareFn x (y :: l)
  = if gtb (compareFn x y) (of_Z 0)
    then y :: Limits.sort_insert compareFn x l
    else x :: y :: l.
Proof. reflexivity. Qed.

Lemma sort_insert_perm (x : num) (l : list num) :
  Permutation (Limits.sort_insert compareFn x l) (x :: l).
Proof.
  induction l as [| y l IH].
  - reflexivity.
  - rewrite sort_insert_cons. destruct (gtb (compareFn x y) (of_Z 0)).
    + rewrite IH. apply perm_swap.
    + reflexivity.
Qed.

Lemma insertion_perm (l : list num) :
  Permutation (fold_right (Limits.sort_insert compareFn) [] l) l.
Proof.
  induction l as [| x l IH]; simpl.
  - reflexivity.
  - rewrite sort_insert_perm. now constructor.
Qed.

(** A sorted array is the insertion of each element, from the last to
    the first; it is a rearrangement of the array and as long. *)
Lemma Array_sort_Some (l sorted : list num) :
  Limits.Array_sort compareFn l = Some sorted ->
  sorted = fold_right (Limits.sort_insert compareFn) [] l
  /\ Permutation sorted l
  /\ List.length sorted = List.length l.
Proof.
  unfold Limits.Array_sort. destruct (Limits.neverNaN compareFn l); [| discriminate].
  intros [= <-]. split; [reflexivity |]. split.
  - apply insertion_perm.
  - apply Permutation_length, insertion_perm.
Qed.

End SortFacts.

Section ExactFacts.
Local Open Scope Q_scope.

Lemma exact_gtb_sub_false (x y : Q) :
  gtb (sub x y) (of_Z 0) = false -> x <= y.
Proof.
  cbn. unfold Exact.ltb. rewrite negb_false_iff, Qle_bool_iff.
  change (inject_Z 0) with 0. intros; lra.
Qed.

Lemma exact_gtb_sub_true (x y : Q) :
  gtb (sub x y) (of_Z 0) = true -> y <= x.
Proof.
  cbn. unfold Exact.ltb. rewrite negb_true_iff. intros E.
  change (inject_Z 0) with 0 in E.
  assert (~ x - y <= 0) by (rewrite <- Qle_bool_iff; congruence).
  lra.
Qed.

Lemma sort_insert_sorted (x : Q) (l : list Q) :
  Sorted Qle l -> Sorted Qle (Limits.sort_insert (fun a b => sub a b) x l).
Proof.
  induction 1 as [| y l Hs IH Hhd].
  - repeat constructor.
  - rewrite sort_insert_cons.
    destruct (gtb (sub x y) (of_Z 0)) eqn:E.
    + constructor; [exact IH |].
      apply exact_gtb_sub_true in E.
      destruct l as [| z l].
      * constructor. exact E.
      * rewrite sort_insert_cons.
        destruct (gtb (sub x z) (of_Z 0)); constructor; [| exact E].
        now inversion Hhd.
    + apply exact_gtb_sub_false in E.
      constructor; [now constructor | now constructor].
Qed.

Lemma exact_sort_sorted (l : list Q) :
  Sorted Qle (fold_right (Limits.sort_insert (fun a b => sub a b)) [] l).
Proof.
  induction l as [| x l IH]; simpl.
  - constructor.
  - now apply sort_insert_sorted.
Qed.

(** In exact arithmetic no difference is NaN: every array is sorted. *)
Lemma exact_Array_sort (l : list Q) :
  Limits.Array_sort (fun a b => sub a b) l
  = Some (fold_right (Limits.sort_insert (fun a b => sub a b)) [] l).
Proof.
  unfold Limits.Array_sort.
  replace (Limits.neverNaN (fun a b => sub a b) l) with true; [reflexivity |].
  symmetry. unfold Limits.neverNaN.
  apply forallb_forall. intros a _. apply forallb_forall. intros b _.
  cbn [eqb exact]. apply Qeq_bool_iff. reflexivity.
Qed.

(** In exact arithmetic [Math.floor(x)], read as an index, is the floor
    of [x]. *)
Lemma exact_floor_index (x : Q) : to_integer (Math_floor x) = Some (Qfloor x).
Proof.
  cbn [to_integer Math_floor exact]. unfold Exact.to_integer, Exact.Math_floor.
  rewrite Qfloor_Z.
  destruct (Qeq_bool (inject_Z (Qfloor x)) (inject_Z (Qfloor x))) eqn:E.
  - reflexivity.
  - exfalso. apply Qeq_bool_neq in E. apply E. reflexivity.
Qed.

(** [x || 0] is [x], up to the equality of rationals. *)
Lemma exact_or_zero (x : Q) : (if truthy x then x else of_Z 0) == x.
Proof.
  cbn [truthy of_Z exact]. unfold Exact.truthy.
  destruct (Qeq_bool x 0) eqn:E; simpl.
  - apply Qeq_bool_iff in E. rewrite E. reflexivity.
  - reflexivity.
Qed.

(** The capped Kelly fraction lies between 0 and one tenth. *)
Lemma exact_cap_bounds (k : Q) :
  0 <= Math_max (of_Z 0) (Math_min (of_decimal 1 1) k) <= 1 # 10.
Proof.
  cbn. unfold Exact.Math_max, Exact.Math_min.
  change (Exact.of_decimal 1 1) with (1 # 10). change (inject_Z 0) with 0.
  destruct (Qle_bool (1 # 10) k) eqn:E1.
  - destruct (Qle_bool 0 (1 # 10)) eqn:E2; [lra | discriminate].
  - destruct (Qle_bool 0 k) eqn:E2.
    + apply Qle_bool_iff in E2.
      assert (~ 1 # 10 <= k) by (rewrite <- Qle_bool_iff; congruence).
      lra.
    + lra.
Qed.

End ExactFacts.

Section Float64SortFacts.
Local Open Scope float_scope.

Lemma float64_gtb_sub (x y : float) :
  gtb (sub x y) (of_Z 0) = (y <? x).
Proof. exact (float64_sub_sign x y). Qed.

Lemma float64_sort_insert_sorted (x : float) (l : list float) :
  is_nan x = false ->
  Forall (fun y => is_nan y = false) l ->
  Sorted (fun a b => (a <=? b) = true) l ->
  Sorted (fun a b => (a <=? b) = true)
         (Limits.sort_insert (fun a b => sub a b) x l).
Proof.
  intros Hx Hl Hs. induction Hs as [| y l Hs IH Hhd].
  - repeat constructor.
  - rewrite sort_insert_cons, float64_gtb_sub.
    inversion Hl as [| y' l' Hy Hl' E]; subst.
    destruct (y <? x) eqn:E.
    + constructor; [exact (IH Hl') |].
      apply ltb_leb in E.
      destruct l as [| z l].
      * constructor. exact E.
      * rewrite sort_insert_cons.
        destruct (gtb (sub x z) (of_Z 0)); constructor; [| exact E].
        now inversion Hhd.
    + constructor; [now constructor |].
      constructor. now apply not_ltb_leb.
Qed.

(** On doubles that hold no NaN, the insertion by [(a, b) => a - b]
    ascends. *)
Lemma float64_sort_sorted (l : list float) :
  Forall (fun x => is_nan x = false) l ->
  Sorted (fun a b => (a <=? b) = true)
         (fold_right (Limits.sort_insert (fun a b => sub a b)) [] l).
Proof.
  induction 1 as [| x l Hx Hl IH]; simpl.
  - constructor.
  - apply float64_sort_insert_sorted; [exact Hx | | exact IH].
    eapply Permutation_Forall; [| exact Hl].
    symmetry. apply insertion_perm.
Qed.

(** A double is finite when it is a zero or has a mantissa. *)
Lemma is_finite_spec (x : float) :
  is_finite x = match Prim2SF x with
                | S754_zero _ | S754_finite _ _ _ => true
                | _ => false
                end.
Proof.
  unfold is_finite, is_infinity. rewrite is_nan_spec.
  rewrite FloatAxioms.eqb_spec, abs_spec.
  destruct (Prim2SF x) as [s | s | | s m e]; reflexivity.
Qed.

Lemma is_finite_not_nan (x : float) : is_finite x = true -> is_nan x = false.
Proof.
  rewrite is_finite_spec, is_nan_spec. destruct (Prim2SF x); congruence.
Qed.

(** The rounding of an integer is never NaN. *)
Lemma binary_normalize_not_nan (m e : Z) :
  binary_normalize prec emax m e false <> S754_nan.
Proof.
  destruct m as [| p | p]; cbn [binary_normalize]; [discriminate | |].
  - unfold binary_round. destruct (shl_align _ _ _) as [mz ez].
    pose proof (binary_round_aux_sign false (Zpos mz) ez loc_Exact
                  ltac:(lia)) as H.
    intros E. rewrite E in H. exact H.
  - unfold binary_round. destruct (shl_align _ _ _) as [mz ez].
    pose proof (binary_round_aux_sign true (Zpos mz) ez loc_Exact
                  ltac:(lia)) as H.
    intros E. rewrite E in H. exact H.
Qed.

(** The difference of two finite doubles is not NaN. *)
Lemma float64_sub_finite (x y : float) :
  is_finite x = true -> is_finite y = true -> is_nan (x - y) = false.
Proof.
  rewrite !is_finite_spec, is_nan_spec, sub_spec.
  destruct (Prim2SF x) as [sx | sx | | sx mx ex];
    destruct (Prim2SF y) as [sy | sy | | sy my ey];
    try discriminate; intros _ _; cbn [SFsub].
  - destruct sx, sy; reflexivity.
  - reflexivity.
  - reflexivity.
  - match goal with
    | |- match ?r with _ => _ end = false =>
        destruct r eqn:E; try reflexivity
    end.
    exfalso. revert E. apply binary_normalize_not_nan.
Qed.

(** An array of finite doubles is sorted by [(a, b) => a - b]. *)
Lemma float64_Array_sort (l : list float) :
  Forall (fun x => is_finite x = true) l ->
  Limits.Array_sort (fun a b => sub a b) l
  = Some (fold_right (Limits.sort_insert (fun a b => sub a b)) [] l).
Proof.
  intros Hl. unfold Limits.Array_sort.
  replace (Limits.neverNaN (fun a b => sub a b) l) with true; [reflexivity |].
  symmetry. unfold Limits.neverNaN. rewrite Forall_forall in Hl.
  apply forallb_forall. intros a Ha. apply forallb_forall. intros b Hb.
  pose proof (float64_sub_finite a b (Hl a Ha) (Hl b Hb)) as E.
  unfold is_nan in E. apply negb_false_iff in E. exact E.
Qed.

End Float64SortFacts.

(** C8 (as amended). The Kelly sizer returns exactly 0 when
    [avgLossAmount] or [winProbability] is 0, in every arithmetic.
    Otherwise, on doubles and unless the Kelly fraction is NaN, the
    result is the capital times a fraction between 0 and 0.1, and it is
    not negative when the capital is finite and not negative.  In exact
    arithmetic, for a capital that is not negative, the result is at
    least 0 and at most one tenth of the capital, whatever the
    probability and the average amounts are. *)
Theorem kelly_position_bounds :
  (forall (num : Type) (N : JsNumber num)
          (totalCapital winProbability avgWinAmount avgLossAmount : num),
     eqb avgLossAmount (of_Z 0) = true \/ eqb winProbability (of_Z 0) = true ->
     Limits.calculateKellyPositionSize
       totalCapital winProbability avgWinAmount avgLossAmount = of_Z 0)
  /\
  (forall totalCapital winProbability avgWinAmount avgLossAmount : float,
     eqb avgLossAmount (of_Z 0) = false ->
     eqb winProbability (of_Z 0) = false ->
     let kellyFraction :=
       div (sub (mul winProbability avgWinAmount)
                (mul (sub (of_Z 1) winProbability) avgLossAmount))
           avgLossAmount in
     let size := Limits.calculateKellyPositionSize
                   totalCapital winProbability avgWinAmount avgLossAmount in
     is_nan kellyFraction = false ->
     (exists fraction,
        size = mul totalCapital fraction
        /\ leb (of_Z 0) fraction = true
        /\ leb fraction (of_decimal 1 1) = true)
     /\ (leb (of_Z 0) totalCapital = true ->
         ltb totalCapital infinity = true ->
         leb (of_Z 0) size = true))
  /\
  (forall totalCapital winProbability avgWinAmount avgLossAmount : Q,
     (0 <= totalCapital)%Q ->
     let size := Limits.calculateKellyPositionSize
                   totalCapital winProbability avgWinAmount avgLossAmount in
     (0 <= size /\ size <= totalCapital * (1 # 10))%Q).
Proof.
  split; [| split].
  - intros num N total p win loss Hz. unfold Limits.calculateKellyPositionSize.
    destruct Hz as [-> | ->]; rewrite ?orb_true_r; reflexivity.
  - intros total p win loss Hloss Hp k size Hk. subst size.
    unfold Limits.calculateKellyPositionSize. rewrite Hloss, Hp.
    cbv zeta. simpl orb. cbv iota. fold k.
    destruct (float64_cap_bounds k Hk) as [Hlow Hhigh].
    split.
    + exists (Math_max (of_Z 0) (Math_min (of_decimal 1 1) k)).
      split; [reflexivity |]. split; [exact Hlow | exact Hhigh].
    + intros Hcap Hfin.
      apply float64_mul_nonneg; try assumption.
      apply (leb_ltb_infinity _ (F64.of_decimal 1 1) Hhigh). reflexivity.
  - intros total p win loss Ht size. subst size.
    unfold Limits.calculateKellyPositionSize.
    destruct (eqb loss (of_Z 0) || eqb p (of_Z 0)).
    + change (of_Z 0 : Q) with 0%Q. lra.
    + cbv zeta.
      pose proof (exact_cap_bounds
                    (div (sub (mul p win) (mul (sub (of_Z 1) p) loss)) loss))
        as B.
      set (cappedFraction := Math_max _ _) in *.
      change (mul total cappedFraction) with (total * cappedFraction)%Q.
      nra.
Qed.

(** The theorem at the capital and the edge of the unit test that
    expects the cap: 10000 of capital, nine wins in ten, 1000 a win and
    10 a loss. *)
Lemma kelly_position_bounds_witness :
  (0 <= Limits.calculateKellyPositionSize
          (10000 # 1) (9 # 10) (1000 # 1) (10 # 1)
   /\ Limits.calculateKellyPositionSize
        (10000 # 1) (9 # 10) (1000 # 1) (10 # 1)
      <= (10000 # 1) * (1 # 10))%Q.
Proof.
  exact (proj2 (proj2 kelly_position_bounds)
               (10000 # 1)%Q (9 # 10)%Q (1000 # 1)%Q (10 # 1)%Q
               ltac:(discriminate)).
Defined.

(** C8, as stated, fails for a negative capital: on doubles the sizer
    returns -10 for a capital of -100, a probability of one half, 3 a
    win and 1 a loss, and -10 is below 0. *)
Lemma kelly_negative_capital :
  Limits.calculateKellyPositionSize (num := float)
    (of_Z (-100)) (of_decimal 5 1) (of_Z 3) (of_Z 1) = of_Z (-10)
  /\ leb (of_Z 0) (of_Z (-10) : float) = false.
Proof. vm_compute. split; reflexivity. Qed.

Section VaRFacts.

(** What [calculateVaR] returns once the sample is sorted. *)
Lemma calculateVaR_sorted {num : Type} {N : JsNumber num}
    (returns sorted : list num) (confidenceLevel : num) :
  returns <> [] ->
  Limits.Array_sort (fun a b => sub a b) returns = Some sorted ->
  Limits.calculateVaR returns confidenceLevel
  = Some (match
            Limits.array_at sorted
              (Math_floor (mul (sub (of_Z 1) confidenceLevel)
                               (of_Z (Z.of_nat (List.length returns)))))
          with
          | Some x => if truthy x then x else of_Z 0
          | None => of_Z 0
          end).
Proof.
  intros Hne Hsort. unfold Limits.calculateVaR.
  destruct returns as [| r rs]; [congruence |].
  change (Nat.eqb (List.length (r :: rs)) 0) with false. cbv iota.
  rewrite Hsort. cbv zeta.
  destruct (Array_sort_Some _ _ _ Hsort) as (_ & _ & ->). reflexivity.
Qed.

(** The element an index names: the one at that place when the index
    is a place of the array, none otherwise. *)
Lemma array_at_spec {num : Type} {N : JsNumber num}
    (xs : list num) (index : num) (d : num) :
  (forall i, to_integer index = Some i ->
     (0 <= i < Z.of_nat (List.length xs))%Z ->
     Limits.array_at xs index = Some (nth (Z.to_nat i) xs d))
  /\ ((forall i, to_integer index = Some i ->
         ~ (0 <= i < Z.of_nat (List.length xs))%Z) ->
      Limits.array_at xs index = None).
Proof.
  unfold Limits.array_at, array_get. split.
  - intros i -> Hi. destruct (Z.ltb_spec i 0); [lia |].
    apply nth_error_nth'. lia.
  - intros Hout. destruct (to_integer index) as [i |]; [| reflexivity].
    specialize (Hout i eq_refl).
    destruct (Z.ltb_spec i 0); [reflexivity |].
    apply nth_error_None. lia.
Qed.

End VaRFacts.

(** C9 (as amended). Over a sample of finite returns that is not
    empty, [calculateVaR] sorts the sample ascending (the sorted
    sample is a rearrangement of the sample) and reads it at the index
    [Math.floor((1 - c) * n)], computed on doubles: the result [===]
    the element at that index when the index is a place of the sample,
    and is 0 when it is not.  In exact arithmetic the index is the
    floor of [(1 - c) * n] and the result is the element there.  The
    two indices differ: at [c = 0.9] and [n = 10] the doubles give 0,
    where the floor of [(1 - c) * n] is 1.  On doubles, at confidence
    0.95 over the sample of the unit test, the result is -0.10. *)
Theorem calculateVaR_indexed_element :
  (forall (returns : list float) (confidenceLevel : float),
     returns <> [] ->
     Forall (fun x => is_finite x = true) returns ->
     let n := Z.of_nat (List.length returns) in
     let index := Math_floor (mul (sub (of_Z 1) confidenceLevel) (of_Z n)) in
     exists sorted result,
       Limits.Array_sort (fun a b => sub a b) returns = Some sorted
       /\ Permutation sorted returns
       /\ Sorted (fun a b => leb a b = true) sorted
       /\ Limits.calculateVaR returns confidenceLevel = Some result
       /\ (forall i, to_integer index = Some i -> (0 <= i < n)%Z ->
             eqb result (nth (Z.to_nat i) sorted (of_Z 0)) = true)
       /\ ((forall i, to_integer index = Some i -> ~ (0 <= i < n)%Z) ->
           result = of_Z 0))
  /\
  (forall (returns : list Q) (confidenceLevel : Q),
     returns <> [] ->
     let n := Z.of_nat (List.length returns) in
     let i := Qfloor ((1 - confidenceLevel) * inject_Z n) in
     exists sorted result,
       Limits.Array_sort (fun a b => sub a b) returns = Some sorted
       /\ Permutation sorted returns
       /\ Sorted Qle sorted
       /\ Limits.calculateVaR returns confidenceLevel = Some result
       /\ ((0 <= i < n)%Z -> (result == nth (Z.to_nat i) sorted 0)%Q)
       /\ (~ (0 <= i < n)%Z -> result = 0%Q))
  /\
  (Math_floor (mul (sub (of_Z 1) (of_decimal 9 1)) (of_Z 10)) = (of_Z 0 : float)
   /\ Qfloor ((1 - (9 # 10)) * inject_Z 10) = 1%Z)
  /\
  Limits.calculateVaR (Fixtures.varSample : list float) (of_decimal 95 2)
  = Some (of_decimal (-10) 2).
Proof.
  split; [| split; [| split]].
  - intros returns c Hne Hfin n index.
    set (sorted := fold_right (Limits.sort_insert (fun a b => sub a b)) []
                     returns).
    assert (Hperm : Permutation sorted returns) by apply insertion_perm.
    assert (Hlen : List.length sorted = List.length returns)
      by now apply Permutation_length.
    assert (Hsort : Limits.Array_sort (fun a b => sub a b) returns
                    = Some sorted) by now apply float64_Array_sort.
    assert (Hnan : Forall (fun x => is_nan x = false) returns).
    { eapply Forall_impl; [| exact Hfin].
      intros x. apply is_finite_not_nan. }
    assert (Hnan' : Forall (fun x => is_nan x = false) sorted).
    { eapply Permutation_Forall; [symmetry; exact Hperm | exact Hnan]. }
    exists sorted. eexists.
    split; [exact Hsort |]. split; [exact Hperm |].
    split; [now apply float64_sort_sorted |].
    split; [exact (calculateVaR_sorted returns sorted c Hne Hsort) |].
    fold n. fold index.
    destruct (array_at_spec sorted index (of_Z 0)) as [Hin Hout].
    rewrite Hlen in Hin, Hout. fold n in Hin, Hout.
    split.
    + intros i Hi Hrange. rewrite (Hin i Hi Hrange).
      apply float64_or_zero.
      rewrite Forall_forall in Hnan'. apply Hnan'. apply nth_In. lia.
    + intros Hno. now rewrite (Hout Hno).
  - intros returns c Hne n i.
    set (sorted := fold_right (Limits.sort_insert (fun a b => sub a b)) []
                     returns).
    assert (Hperm : Permutation sorted returns) by apply insertion_perm.
    assert (Hlen : List.length sorted = List.length returns)
      by now apply Permutation_length.
    assert (Hsort : Limits.Array_sort (fun a b => sub a b) returns
                    = Some sorted) by apply exact_Array_sort.
    exists sorted. eexists.
    split; [exact Hsort |]. split; [exact Hperm |].
    split; [apply exact_sort_sorted |].
    split; [exact (calculateVaR_sorted returns sorted c Hne Hsort) |].
    fold n.
    destruct (array_at_spec sorted
                (Math_floor (mul (sub (of_Z 1) c) (of_Z n))) 0%Q)
      as [Hin Hout].
    rewrite Hlen in Hin, Hout. fold n in Hin, Hout.
    assert (Hidx : to_integer (Math_floor (mul (sub (of_Z 1) c) (of_Z n)))
                   = Some i) by apply exact_floor_index.
    split.
    + intros Hrange. rewrite (Hin i Hidx Hrange). apply exact_or_zero.
    + intros Hrange. rewrite Hout; [reflexivity |].
      intros j Hj. rewrite Hidx in Hj. now injection Hj as <-.
  - split; vm_compute; reflexivity.
  - vm_compute. reflexivity.
Qed.

(** The first part of the theorem at the sample of the unit test and
    confidence 0.5: the index is 5, and the result [===] the sixth
    least return of the sample, 0.04. *)
Lemma calculateVaR_indexed_element_witness :
  exists sorted result,
    Limits.Array_sort (fun a b => sub a b) (Fixtures.varSample : list float)
    = Some sorted
    /\ Limits.calculateVaR (Fixtures.varSample : list float) (of_decimal 5 1)
       = Some result
    /\ eqb result (nth 5 sorted (of_Z 0)) = true
    /\ nth 5 sorted (of_Z 0) = of_decimal 4 2.
Proof.
  destruct (proj1 calculateVaR_indexed_element
              Fixtures.varSample (of_decimal 5 1)
              ltac:(discriminate)
              ltac:(repeat constructor))
    as (sorted & result & Hs & _ & _ & Hv & Hin & _).
  exists sorted, result. split; [exact Hs |]. split; [exact Hv |].
  split.
  - apply (Hin 5%Z); [vm_compute; reflexivity | vm_compute; split; congruence].
  - vm_compute in Hs. injection Hs as <-. vm_compute. reflexivity.
Defined.

(** C9, as stated, fails where the doubles round the index down.  At
    confidence 0.9 over the returns 1 to 10, the floor of
    [(1 - c) * n] is 1 and the element there is 2, which is what exact
    arithmetic gives; on doubles [1 - 0.9] is below one tenth, the
    index is 0, and [calculateVaR] returns 1. *)
Lemma calculateVaR_rounds_the_index_down :
  let sample (num : Type) (N : JsNumber num) : list num :=
    map of_Z [1; 2; 3; 4; 5; 6; 7; 8; 9; 10]%Z in
  Qfloor ((1 - (9 # 10)) * inject_Z 10) = 1%Z
  /\ Limits.calculateVaR (sample Q exact) (of_decimal 9 1) = Some (of_Z 2)
  /\ Limits.calculateVaR (sample float float64) (of_decimal 9 1)
     = Some (of_Z 1)
  /\ eqb (of_Z 1 : float) (of_Z 2) = false.
Proof. vm_compute. repeat split. Qed.

(* ================================================================== *)
(** * Properties of the risk manager *)

Import Risk.

(** Unfolding of the monad's operations. *)
Ltac run_monad :=
  cbv beta iota zeta delta
    [bind ret try lift getS getL modify putL
     Date_now db_getDailyStats db_getRecentTrades db_recordRiskEvent] in *;
  cbn [fst snd limits state clockReads riskEvents] in *.

(** Case analysis on the innermost term the goal branches on. *)
Ltac destruct_scrutinee x :=
  lazymatch x with
  | context [match ?y with _ => _ end] => destruct_scrutinee y
  | _ => destruct x eqn:?
  end.

(** Rewriting with the boolean equations the case analysis left. *)
Ltac rewrite_bools :=
  repeat match goal with
         | H : ?b = true |- context [?b] => rewrite H
         | H : ?b = false |- context [?b] => rewrite H
         end.

Ltac split_match :=
  match goal with
  | |- context [match ?x with _ => _ end] => destruct_scrutinee x
  end;
  cbn [fst snd limits state clockReads riskEvents] in *.

Section RiskFacts.
Context {num : Type} {N : JsNumber num}.

(** ** The kill switch *)

Lemma canTrade_killed (env : Env num) (a e : num) (w : World num) :
  isKilled (state w) = true -> canTrade env a e w = (Return false, w).
Proof.
  intros Hk. unfold canTrade. run_monad. now rewrite Hk.
Qed.

Lemma after_keeps_killed (env : Env num) (c : Call num) (w : World num) :
  isReset c = false ->
  isKilled (state w) = true ->
  isKilled (state (after env c w)) = true.
Proof.
  intros Hc Hk. destruct c; try discriminate Hc; unfold after.
  - unfold initializeState, calculateConsecutiveLosses. run_monad.
    repeat split_match; simpl; auto.
  - unfold shouldStop, updateDailyPnl. run_monad.
    repeat split_match; simpl; auto.
  - now rewrite canTrade_killed.
  - unfold recordTrade, killSwitch. run_monad.
    repeat split_match; simpl; auto.
  - unfold killSwitch. run_monad. repeat split_match; simpl; auto.
  - unfold updateLimits. run_monad. simpl. auto.
  - auto.
  - auto.
  - unfold checkLimits, updateDailyPnl, killSwitch. run_monad.
    repeat split_match; simpl; auto.
  - auto.
  - unfold emergencyStop, killSwitch. run_monad.
    repeat split_match; simpl; auto.
Qed.

Lemma afterAll_keeps_killed
    (calls : list (Env num * Call num)) (w : World num) :
  forallb (fun p => negb (isReset (snd p))) calls = true ->
  isKilled (state w) = true ->
  isKilled (state (afterAll calls w)) = true.
Proof.
  revert w. induction calls as [| [env c] calls IH]; intros w Hall Hk.
  - exact Hk.
  - simpl in Hall. apply andb_true_iff in Hall as [Hc Hall].
    apply negb_true_iff in Hc. simpl. apply IH; [exact Hall |].
    now apply after_keeps_killed.
Qed.

Lemma resetKillSwitch_clears (env : Env num) (w : World num) :
  isKilled (state (after env CallResetKillSwitch w)) = false
  /\ killReason (state (after env CallResetKillSwitch w)) = None.
Proof.
  unfold after, resetKillSwitch. run_monad.
  destruct (recordRiskEvent env _); split; reflexivity.
Qed.

(** What [recordTrade] does to the daily PnL and to the kill switch,
    in the comparison the source writes. *)
Lemma recordTrade_daily_loss
    (env : Env num) (trade : Trade num) (w : World num) :
  let w' := snd (recordTrade env trade w) in
  let realized := add (dailyPnl (state w)) (actualProfitUsd trade) in
  dailyPnl (state w') = realized
  /\ (geb (neg realized) (maxDailyLossUsd (limits w)) = true ->
      isKilled (state w') = true
      /\ killReason (state w') = Some "Daily loss limit exceeded"%string)
  /\ (geb (neg realized) (maxDailyLossUsd (limits w)) = false ->
      isKilled (state w') = isKilled (state w)
      /\ killReason (state w') = killReason (state w)).
Proof.
  intros w' realized. subst w' realized.
  unfold recordTrade, killSwitch. run_monad.
  repeat split_match; simpl in *; repeat split; intros; try congruence.
Qed.

(** What [canTrade] does at its daily-loss guard, in the comparison the
    source writes. *)
Lemma canTrade_daily_loss
    (env : Env num) (a e : num) (w : World num) :
  isKilled (state w) = false ->
  gtb a (maxNotionalUsd (limits w)) = false ->
  let r := canTrade env a e w in
  let breach :=
    gtb (potentialDailyLoss (refreshedPnl env w) e)
        (maxDailyLossUsd (limits w)) in
  (breach = true ->
   isKilled (state (snd r)) = true
   /\ killReason (state (snd r))
      = Some "Daily loss limit would be exceeded"%string
   /\ (fst r = Return false \/ exists x, fst r = Throw x))
  /\ (breach = false -> isKilled (state (snd r)) = false).
Proof.
  intros Hk Hcap r breach. subst r breach.
  unfold canTrade, updateDailyPnl, updateTradeCount, killSwitch, refreshedPnl.
  run_monad. rewrite Hk, Hcap.
  repeat split_match; simpl in *; repeat split; intros; try congruence; eauto.
Qed.

(** ** The loss streak *)





Lemma forallb_rev {A : Type} (f : A -> bool) (l : list A) :
  forallb f (rev l) = forallb f l.
Proof.
  induction l as [| x l IH]; simpl; [reflexivity |].
  rewrite forallb_app, IH. simpl. rewrite andb_true_r. apply andb_comm.
Qed.

(** ** The pending initialization *)

Lemma run_app (events events' : list (Event num)) (m : Instance num) :
  run (events ++ events') m = run events' (run events m).
Proof. apply fold_left_app. Qed.

(** A sequence of [recordTrade] calls leaves the initialization where
    it stands. *)
Lemma run_records (calls : list (Env num * Trade num)) (m : Instance num) :
  world (run (records calls) m) = recordAll calls (world m)
  /\ initStage (run (records calls) m) = initStage m.
Proof.
  revert m. induction calls as [| [env t] calls IH]; intros m.
  - split; reflexivity.
  - destruct (IH (step m (Invoke env (CallRecordTrade t)))) as [Hw Hs].
    split; [exact Hw | exact Hs].
Qed.

(** The two continuations of the initialization, one after the other
    on the new object, leave what [initializeState] leaves when it runs
    in one go; and the initialization is then over. *)
Lemma initialization_in_one_go (env : Env num) (config : Config num) :
  let m := run [InitResumes env; InitResumes env] (construct env config) in
  world m = snd (initializeState env (constructed config))
  /\ initStage m = Settled.
Proof.
  unfold run, construct, initializeState, calculateConsecutiveLosses.
  cbn [fold_left step world initStage]. unfold initResume.
  run_monad.
  destruct (getDailyStats env) as [stats | e]; cbn; [| split; reflexivity].
  destruct (getRecentTrades env 10) as [trades | e]; cbn; split; reflexivity.
Qed.





(** ** What a rejected [canTrade] leaves behind *)

Lemma canTrade_rejected
    (env : Env num) (amountUsd expectedProfitUsd : num) (w : World num) :
  let r := canTrade env amountUsd expectedProfitUsd w in
  let refreshed := snd (updateDailyPnl env w) in
  (isKilled (state w) = false ->
   gtb amountUsd (maxNotionalUsd (limits w)) = true ->
   r = (Return false, w))
  /\
  (isKilled (state w) = false ->
   gtb amountUsd (maxNotionalUsd (limits w)) = false ->
   gtb (potentialDailyLoss (refreshedPnl env w) expectedProfitUsd)
       (maxDailyLossUsd (limits w)) = false ->
   geb (of_Z (Z.of_nat (consecutiveLosses (state w))))
       (maxConsecutiveLosses (limits w)) = true ->
   r = (Return false, refreshed))
  /\
  (isKilled (state w) = false ->
   gtb amountUsd (maxNotionalUsd (limits w)) = false ->
   gtb (potentialDailyLoss (refreshedPnl env w) expectedProfitUsd)
       (maxDailyLossUsd (limits w)) = false ->
   fst r = Return (negb (streakGuard w || cooldownGuard env w
                         || spacingGuard env w || hourlyGuard env w))
   /\ isKilled (state (snd r)) = false)
  /\
  (isKilled (state w) = false ->
   gtb amountUsd (maxNotionalUsd (limits w)) = false ->
   fst r = Return false ->
   isKilled (state (snd r)) = false ->
   limits (snd r) = limits w
   /\ riskEvents (snd r) = riskEvents w
   /\ killReason (state (snd r)) = killReason (state w)
   /\ consecutiveLosses (state (snd r)) = consecutiveLosses (state w)
   /\ lastTradeTime (state (snd r)) = lastTradeTime (state w)
   /\ lastLossTime (state (snd r)) = lastLossTime (state w)
   /\ dailyPnl (state (snd r)) = refreshedPnl env w
   /\ (tradesInLastHour (state (snd r)) = tradesInLastHour (state w)
       \/ exists now recentTrades,
            getRecentTrades env 1000 = Return recentTrades
            /\ tradesInLastHour (state (snd r))
               = countLastHour now recentTrades)).
Proof.
  intros r refreshed. subst r refreshed.
  unfold canTrade, updateDailyPnl, updateTradeCount, killSwitch,
    refreshedPnl, countLastHour.
  run_monad.
  split; [| split; [| split]].
  - intros -> ->. reflexivity.
  - intros -> -> H3 H4.
    destruct (getDailyStats env);
      cbn [fst snd limits state clockReads riskEvents isKilled dailyPnl
           consecutiveLosses set_dailyPnl] in *;
      rewrite H3, H4; reflexivity.
  - intros Hk Hcap H3.
    unfold streakGuard, cooldownGuard, spacingGuard, hourlyGuard,
      refreshedTradeCount, readsBeforeCount, readsBeforeSpacing,
      countLastHour.
    rewrite Hk. cbv beta iota. rewrite Hcap. cbv beta iota.
    destruct (getDailyStats env);
      cbn [fst snd limits state clockReads riskEvents isKilled dailyPnl
           consecutiveLosses lastLossTime lastTradeTime tradesInLastHour
           set_dailyPnl] in *;
      rewrite H3;
      destruct (geb _ (maxConsecutiveLosses _)); simpl orb;
        [split; [reflexivity | exact Hk] | | split; [reflexivity | exact Hk] |].
    all: destruct (lastLossTime (state w)) as [lossTime |];
      destruct (lastTradeTime (state w)) as [tradeTime |];
      rewrite ?Nat.add_0_r, ?Nat.add_1_r;
      repeat split_match; simpl in *; rewrite_bools; simpl;
      split; congruence.
  - intros -> ->.
    repeat split_match; cbn; intros Hr Hk; try discriminate;
      repeat split; eauto.
Qed.

End RiskFacts.

(** C10. [resetDailyCounters] returns, sets [dailyPnl] to 0,
    [consecutiveLosses] to 0 and [lastLossTime] to null, and leaves
    [isKilled], [killReason], [lastTradeTime], [tradesInLastHour] and
    the limits as they were; so a manager that is killed is killed
    after the daily reset, stays killed through every later call that
    is not [resetKillSwitch], and [canTrade] keeps returning false. *)
Theorem resetDailyCounters_frame
    (num : Type) (N : JsNumber num) (w : World num) :
  let r := resetDailyCounters w in
  fst r = Return tt
  /\ dailyPnl (state (snd r)) = of_Z 0
  /\ consecutiveLosses (state (snd r)) = 0
  /\ lastLossTime (state (snd r)) = None
  /\ isKilled (state (snd r)) = isKilled (state w)
  /\ killReason (state (snd r)) = killReason (state w)
  /\ lastTradeTime (state (snd r)) = lastTradeTime (state w)
  /\ tradesInLastHour (state (snd r)) = tradesInLastHour (state w)
  /\ limits (snd r) = limits w
  /\ (isKilled (state w) = true ->
      forall (calls : list (Env num * Call num)),
        forallb (fun p => negb (isReset (snd p))) calls = true ->
        let w' := afterAll calls (snd r) in
        isKilled (state w') = true
        /\ forall env amountUsd expectedProfitUsd,
             canTrade env amountUsd expectedProfitUsd w'
             = (Return false, w')).
Proof.
  intros r. subst r. do 9 (split; [reflexivity |]).
  intros Hk calls Hcalls w'.
  assert (Hk' : isKilled (state w') = true).
  { subst w'. apply afterAll_keeps_killed; [exact Hcalls | exact Hk]. }
  split; [exact Hk' |].
  intros env a e. now apply canTrade_killed.
Qed.

(** The theorem on doubles for the killed manager of the tests: after
    the daily reset it is still killed and [canTrade(100, 2)] returns
    false. *)
Lemma resetDailyCounters_frame_witness :
  let w' := snd (resetDailyCounters (Fixtures.killed (num := float))) in
  isKilled (state w') = true
  /\ fst (canTrade (Fixtures.mockEnv (of_Z 0)) (of_Z 100) (of_Z 2) w')
     = Return false.
Proof.
  pose proof (resetDailyCounters_frame float float64 Fixtures.killed) as H.
  cbv zeta in H.
  destruct H as (_ & _ & _ & _ & _ & _ & _ & _ & _ & H).
  specialize (H eq_refl [] eq_refl). cbv zeta in H. destruct H as [Hk Hc].
  split; [exact Hk |].
  exact (f_equal fst (Hc (Fixtures.mockEnv (of_Z 0)) (of_Z 100) (of_Z 2))).
Defined.

(** C2. Once [isKilled] is true it stays true through every sequence
    of calls that holds no [resetKillSwitch], and each [canTrade] then
    returns false, whatever its arguments, and changes nothing;
    [resetKillSwitch] clears the flag and the reason; and on doubles,
    with a ceiling of 100, recording an outcome of -100 on a new
    manager sets [isKilled] with the reason "Daily loss limit
    exceeded", after which [canTrade] returns false. *)
Theorem kill_switch_latches :
  (forall (num : Type) (N : JsNumber num) (w : World num)
          (calls : list (Env num * Call num)),
     isKilled (state w) = true ->
     forallb (fun p => negb (isReset (snd p))) calls = true ->
     let w' := afterAll calls w in
     isKilled (state w') = true
     /\ forall env amountUsd expectedProfitUsd,
          canTrade env amountUsd expectedProfitUsd w' = (Return false, w'))
  /\
  (forall (num : Type) (N : JsNumber num) (env : Env num) (w : World num),
     isKilled (state (after env CallResetKillSwitch w)) = false
     /\ killReason (state (after env CallResetKillSwitch w)) = None)
  /\
  (forall (env : Env float) (config : Config float) (trade : Trade float),
     MAX_DAILY_LOSS_USD config = of_Z 100 ->
     actualProfitUsd trade = of_Z (-100) ->
     let w' := after env (CallRecordTrade trade) (constructed config) in
     isKilled (state w') = true
     /\ killReason (state w') = Some "Daily loss limit exceeded"%string
     /\ forall env' amountUsd expectedProfitUsd,
          canTrade env' amountUsd expectedProfitUsd w' = (Return false, w')).
Proof.
  split; [| split].
  - intros num N w calls Hk Hcalls w'.
    assert (Hk' : isKilled (state w') = true).
    { subst w'. now apply afterAll_keeps_killed. }
    split; [exact Hk' |]. intros env a e. now apply canTrade_killed.
  - intros num N env w. apply resetKillSwitch_clears.
  - intros env config trade Hmax Hprofit w'. subst w'. unfold after.
    destruct (recordTrade_daily_loss env trade (constructed config))
      as (_ & Hkill & _).
    cbv zeta in Hkill.
    cbn [constructed limits state dailyPnl maxDailyLossUsd] in Hkill.
    rewrite Hmax, Hprofit in Hkill.
    destruct (Hkill eq_refl) as [Hk Hreason].
    split; [exact Hk |]. split; [exact Hreason |].
    intros env' a e. now apply canTrade_killed.
Qed.

(** The theorem on doubles: the killed manager of the tests stays
    killed through a recorded gain, a daily reset and a refused
    [canTrade], and [canTrade(100, 10)] then returns false. *)
Lemma kill_switch_latches_witness :
  let w' :=
    afterAll
      [ (Fixtures.mockEnv (of_Z 0),
         CallRecordTrade (Fixtures.mockTrade (of_Z 10)));
        (Fixtures.mockEnv (of_Z 0), CallResetDailyCounters);
        (Fixtures.mockEnv (of_Z 0), CallCanTrade (of_Z 50) (of_Z 2)) ]
      (Fixtures.killed (num := float)) in
  isKilled (state w') = true
  /\ fst (canTrade (Fixtures.mockEnv (of_Z 0)) (of_Z 100) (of_Z 10) w')
     = Return false.
Proof.
  pose proof
    (proj1 kill_switch_latches float float64 Fixtures.killed
       [ (Fixtures.mockEnv (of_Z 0),
          CallRecordTrade (Fixtures.mockTrade (of_Z 10)));
         (Fixtures.mockEnv (of_Z 0), CallResetDailyCounters);
         (Fixtures.mockEnv (of_Z 0), CallCanTrade (of_Z 50) (of_Z 2)) ]
       eq_refl eq_refl) as H.
  cbv zeta in H. destruct H as [Hk Hc].
  split; [exact Hk |].
  exact (f_equal fst (Hc (Fixtures.mockEnv (of_Z 0)) (of_Z 100) (of_Z 10))).
Defined.







(** C1 (as amended), on doubles.  [recordTrade] adds the outcome to
    [dailyPnl] and sets [isKilled] whenever the sum is at or below
    [-maxDailyLossUsd]; it leaves the flag alone otherwise.
    [canTrade], when the manager is not killed, the notional is within
    its cap and the ceiling is not negative, sets [isKilled] in the
    call itself exactly when the refreshed [dailyPnl] plus
    [expectedProfitUsd] is strictly below [-maxDailyLossUsd]; the call
    then returns false, or raises when the kill event cannot be
    written. *)
Theorem daily_loss_kill_thresholds :
  (forall (env : Env float) (trade : Trade float) (w : World float),
     let w' := snd (recordTrade env trade w) in
     let realized := add (dailyPnl (state w)) (actualProfitUsd trade) in
     let ceiling := maxDailyLossUsd (limits w) in
     dailyPnl (state w') = realized
     /\ (leb realized (neg ceiling) = true ->
         isKilled (state w') = true
         /\ killReason (state w') = Some "Daily loss limit exceeded"%string)
     /\ (leb realized (neg ceiling) = false ->
         isKilled (state w') = isKilled (state w)
         /\ killReason (state w') = killReason (state w)))
  /\
  (forall (env : Env float) (amountUsd expectedProfitUsd : float)
          (w : World float),
     isKilled (state w) = false ->
     gtb amountUsd (maxNotionalUsd (limits w)) = false ->
     leb (of_Z 0) (maxDailyLossUsd (limits w)) = true ->
     let r := canTrade env amountUsd expectedProfitUsd w in
     let projected := add (refreshedPnl env w) expectedProfitUsd in
     let ceiling := maxDailyLossUsd (limits w) in
     (ltb projected (neg ceiling) = true ->
      isKilled (state (snd r)) = true
      /\ killReason (state (snd r))
         = Some "Daily loss limit would be exceeded"%string
      /\ (fst r = Return false \/ exists e, fst r = Throw e))
     /\ (ltb projected (neg ceiling) = false ->
         isKilled (state (snd r)) = false)).
Proof.
  split.
  - intros env trade w w' realized ceiling. subst w' realized ceiling.
    rewrite <- float64_realized_breach.
    apply recordTrade_daily_loss.
  - intros env a e w Hk Hcap Hceil r projected ceiling.
    subst r projected ceiling.
    rewrite <- (float64_projected_breach _ _ _ Hceil).
    now apply canTrade_daily_loss.
Qed.

(** The theorem at the test "should block trades that would exceed
    daily loss limit": the database reports -90, the trade expects
    -15, the ceiling is 100; the call kills the manager and returns
    false. *)
Lemma daily_loss_kill_thresholds_witness :
  let r :=
    canTrade (Fixtures.mockEnv (of_Z (-90))) (of_Z 100) (of_Z (-15))
      (constructed (num := float) Fixtures.mockConfig) in
  isKilled (state (snd r)) = true
  /\ killReason (state (snd r))
     = Some "Daily loss limit would be exceeded"%string
  /\ (fst r = Return false \/ exists e, fst r = Throw e).
Proof.
  exact (proj1 (proj2 daily_loss_kill_thresholds
                  (Fixtures.mockEnv (of_Z (-90))) (of_Z 100) (of_Z (-15))
                  (constructed Fixtures.mockConfig)
                  eq_refl eq_refl eq_refl)
               eq_refl).
Defined.

(** C1, as stated, fails at the ceiling itself.  The database reports
    -90, the trade expects -10 and the ceiling is 100: the projected
    daily PnL is at -100, which is at or below the negated ceiling, and
    [canTrade] returns true and does not kill. *)
Lemma canTrade_at_the_ceiling_is_allowed :
  let w := constructed (num := float) Fixtures.mockConfig in
  let env := Fixtures.mockEnv (of_Z (-90)) in
  let r := canTrade env (of_Z 100) (of_Z (-10)) w in
  leb (add (refreshedPnl env w) (of_Z (-10)))
      (neg (maxDailyLossUsd (limits w))) = true
  /\ fst r = Return true
  /\ isKilled (state (snd r)) = false.
Proof. vm_compute. repeat split. Qed.

(* ================================================================== *)
(** * Further properties of the embedded code *)

(** The properties below, numbered X1 onwards, are read off the code of
    the functions that surround the ones treated above. *)

(** ** The size search and the swap simulation *)

Section SearchFacts.
Local Open Scope Z_scope.

(** A swap at the default fee of an amount and reserves that are not
    negative returns an amount that is not negative, and 0 for 0. *)
Lemma getAmountOut_nonneg (amountIn reserveIn reserveOut : Z) :
  0 <= amountIn -> 0 <= reserveIn -> 0 <= reserveOut ->
  exists out,
    Amm.getAmountOut (num := float)
      amountIn reserveIn reserveOut Amm.default_feeBps
    = Return out
    /\ 0 <= out /\ (amountIn = 0 -> out = 0)
    /\ (0 < reserveOut -> out < reserveOut).
Proof.
  intros Ha Hi Ho.
  destruct (Z.eq_dec amountIn 0) as [-> | Na].
  { exists 0. repeat split; try lia. }
  destruct (Z.eq_dec reserveIn 0) as [-> | Ni].
  { exists 0. repeat split; try lia.
    unfold Amm.getAmountOut. now rewrite zero_guard_true by auto. }
  destruct (Z.eq_dec reserveOut 0) as [-> | No].
  { exists 0. repeat split; try lia.
    unfold Amm.getAmountOut. now rewrite zero_guard_true by auto. }
  eexists. split; [| split; [| split]].
  - apply (getAmountOut_positive _ _ _ 30); lia.
  - apply Z.div_pos; nia.
  - lia.
  - intros _. apply Z.div_lt_upper_bound; nia.
Qed.





End SearchFacts.

Section ConnectorFacts.
Local Open Scope Z_scope.

(** X3. [simulateSwap] never raises: it resolves to [null] when the
    reserves cannot be read, whether the reading resolves to [null] or
    rejects, and when the swap arithmetic raises; and for an input and
    reserves that are not negative it resolves to the output of
    [getAmountOut] at the default fee, which is not negative and stays
    below a positive reserve. *)
Theorem simulateSwap_never_raises
    (getReserves : completion (option Connector.Reserves)) (amountIn : Z) :
  exists result,
    Connector.simulateSwap (num := float) getReserves amountIn = Return result
    /\ (forall e, getReserves = Throw e -> result = None)
    /\ (getReserves = Return None -> result = None)
    /\ (forall reserves,
          getReserves = Return (Some reserves) ->
          (forall e,
             Amm.getAmountOut (num := float)
               amountIn (Connector.reserve0 reserves)
               (Connector.reserve1 reserves) Amm.default_feeBps = Throw e ->
             result = None)
          /\ (0 <= amountIn -> 0 <= Connector.reserve0 reserves ->
              0 <= Connector.reserve1 reserves ->
              exists amountOut,
                result = Some amountOut
                /\ Amm.getAmountOut (num := float)
                     amountIn (Connector.reserve0 reserves)
                     (Connector.reserve1 reserves) Amm.default_feeBps
                   = Return amountOut
                /\ 0 <= amountOut
                /\ (0 < Connector.reserve1 reserves ->
                    amountOut < Connector.reserve1 reserves))).
Proof.
  unfold Connector.simulateSwap.
  destruct getReserves as [[reserves |] | e]; cbn [bindc try_catch].
  - destruct (Amm.getAmountOut (num := float)
                amountIn _ _ _) as [out | e] eqn:E;
      cbn [bindc try_catch]; eexists; (split; [reflexivity |]);
      (split; [discriminate |]); (split; [discriminate |]);
      intros r [= <-]; rewrite E.
    + split; [discriminate |]. intros Ha H0 H1.
      destruct (getAmountOut_nonneg amountIn _ _ Ha H0 H1)
        as (out' & E' & P & _ & L).
      rewrite E in E'. injection E' as <-.
      exists out. repeat split; assumption.
    + split; [reflexivity |]. intros Ha H0 H1.
      destruct (getAmountOut_nonneg amountIn _ _ Ha H0 H1)
        as (out' & E' & _).
      rewrite E in E'. discriminate E'.
  - eexists. split; [reflexivity |].
    repeat split; try reflexivity; discriminate.
  - eexists. split; [reflexivity |].
    repeat split; try reflexivity; discriminate.
Qed.

End ConnectorFacts.

(** The theorem at the pool of the unit tests and an input of 1 ETH. *)
Lemma simulateSwap_never_raises_witness :
  exists result amountOut,
    Connector.simulateSwap (num := float)
      (Return (Some {| Connector.reserve0 := 100 * 10 ^ 18;
                       Connector.reserve1 := 200000 * 10 ^ 6;
                       Connector.blockTimestampLast := 0 |}))
      (10 ^ 18) = Return result
    /\ result = Some amountOut
    /\ (0 <= amountOut < 200000 * 10 ^ 6)%Z.
Proof.
  destruct (simulateSwap_never_raises
              (Return (Some {| Connector.reserve0 := 100 * 10 ^ 18;
                               Connector.reserve1 := 200000 * 10 ^ 6;
                               Connector.blockTimestampLast := 0 |}))
              (10 ^ 18)) as (result & E & _ & _ & H).
  destruct (H _ eq_refl) as [_ H2].
  destruct (H2 ltac:(vm_compute; discriminate)
               ltac:(vm_compute; discriminate)
               ltac:(vm_compute; discriminate))
    as (out & Er & _ & P & L).
  exists result, out. split; [exact E | split; [exact Er | split]].
  - exact P.
  - apply L. vm_compute. reflexivity.
Defined.

(** ** More facts about binary64 *)

Section Float64Algebra.
Local Open Scope float_scope.

Lemma SFadd_comm (x y : spec_float) :
  SFadd prec emax x y = SFadd prec emax y x.
Proof.
  destruct x as [sx | sx | | sx mx ex], y as [sy | sy | | sy my ey];
    try destruct sx; try destruct sy; try reflexivity.
  all: unfold SFadd; cbv zeta; rewrite (Z.min_comm ey ex); f_equal;
    apply Z.add_comm.
Qed.

Lemma float64_add_comm (x y : float) : x + y = y + x.
Proof.
  apply Prim2SF_inj. rewrite !add_spec. apply SFadd_comm.
Qed.

(** The magnitude of a rounded number does not depend on its sign. *)
Lemma SFabs_binary_round (s : bool) (m : positive) (e : Z) :
  SFabs (binary_round prec emax s m e)
  = SFabs (binary_round prec emax false m e).
Proof.
  unfold binary_round. destruct (shl_align _ _ _) as [mz ez].
  unfold binary_round_aux.
  destruct (shr_fexp _ _ _ _ _) as [mrs' e'].
  destruct (shr_fexp _ _ _ _ _) as [mrs'' e''].
  destruct (shr_m mrs''); try reflexivity.
  destruct (_ <=? _)%Z; reflexivity.
Qed.

Lemma SFabs_binary_normalize_opp (m e : Z) :
  SFabs (binary_normalize prec emax (- m) e false)
  = SFabs (binary_normalize prec emax m e false).
Proof.
  destruct m as [| p | p]; simpl; try reflexivity.
  - apply SFabs_binary_round.
  - symmetry. apply SFabs_binary_round.
Qed.

Lemma SFabs_sub_swap (x y : spec_float) :
  SFabs (SFsub prec emax x y) = SFabs (SFsub prec emax y x).
Proof.
  destruct x as [sx | sx | | sx mx ex], y as [sy | sy | | sy my ey];
    try destruct sx; try destruct sy; try reflexivity.
  all: unfold SFsub; cbv zeta; rewrite (Z.min_comm ey ex);
    rewrite <- SFabs_binary_normalize_opp; f_equal; f_equal; lia.
Qed.

(** [|x - y|] and [|y - x|] are the same double. *)
Lemma float64_abs_sub_swap (x y : float) : abs (x - y) = abs (y - x).
Proof.
  apply Prim2SF_inj. rewrite !abs_spec, !sub_spec. apply SFabs_sub_swap.
Qed.

(** A magnitude times ten thousand is not negative. *)
Lemma float64_abs_scaled_nonneg (x : float) :
  is_nan x = false -> (0 <=? abs x * F64.of_Z 10000) = true.
Proof.
  rewrite is_nan_spec, leb_spec, mul_spec, abs_spec.
  change (Prim2SF 0) with (S754_zero false).
  replace (Prim2SF (F64.of_Z 10000))
    with (S754_finite false 5497558138880000 (-39))
    by (symmetry; vm_compute; reflexivity).
  destruct (Prim2SF x) as [s | s | | s m e]; try discriminate; intros _;
    try reflexivity.
  unfold SFabs, SF64mul, SFmul. simpl xorb.
  pose proof (binary_round_aux_sign false
                (Zpos (m * 5497558138880000)) (e + -39) loc_Exact
                ltac:(lia)) as S.
  destruct (binary_round_aux _ _ _ _ _ _) as [s' | s' | | s' m' e'];
    try contradiction; subst; reflexivity.
Qed.

End Float64Algebra.

Section Float64Nan.
Local Open Scope float_scope.

Lemma is_nan_eq (x : float) : is_nan x = true -> x = nan.
Proof.
  rewrite is_nan_spec. intros H. apply Prim2SF_inj.
  change (Prim2SF nan) with S754_nan.
  destruct (Prim2SF x); try discriminate; reflexivity.
Qed.

Lemma float64_mul_nan_l (y : float) : nan * y = nan.
Proof.
  apply Prim2SF_inj. rewrite mul_spec. reflexivity.
Qed.

Lemma float64_mul_nan_r (x : float) : x * nan = nan.
Proof.
  apply Prim2SF_inj. rewrite mul_spec. change (Prim2SF nan) with S754_nan.
  destruct (Prim2SF x) as [s | s | | s m e]; reflexivity.
Qed.

Lemma float64_add_nan_l (y : float) : nan + y = nan.
Proof.
  apply Prim2SF_inj. rewrite add_spec. reflexivity.
Qed.

Lemma float64_add_nan_r (x : float) : x + nan = nan.
Proof.
  apply Prim2SF_inj. rewrite add_spec. change (Prim2SF nan) with S754_nan.
  destruct (Prim2SF x) as [s | s | | s m e]; reflexivity.
Qed.

Lemma float64_div_nan_r (x : float) : x / nan = nan.
Proof.
  apply Prim2SF_inj. rewrite div_spec. change (Prim2SF nan) with S754_nan.
  destruct (Prim2SF x) as [s | s | | s m e]; reflexivity.
Qed.

(** [0 < x] says that [x <= 0] fails and [x] is not NaN. *)
Lemma float64_pos_iff (x : float) :
  (0 <? x) = true <-> (x <=? 0) = false /\ is_nan x = false.
Proof.
  rewrite is_nan_spec, ltb_spec, leb_spec.
  change (Prim2SF 0) with (S754_zero false).
  destruct (Prim2SF x) as [s | s | | s m e]; try destruct s;
    unfold SFltb, SFleb; simpl; intuition congruence.
Qed.

End Float64Nan.

(** ** Spreads *)

Section SpreadFacts.
Local Open Scope float_scope.

(** X4. On doubles, the spread between two prices does not depend on the
    order in which they are given; and the triangular spread is not
    negative unless it is NaN, which it is only when [1 - A * B * C]
    is. *)
Theorem calculateSpreadBps_symmetric :
  (forall priceA priceB : float,
     Pricing.calculateSpreadBps priceA priceB None
     = Pricing.calculateSpreadBps priceB priceA None)
  /\
  (forall priceA priceB priceC : float,
     is_nan (sub (of_Z 1) (mul (mul priceA priceB) priceC)) = false ->
     leb (of_Z 0) (Pricing.calculateSpreadBps priceA priceB (Some priceC))
     = true).
Proof.
  split.
  - intros a b. unfold Pricing.calculateSpreadBps.
    cbn [add sub div mul Math_abs of_Z float64].
    now rewrite (float64_abs_sub_swap a b), (float64_add_comm a b).
  - intros a b c Hnan. unfold Pricing.calculateSpreadBps.
    exact (float64_abs_scaled_nonneg _ Hnan).
Qed.

End SpreadFacts.

(** The second part at the prices 2.0, 0.5 and 1.01 of the unit test. *)
Lemma calculateSpreadBps_symmetric_witness :
  leb (of_Z 0)
      (Pricing.calculateSpreadBps (num := float)
         (of_decimal 20 1) (of_decimal 5 1) (Some (of_decimal 101 2)))
  = true.
Proof.
  exact (proj2 calculateSpreadBps_symmetric
               (of_decimal 20 1) (of_decimal 5 1) (of_decimal 101 2)
               eq_refl).
Defined.

(** ** Gas estimates, trends and dynamic prices *)

Section GasEstimateFacts.
Context {num : Type} {N : JsNumber num}.
Local Open Scope Z_scope.

Lemma bigint_or_nonzero (x : option Z) (d : Z) :
  d <> 0 -> Gas.bigint_or x d <> 0.
Proof.
  intros Hd. unfold Gas.bigint_or.
  destruct x as [v |]; [| exact Hd].
  destruct (Z.eqb_spec v 0); assumption.
Qed.

(** Whatever the provider does and whatever the price and multiplier
    are, the estimate returned has a cost in wei that is its gas limit
    times its fee per gas, and neither fee is 0. *)
Lemma estimateArbitrageGas_invariant
    (provider : Gas.JsonRpcProvider) (ethPriceUsd multiplier : num) :
  exists estimate,
    Gas.estimateArbitrageGas provider ethPriceUsd multiplier
    = Return estimate
    /\ Gas.estimatedCostWei estimate
       = Gas.gasLimit estimate * Gas.maxFeePerGas estimate
    /\ Gas.maxFeePerGas estimate <> 0
    /\ Gas.maxPriorityFeePerGas estimate <> 0.
Proof.
  assert (Fallback :
    Gas.estimatedCostWei (Gas.fallbackEstimate (num := num))
    = Gas.gasLimit (Gas.fallbackEstimate (num := num))
      * Gas.maxFeePerGas (Gas.fallbackEstimate (num := num))
    /\ Gas.maxFeePerGas (Gas.fallbackEstimate (num := num)) <> 0
    /\ Gas.maxPriorityFeePerGas (Gas.fallbackEstimate (num := num)) <> 0).
  { cbn [Gas.fallbackEstimate Gas.estimatedCostWei Gas.gasLimit
         Gas.maxFeePerGas Gas.maxPriorityFeePerGas].
    repeat split; vm_compute; (reflexivity || discriminate). }
  unfold Gas.estimateArbitrageGas.
  destruct (Gas.getFeeData provider) as [feeData | e];
    cbn [bindc try_catch].
  - destruct (BigInt _) as [gasLimit | e]; cbn [bindc try_catch];
      [| eexists; split; [reflexivity | exact Fallback]].
    destruct (Gas.formatUnits _ _) as [estimatedCostEth | e];
      cbn [bindc try_catch];
      [| eexists; split; [reflexivity | exact Fallback]].
    eexists. split; [reflexivity |].
    cbn [Gas.estimatedCostWei Gas.gasLimit Gas.maxFeePerGas
         Gas.maxPriorityFeePerGas].
    repeat split; apply bigint_or_nonzero; vm_compute; discriminate.
  - eexists. split; [reflexivity | exact Fallback].
Qed.

(** [formatUnits] raises exactly outside the range of ethers' numbers. *)
Lemma formatUnits_spec (value : Z) (decimals : nat) :
  (- 2 ^ 511 < value < 2 ^ 511 ->
   Gas.formatUnits value decimals = Return (of_decimal value decimals))
  /\ (~ - 2 ^ 511 < value < 2 ^ 511 ->
      Gas.formatUnits value decimals = Throw (RangeError "overflow")).
Proof.
  unfold Gas.formatUnits.
  destruct (Z.leb_spec value (- 2 ^ 511));
    destruct (Z.leb_spec (2 ^ 511) value); cbn [orb];
    split; intros; first [reflexivity | lia].
Qed.

End GasEstimateFacts.

Section GasMultiplierFacts.

(** X6. Whatever the provider does and in any arithmetic,
    [estimateArbitrageGas] returns an estimate whose cost in wei is its
    gas limit times its fee per gas, the fallback included, and whose
    fees are not 0.  On doubles, with the default multiplier 1.1 and a
    provider that answers, the gas limit is 385000 (30 gwei a unit of
    gas when the provider reports no fee) as long as the cost in wei
    fits the 512 bits of the number ethers formats, and the estimate
    is the fallback when it does not; and a multiplier that is NaN
    makes the estimate the fallback, although the provider answered. *)
Theorem estimateArbitrageGas_cost_and_limit :
  (forall (num : Type) (N : JsNumber num)
          (provider : Gas.JsonRpcProvider) (ethPriceUsd multiplier : num),
   exists estimate,
     Gas.estimateArbitrageGas provider ethPriceUsd multiplier
     = Return estimate
     /\ Gas.estimatedCostWei estimate
        = (Gas.gasLimit estimate * Gas.maxFeePerGas estimate)%Z
     /\ Gas.maxFeePerGas estimate <> 0%Z
     /\ Gas.maxPriorityFeePerGas estimate <> 0%Z)
  /\
  (forall (provider : Gas.JsonRpcProvider) (feeData : Gas.FeeData)
          (ethPriceUsd : float),
     Gas.getFeeData provider = Return feeData ->
     let fee := Gas.bigint_or (Gas.feeData_maxFeePerGas feeData)
                  (30 * 10 ^ 9) in
     let estimate :=
       Gas.estimateArbitrageGas provider ethPriceUsd Gas.default_multiplier in
     ((- 2 ^ 511 < 385000 * fee < 2 ^ 511)%Z ->
      estimate
      = Return {| Gas.gasLimit := 385000;
                  Gas.maxFeePerGas := fee;
                  Gas.maxPriorityFeePerGas :=
                    Gas.bigint_or (Gas.feeData_maxPriorityFeePerGas feeData)
                      (2 * 10 ^ 9);
                  Gas.estimatedCostWei := 385000 * fee;
                  Gas.estimatedCostUsd :=
                    mul (of_decimal (385000 * fee) 18) ethPriceUsd |})
     /\ (~ (- 2 ^ 511 < 385000 * fee < 2 ^ 511)%Z ->
         estimate = Return Gas.fallbackEstimate))
  /\
  (forall (provider : Gas.JsonRpcProvider) (ethPriceUsd multiplier : float),
     is_nan multiplier = true ->
     Gas.estimateArbitrageGas provider ethPriceUsd multiplier
     = Return Gas.fallbackEstimate).
Proof.
  split; [| split].
  - intros num N provider ethPriceUsd multiplier.
    apply estimateArbitrageGas_invariant.
  - intros provider feeData ethPriceUsd E fee estimate. subst estimate.
    unfold Gas.estimateArbitrageGas. rewrite E. cbn [bindc].
    assert (L : BigInt (Math_floor (mul (of_Z 350000)
                                            Gas.default_multiplier : float))
                = Return 385000%Z) by (vm_compute; reflexivity).
    rewrite L. cbn [bindc].
    change (Gas.parseUnits 30 0 Gas.gwei) with (30 * 10 ^ 9)%Z. fold fee.
    destruct (formatUnits_spec (num := float) (385000 * fee) Gas.ether)
      as [Hin Hout].
    split; intros Hrange.
    + rewrite (Hin Hrange). reflexivity.
    + rewrite (Hout Hrange). reflexivity.
  - intros provider ethPriceUsd multiplier Hnan.
    apply is_nan_eq in Hnan. subst multiplier.
    unfold Gas.estimateArbitrageGas.
    destruct (Gas.getFeeData provider) as [feeData | e]; [| reflexivity].
    cbn [bindc]. cbn [mul float64]. rewrite float64_mul_nan_r.
    reflexivity.
Qed.

End GasMultiplierFacts.

(** The second part for a provider that reports 40 gwei a unit of gas
    and no priority fee, at 2000 USD an ether. *)
Lemma estimateArbitrageGas_cost_and_limit_witness :
  Gas.estimateArbitrageGas (num := float)
    {| Gas.getFeeData :=
         Return {| Gas.gasPrice := Some (40 * 10 ^ 9)%Z;
                   Gas.feeData_maxFeePerGas := Some (40 * 10 ^ 9)%Z;
                   Gas.feeData_maxPriorityFeePerGas := None |} |}
    Gas.default_ethPriceUsd Gas.default_multiplier
  = Return {| Gas.gasLimit := 385000;
              Gas.maxFeePerGas := 40 * 10 ^ 9;
              Gas.maxPriorityFeePerGas := 2 * 10 ^ 9;
              Gas.estimatedCostWei := 385000 * (40 * 10 ^ 9);
              Gas.estimatedCostUsd :=
                mul (of_decimal (385000 * (40 * 10 ^ 9)) 18)
                    Gas.default_ethPriceUsd |}.
Proof.
  apply (proj1 (proj2 estimateArbitrageGas_cost_and_limit)
               {| Gas.getFeeData :=
                    Return {| Gas.gasPrice := Some (40 * 10 ^ 9)%Z;
                              Gas.feeData_maxFeePerGas := Some (40 * 10 ^ 9)%Z;
                              Gas.feeData_maxPriorityFeePerGas := None |} |}
               _ Gas.default_ethPriceUsd eq_refl).
  vm_compute. split; reflexivity.
Defined.

Section GasTrendFacts.
Local Open Scope Z_scope.

Lemma inject_Z_pos (z : Z) : 0 < z -> (0 < inject_Z z)%Q.
Proof. intros H. change 0%Q with (inject_Z 0). now rewrite <- Zlt_Qlt. Qed.

(** In exact arithmetic, a decimal is below an integer exactly when
    its numerator is below the integer scaled. *)
Lemma exact_decimal_ltb (c : Z) (k : nat) (z : Z) :
  ltb (of_decimal c k : Q) (of_Z z) = (c <? z * 10 ^ Z.of_nat k).
Proof.
  cbn [ltb of_decimal of_Z exact]. unfold Exact.ltb, Exact.of_decimal.
  assert (Hp : (0 < inject_Z (10 ^ Z.of_nat k))%Q).
  { apply inject_Z_pos. apply Z.pow_pos_nonneg; lia. }
  destruct (Z.ltb_spec c (z * 10 ^ Z.of_nat k)) as [Hlt | Hge].
  - apply negb_true_iff. destruct (Qle_bool _ _) eqn:E; [| reflexivity].
    exfalso. apply Qle_bool_iff in E.
    apply (Qmult_le_compat_r _ _ (inject_Z (10 ^ Z.of_nat k))) in E;
      [| now apply Qlt_le_weak].
    assert (E' : (inject_Z (z * 10 ^ Z.of_nat k) <= inject_Z c)%Q).
    { rewrite inject_Z_mult. eapply Qle_trans; [exact E |].
      apply Qle_lteq. right. field. intros Z0. rewrite Z0 in Hp.
      now apply Qlt_irrefl in Hp. }
    rewrite <- Zle_Qle in E'. lia.
  - apply negb_false_iff, Qle_bool_iff.
    apply Qle_shift_div_l; [exact Hp |].
    rewrite <- inject_Z_mult. now rewrite <- Zle_Qle.
Qed.

(** X7. The price trends never raise.  The current price is never 0; a
    positive current price is at most the safe price, which is at most
    the fast price; in exact arithmetic the congestion is low exactly
    below 20 gwei and high exactly from 50 gwei on; and when the fee
    query raises, the fixed trends come back.  On doubles the two
    thresholds fall at the same prices. *)
Theorem getGasPriceTrends_ordered :
  (forall provider : Gas.JsonRpcProvider,
   exists trends,
     GasPricing.getGasPriceTrends (num := Q) provider = Return trends
     /\ GasPricing.current trends <> 0
     /\ (0 < GasPricing.current trends ->
         GasPricing.current trends <= GasPricing.safe trends
         /\ GasPricing.safe trends <= GasPricing.fast trends)
     /\ (GasPricing.congestion trends = GasPricing.low
         <-> GasPricing.current trends < 20 * 10 ^ 9)
     /\ (GasPricing.congestion trends = GasPricing.high
         <-> 50 * 10 ^ 9 <= GasPricing.current trends)
     /\ (forall e, Gas.getFeeData provider = Throw e ->
         trends = GasPricing.fallbackTrends))
  /\
  (let congestionAt (price : Z) :=
     match GasPricing.getGasPriceTrends (num := float)
             {| Gas.getFeeData :=
                  Return {| Gas.gasPrice := Some price;
                            Gas.feeData_maxFeePerGas := None;
                            Gas.feeData_maxPriorityFeePerGas := None |} |}
     with
     | Return trends => Some (GasPricing.congestion trends)
     | Throw _ => None
     end in
   congestionAt (20 * 10 ^ 9 - 1) = Some GasPricing.low
   /\ congestionAt (20 * 10 ^ 9) = Some GasPricing.medium
   /\ congestionAt (50 * 10 ^ 9 - 1) = Some GasPricing.medium
   /\ congestionAt (50 * 10 ^ 9) = Some GasPricing.high).
Proof.
  split.
  - intros provider.
    assert (Fallen :
      exists trends,
        Return (GasPricing.fallbackTrends) = Return trends
        /\ GasPricing.current trends <> 0
        /\ (0 < GasPricing.current trends ->
            GasPricing.current trends <= GasPricing.safe trends
            /\ GasPricing.safe trends <= GasPricing.fast trends)
        /\ (GasPricing.congestion trends = GasPricing.low
            <-> GasPricing.current trends < 20 * 10 ^ 9)
        /\ (GasPricing.congestion trends = GasPricing.high
            <-> 50 * 10 ^ 9 <= GasPricing.current trends)).
    { eexists. split; [reflexivity |].
      split; [discriminate | split; [| split]].
      - intros _. split; discriminate.
      - split; [discriminate |
                intros L; exfalso; revert L; apply Z.le_ngt; discriminate].
      - split; [discriminate | intros L; exfalso; apply L; reflexivity]. }
    unfold GasPricing.getGasPriceTrends.
    destruct (Gas.getFeeData provider) as [feeData | e]; cbn [bindc try_catch].
    + set (c := Gas.bigint_or (Gas.gasPrice feeData)
                  (Gas.parseUnits 20 0 Gas.gwei)).
      assert (Hc : c <> 0) by (apply bigint_or_nonzero; discriminate).
      change (bigint_div (c * 130) 100) with (Return (A := Z) ((c * 130) ÷ 100)).
      change (bigint_div (c * 110) 100) with (Return (A := Z) ((c * 110) ÷ 100)).
      destruct (Gas.formatUnits c Gas.gwei) as [gasPriceGwei | e] eqn:F;
        cbn [bindc try_catch];
        [| destruct Fallen as (trends & Et & H1 & H2 & H3 & H4);
           exists trends; split; [exact Et |]; split; [exact H1 |];
           split; [exact H2 |]; split; [exact H3 |]; split; [exact H4 |];
           discriminate].
      assert (F' : gasPriceGwei = of_decimal c Gas.gwei).
      { revert F. unfold Gas.formatUnits.
        destruct (_ || _); [discriminate | now intros [= <-]]. }
      subst gasPriceGwei.
      eexists. split; [reflexivity |].
      cbn [GasPricing.current GasPricing.safe GasPricing.fast
           GasPricing.congestion].
      rewrite !exact_decimal_ltb. change (Z.of_nat Gas.gwei) with 9.
      split; [exact Hc | split; [| split; [| split]]].
      * intros Hpos. rewrite !Z.quot_div_nonneg by lia. split.
        -- apply Z.div_le_lower_bound; lia.
        -- apply Z.div_le_mono; lia.
      * destruct (Z.ltb_spec c (20 * 10 ^ 9)); [tauto |].
        destruct (c <? 50 * 10 ^ 9); split; (discriminate || lia).
      * destruct (Z.ltb_spec c (20 * 10 ^ 9)); [split; (discriminate || lia) |].
        destruct (Z.ltb_spec c (50 * 10 ^ 9));
          split; try discriminate; try lia; reflexivity.
      * discriminate.
    + destruct Fallen as (trends & Et & H1 & H2 & H3 & H4).
      exists trends. split; [exact Et |]. split; [exact H1 |].
      split; [exact H2 |]. split; [exact H3 |]. split; [exact H4 |].
      intros _ _. now injection Et as <-.
  - vm_compute. repeat split; reflexivity.
Qed.

End GasTrendFacts.

(** The first part for a provider that reports 30 gwei. *)
Lemma getGasPriceTrends_ordered_witness :
  exists trends,
    GasPricing.getGasPriceTrends (num := Q)
      {| Gas.getFeeData :=
           Return {| Gas.gasPrice := Some (30 * 10 ^ 9)%Z;
                     Gas.feeData_maxFeePerGas := None;
                     Gas.feeData_maxPriorityFeePerGas := None |} |}
    = Return trends
    /\ (GasPricing.current trends <= GasPricing.safe trends)%Z
    /\ (GasPricing.safe trends <= GasPricing.fast trends)%Z.
Proof.
  destruct (proj1 getGasPriceTrends_ordered
              {| Gas.getFeeData :=
                   Return {| Gas.gasPrice := Some (30 * 10 ^ 9)%Z;
                             Gas.feeData_maxFeePerGas := None;
                             Gas.feeData_maxPriorityFeePerGas := None |} |})
    as (trends & E & _ & H & _).
  exists trends. split; [exact E |]. apply H.
  injection E as <-. reflexivity.
Defined.

Section DynamicGasNan.

(** X9. On doubles, a volatility that is NaN makes the dynamic gas price
    raise [RangeError], whatever the other arguments are: the
    multiplier is NaN, and [BigInt] refuses it. *)
Theorem calculateDynamicGasPrice_nan_volatility
    (baseGasPrice : Z) (urgency : GasPricing.Level)
    (marketVolatility profitMarginBps : float) :
  is_nan marketVolatility = true ->
  GasPricing.calculateDynamicGasPrice
    baseGasPrice urgency marketVolatility profitMarginBps
  = Throw (RangeError "The number cannot be converted to a BigInt").
Proof.
  intros Hnan. apply is_nan_eq in Hnan. subst marketVolatility.
  unfold GasPricing.calculateDynamicGasPrice. cbv zeta.
  cbn [add mul Math_min Math_floor float64].
  rewrite float64_mul_nan_l, float64_add_nan_r.
  assert (E : (if gtb profitMarginBps (of_Z 500)
               then (nan + of_decimal 1 1)%float else nan) = nan).
  { destruct (gtb _ _); [apply float64_add_nan_l | reflexivity]. }
  rewrite E.
  change (F64.Math_min nan (of_Z 2)) with nan.
  rewrite float64_mul_nan_r. reflexivity.
Qed.

Lemma calculateDynamicGasPrice_nan_volatility_witness :
  GasPricing.calculateDynamicGasPrice (num := float)
    (30 * 10 ^ 9) GasPricing.medium nan (of_Z 200)
  = Throw (RangeError "The number cannot be converted to a BigInt").
Proof.
  exact (calculateDynamicGasPrice_nan_volatility
           (30 * 10 ^ 9) GasPricing.medium nan (of_Z 200) eq_refl).
Defined.

End DynamicGasNan.

Section GasAcceptableFacts.

(** X10. The gas cost is accepted exactly when the expected profit is
    positive and the ratio of the cost to it is at most the ceiling:
    on doubles a profit that is NaN, zero or negative is refused; and
    in exact arithmetic, for a positive profit, the test is that the
    cost is at most the ceiling's share of the profit. *)
Theorem isGasCostAcceptable_spec :
  (forall gasCostUsd expectedProfitUsd maxGasRatio : float,
     GasPricing.isGasCostAcceptable gasCostUsd expectedProfitUsd maxGasRatio
     = true
     <-> ltb (of_Z 0) expectedProfitUsd = true
         /\ leb (div gasCostUsd expectedProfitUsd) maxGasRatio = true)
  /\
  (forall gasCostUsd expectedProfitUsd maxGasRatio : Q,
     (0 < expectedProfitUsd)%Q ->
     (GasPricing.isGasCostAcceptable gasCostUsd expectedProfitUsd maxGasRatio
      = true
      <-> (gasCostUsd <= maxGasRatio * expectedProfitUsd)%Q)).
Proof.
  split.
  - intros g p r. unfold GasPricing.isGasCostAcceptable.
    cbn [leb ltb div of_Z float64]. change (F64.of_Z 0) with 0%float.
    rewrite float64_pos_iff. split.
    + destruct (p <=? 0)%float eqn:E; [discriminate |]. intros H.
      split; [split; [reflexivity |] | exact H].
      destruct (is_nan p) eqn:Hn; [| reflexivity].
      apply is_nan_eq in Hn. subst p.
      rewrite float64_div_nan_r, leb_spec in H.
      change (Prim2SF nan) with S754_nan in H. discriminate H.
    + intros [[-> _] H]. exact H.
  - intros g p r Hp. unfold GasPricing.isGasCostAcceptable.
    cbn [leb div of_Z exact].
    destruct (Qle_bool p (inject_Z 0)) eqn:E.
    + apply Qle_bool_iff in E. change (inject_Z 0) with 0%Q in E. lra.
    + rewrite Qle_bool_iff. split; intros H.
      * apply (Qmult_le_compat_r _ _ p) in H; [| lra].
        eapply Qle_trans; [| exact H].
        apply Qle_lteq. right. field. lra.
      * apply Qle_shift_div_r; assumption.
Qed.

End GasAcceptableFacts.

(** The first part on doubles: a gas cost of 10 USD against an expected
    profit of 100 USD, at the default ceiling of 0.3, is accepted. *)
Lemma isGasCostAcceptable_spec_witness :
  GasPricing.isGasCostAcceptable (num := float)
    (of_Z 10) (of_Z 100) GasPricing.default_maxGasRatio = true.
Proof.
  exact (proj2 (proj1 isGasCostAcceptable_spec
                  (of_Z 10) (of_Z 100) GasPricing.default_maxGasRatio)
               (conj eq_refl eq_refl)).
Defined.

(** ** The drawdown tracker *)

Section MaeFacts.
Local Open Scope float_scope.

Lemma float64_leb_refl (x : float) : is_nan x = false -> (x <=? x) = true.
Proof.
  intros H. apply not_ltb_leb; try assumption.
  rewrite ltb_spec. unfold SFltb.
  rewrite is_nan_spec in H.
  destruct (Prim2SF x) as [s | s | | s m e]; try destruct s; try discriminate;
    simpl; try reflexivity.
  all: rewrite Z.compare_refl, Pos.compare_cont_refl; reflexivity.
Qed.

(** X15. On doubles, for a tracker whose peak and maximal drawdown are not
    NaN: an update never lowers the peak nor the maximal drawdown; a
    value above the peak becomes the peak and resets the current
    drawdown to 0; and the date of the maximal drawdown changes only
    when the maximal drawdown is raised, to the current drawdown. *)
Theorem updateMAE_monotone
    (tracker : Tuning.MAETracker float) (currentValue : float) (now : Z) :
  is_nan (Tuning.peakValue tracker) = false ->
  is_nan (Tuning.maxDrawdown tracker) = false ->
  let updated := Tuning.updateMAE tracker currentValue now in
  leb (Tuning.peakValue tracker) (Tuning.peakValue updated) = true
  /\ leb (Tuning.maxDrawdown tracker) (Tuning.maxDrawdown updated) = true
  /\ (gtb currentValue (Tuning.peakValue tracker) = true ->
      Tuning.peakValue updated = currentValue
      /\ Tuning.currentDrawdown updated = of_Z 0)
  /\ (Tuning.maxDrawdownDate updated <> Tuning.maxDrawdownDate tracker ->
      ltb (Tuning.maxDrawdown tracker) (Tuning.maxDrawdown updated) = true
      /\ Tuning.maxDrawdown updated = Tuning.currentDrawdown updated
      /\ Tuning.maxDrawdownDate updated = now).
Proof.
  intros Hp Hd updated. subst updated. unfold Tuning.updateMAE.
  cbn [gtb ltb leb float64].
  destruct (Tuning.peakValue tracker <? currentValue) eqn:E1.
  - cbn. split; [| split; [| split]].
    + now apply ltb_leb.
    + now apply float64_leb_refl.
    + intros _. split; reflexivity.
    + intros N. now contradiction N.
  - cbv zeta.
    destruct (Tuning.maxDrawdown tracker <? _) eqn:E2; cbn;
      (split; [| split; [| split]]).
    + now apply float64_leb_refl.
    + now apply ltb_leb.
    + discriminate.
    + intros _. split; [exact E2 | split; reflexivity].
    + now apply float64_leb_refl.
    + now apply float64_leb_refl.
    + discriminate.
    + intros N. now contradiction N.
Qed.

End MaeFacts.

(** The theorem on doubles, at a tracker with a peak of 1000 and a
    maximal drawdown of 0.1, and a value of 800. *)
Lemma updateMAE_monotone_witness :
  let tracker :=
    {| Tuning.maxDrawdown := of_decimal 1 1;
       Tuning.maxDrawdownDate := 0;
       Tuning.currentDrawdown := of_Z 0;
       Tuning.peakValue := (of_Z 1000 : float) |} in
  let updated := Tuning.updateMAE tracker (of_Z 800) 1700000000000 in
  leb (Tuning.peakValue tracker) (Tuning.peakValue updated) = true
  /\ leb (Tuning.maxDrawdown tracker) (Tuning.maxDrawdown updated) = true.
Proof.
  intros tracker updated.
  destruct (updateMAE_monotone tracker (of_Z 800) 1700000000000
              eq_refl eq_refl) as (A & B & _).
  split; assumption.
Defined.

(** ** The other methods of the risk manager *)

Section ManagerFacts.
Context {num : Type} {N : JsNumber num}.

(** X17. [killSwitch] sets the flag and the reason before it persists the
    event: the manager is killed whether the database accepts the event
    or rejects it, in which case the call raises what the database
    raised.  Nothing else of the state and nothing of the limits
    changes; the event is recorded exactly when the call returns. *)
Theorem killSwitch_kills_before_persisting
    (env : Env num) (reason : string) (w : World num) :
  let r := killSwitch env reason w in
  isKilled (state (snd r)) = true
  /\ killReason (state (snd r)) = Some reason
  /\ limits (snd r) = limits w
  /\ dailyPnl (state (snd r)) = dailyPnl (state w)
  /\ consecutiveLosses (state (snd r)) = consecutiveLosses (state w)
  /\ tradesInLastHour (state (snd r)) = tradesInLastHour (state w)
  /\ lastTradeTime (state (snd r)) = lastTradeTime (state w)
  /\ lastLossTime (state (snd r)) = lastLossTime (state w)
  /\ (forall e, recordRiskEvent env (Manager.killEvent env reason w) = Throw e ->
      fst r = Throw e /\ riskEvents (snd r) = riskEvents w)
  /\ (forall u, recordRiskEvent env (Manager.killEvent env reason w) = Return u ->
      fst r = Return tt
      /\ riskEvents (snd r) = riskEvents w ++ [Manager.killEvent env reason w]).
Proof.
  intros r. subst r. unfold killSwitch, Manager.killEvent. run_monad.
  destruct (recordRiskEvent env _) eqn:E; cbn;
    repeat split; intros; congruence.
Qed.

(** X18. [checkLimits] kills a manager that is not yet killed exactly when
    the refreshed daily PnL is at or below the negated ceiling; on a
    manager that is already killed it records no second event and
    leaves the reason alone; in both cases where it does not kill, the
    refreshed daily PnL is its one change. *)
Theorem checkLimits_kills_once (env : Env num) (w : World num) :
  let r := checkLimits env w in
  let refreshed := snd (updateDailyPnl env w) in
  let breach :=
    geb (neg (refreshedPnl env w)) (maxDailyLossUsd (limits w)) in
  (isKilled (state w) = true -> r = (Return tt, refreshed))
  /\ (isKilled (state w) = false -> breach = false ->
      r = (Return tt, refreshed))
  /\ (isKilled (state w) = false -> breach = true ->
      r = killSwitch env "Daily loss limit check failed" refreshed)
  /\ dailyPnl (state refreshed) = refreshedPnl env w
  /\ isKilled (state refreshed) = isKilled (state w)
  /\ killReason (state refreshed) = killReason (state w)
  /\ riskEvents refreshed = riskEvents w.
Proof.
  intros r refreshed breach. subst r refreshed breach.
  unfold checkLimits, updateDailyPnl, refreshedPnl. run_monad.
  destruct (getDailyStats env) as [stats | e];
    cbn [fst snd limits state clockReads riskEvents isKilled dailyPnl
         killReason set_dailyPnl];
    repeat split; try (intros -> ; rewrite ?andb_false_r; reflexivity).
  all: intros -> ->; reflexivity.
Qed.

(** X20. A manager that has been constructed and initialized is not killed
    and holds the two ceilings of the configuration with the four fixed
    defaults; the initialization never raises; the daily PnL is the
    database's and the streak is the run of losses the ten most recent
    trades start with, when both queries resolve; when the first is
    rejected the state stays as constructed, and when only the second
    is, the PnL is set and the streak stays 0. *)
Theorem constructor_initializes (env : Env num) (config : Config num) :
  let r := initializeState env (constructed config) in
  let w := snd r in
  fst r = Return tt
  /\ isKilled (state w) = false
  /\ killReason (state w) = None
  /\ riskEvents w = []
  /\ limits w = {| maxDailyLossUsd := MAX_DAILY_LOSS_USD config;
                   maxNotionalUsd := MAX_NOTIONAL_USD config;
                   maxTradesPerHour := of_Z 100;
                   maxConsecutiveLosses := of_Z 5;
                   cooldownAfterLossMs := of_Z 60000;
                   minTimeBetweenTradesMs := of_Z 5000 |}
  /\ (forall stats trades,
        getDailyStats env = Return stats ->
        getRecentTrades env 10 = Return trades ->
        dailyPnl (state w) = stats_dailyPnl stats
        /\ consecutiveLosses (state w) = countLosses trades)
  /\ (forall e, getDailyStats env = Throw e ->
        state w = state (constructed config))
  /\ (forall stats e,
        getDailyStats env = Return stats ->
        getRecentTrades env 10 = Throw e ->
        dailyPnl (state w) = stats_dailyPnl stats
        /\ consecutiveLosses (state w) = 0%nat).
Proof.
  intros r w. subst w r.
  unfold initializeState, calculateConsecutiveLosses, constructed.
  run_monad.
  destruct (getDailyStats env) as [stats | e];
    [destruct (getRecentTrades env 10) as [trades | e] |];
    cbn; repeat split; intros; try congruence.
Qed.

End ManagerFacts.

(** The theorem on doubles, for the test's [killSwitch('Test kill')] on
    a new manager with the mock database. *)
Lemma killSwitch_kills_before_persisting_witness :
  let w := constructed (num := float) Fixtures.mockConfig in
  let r := killSwitch (Fixtures.mockEnv (of_Z 0)) "Test kill" w in
  fst r = Return tt
  /\ riskEvents (snd r)
     = riskEvents w
       ++ [Manager.killEvent (Fixtures.mockEnv (of_Z 0)) "Test kill" w].
Proof.
  destruct (killSwitch_kills_before_persisting
              (Fixtures.mockEnv (of_Z 0)) "Test kill"
              (constructed (num := float) Fixtures.mockConfig))
    as (_ & _ & _ & _ & _ & _ & _ & _ & _ & H).
  exact (H tt eq_refl).
Defined.

(** The theorem on doubles, for a new manager and a database whose
    daily PnL is -150 against a ceiling of 100. *)
Lemma checkLimits_kills_once_witness :
  let w := constructed (num := float) Fixtures.mockConfig in
  checkLimits (Fixtures.mockEnv (of_Z (-150))) w
  = killSwitch (Fixtures.mockEnv (of_Z (-150)))
      "Daily loss limit check failed"
      (snd (updateDailyPnl (Fixtures.mockEnv (of_Z (-150))) w)).
Proof.
  destruct (checkLimits_kills_once
              (Fixtures.mockEnv (of_Z (-150)))
              (constructed (num := float) Fixtures.mockConfig))
    as (_ & _ & H & _).
  exact (H eq_refl eq_refl).
Defined.

(** The theorem on doubles, for the mock configuration and the mock
    database with a daily PnL of -25 and no trades. *)
Lemma constructor_initializes_witness :
  let w := snd (initializeState (Fixtures.mockEnv (of_Z (-25)))
                  (constructed (num := float) Fixtures.mockConfig)) in
  dailyPnl (state w) = of_Z (-25)
  /\ consecutiveLosses (state w) = 0%nat.
Proof.
  destruct (constructor_initializes
              (Fixtures.mockEnv (of_Z (-25)))
              (Fixtures.mockConfig (num := float)))
    as (_ & _ & _ & _ & _ & H & _).
  exact (H _ _ eq_refl eq_refl).
Defined.

Section AuthorizationFacts.
Context {num : Type} {N : JsNumber num}.

(** The state an authorizing [canTrade] leaves. *)
Lemma canTrade_true_state
    (env : Env num) (amountUsd expectedProfitUsd : num) (w : World num) :
  let r := canTrade env amountUsd expectedProfitUsd w in
  fst r = Return true ->
  isKilled (state (snd r)) = false
  /\ killReason (state (snd r)) = killReason (state w)
  /\ dailyPnl (state (snd r)) = refreshedPnl env w
  /\ tradesInLastHour (state (snd r)) = refreshedTradeCount env w
  /\ consecutiveLosses (state (snd r)) = consecutiveLosses (state w)
  /\ lastTradeTime (state (snd r)) = lastTradeTime (state w)
  /\ lastLossTime (state (snd r)) = lastLossTime (state w)
  /\ limits (snd r) = limits w
  /\ riskEvents (snd r) = riskEvents w.
Proof.
  intros r. subst r.
  unfold canTrade, updateDailyPnl, updateTradeCount, killSwitch,
    refreshedPnl, refreshedTradeCount, readsBeforeCount, readsBeforeSpacing,
    countLastHour.
  run_monad.
  destruct (isKilled (state w)) eqn:Hk; [discriminate |].
  destruct (gtb amountUsd _) eqn:Hcap; [discriminate |].
  destruct (getDailyStats env);
    cbn [fst snd limits state clockReads riskEvents isKilled dailyPnl
         consecutiveLosses lastLossTime lastTradeTime tradesInLastHour
         set_dailyPnl] in *.
  all: destruct (lastLossTime (state w)) as [lossTime |] eqn:HL;
    destruct (lastTradeTime (state w)) as [tradeTime |] eqn:HT;
    rewrite ?Nat.add_0_r, ?Nat.add_1_r;
    repeat split_match; cbn in *; intros Hr; try discriminate Hr;
    repeat split; try congruence.
Qed.

(** X21. [canTrade] returns true exactly when the manager is not killed,
    the notional is not above its cap, the projected daily loss (on
    the refreshed PnL) is not above its ceiling, and none of the
    streak, cooldown, spacing and hourly guards refuses.  It then
    leaves the manager not killed, with the refreshed daily PnL and
    the recomputed hourly count, and everything else as it was. *)
Theorem canTrade_authorizes_iff
    (env : Env num) (amountUsd expectedProfitUsd : num) (w : World num) :
  let r := canTrade env amountUsd expectedProfitUsd w in
  (fst r = Return true
   <-> isKilled (state w) = false
       /\ gtb amountUsd (maxNotionalUsd (limits w)) = false
       /\ gtb (potentialDailyLoss (refreshedPnl env w) expectedProfitUsd)
              (maxDailyLossUsd (limits w)) = false
       /\ streakGuard w = false
       /\ cooldownGuard env w = false
       /\ spacingGuard env w = false
       /\ hourlyGuard env w = false)
  /\ (fst r = Return true ->
      isKilled (state (snd r)) = false
      /\ killReason (state (snd r)) = killReason (state w)
      /\ dailyPnl (state (snd r)) = refreshedPnl env w
      /\ tradesInLastHour (state (snd r)) = refreshedTradeCount env w
      /\ consecutiveLosses (state (snd r)) = consecutiveLosses (state w)
      /\ lastTradeTime (state (snd r)) = lastTradeTime (state w)
      /\ lastLossTime (state (snd r)) = lastLossTime (state w)
      /\ limits (snd r) = limits w
      /\ riskEvents (snd r) = riskEvents w).
Proof.
  intros r. subst r. split; [| apply canTrade_true_state].
  destruct (canTrade_rejected env amountUsd expectedProfitUsd w)
    as (Hcap & _ & Hguards & _).
  split.
  - intros Hr.
    destruct (isKilled (state w)) eqn:Hk.
    { rewrite canTrade_killed in Hr by exact Hk. discriminate Hr. }
    destruct (gtb amountUsd (maxNotionalUsd (limits w))) eqn:Hc.
    { rewrite (Hcap eq_refl eq_refl) in Hr. discriminate Hr. }
    destruct (gtb (potentialDailyLoss (refreshedPnl env w) expectedProfitUsd)
                  (maxDailyLossUsd (limits w))) eqn:Hb.
    { destruct (canTrade_daily_loss env amountUsd expectedProfitUsd w Hk Hc)
        as [Hkill _].
      destruct (Hkill Hb) as (_ & _ & [E | [x E]]);
        rewrite E in Hr; discriminate Hr. }
    destruct (Hguards eq_refl eq_refl eq_refl) as [E _].
    rewrite E in Hr. injection Hr as Hr.
    apply negb_true_iff in Hr.
    repeat (apply orb_false_iff in Hr; destruct Hr as [Hr ?]).
    repeat split; assumption.
  - intros (Hk & Hc & Hb & G1 & G2 & G3 & G4).
    destruct (Hguards Hk Hc Hb) as [E _].
    rewrite E, G1, G2, G3, G4. reflexivity.
Qed.

End AuthorizationFacts.

(** The theorem on doubles, for the test "should allow trades within
    limits": 100 USD with an expected profit of 2 USD on a new manager. *)
Lemma canTrade_authorizes_iff_witness :
  fst (canTrade (Fixtures.mockEnv (of_Z 0)) (of_Z 100) (of_Z 2)
         (constructed (num := float) Fixtures.mockConfig))
  = Return true.
Proof.
  exact (proj2 (proj1 (canTrade_authorizes_iff
                         (Fixtures.mockEnv (of_Z 0)) (of_Z 100) (of_Z 2)
                         (constructed (num := float) Fixtures.mockConfig)))
               (conj eq_refl (conj eq_refl (conj eq_refl (conj eq_refl
                  (conj eq_refl (conj eq_refl eq_refl))))))).
Defined.

Section AccumulationFacts.
Context {num : Type} {N : JsNumber num}.

Lemma recordAll_dailyPnl (calls : list (Env num * Trade num)) (w : World num) :
  dailyPnl (state (recordAll calls w))
  = fold_left add (map (fun p => actualProfitUsd (snd p)) calls)
              (dailyPnl (state w)).
Proof.
  revert w. induction calls as [| [env t] calls IH]; intros w.
  - reflexivity.
  - unfold recordAll in *. cbn [map afterAll fold_left fst snd].
    rewrite IH. f_equal. unfold after.
    exact (proj1 (recordTrade_daily_loss env t w)).
Qed.

Lemma recordAll_lastTradeTime
    (calls : list (Env num * Trade num)) (w : World num) :
  calls <> [] -> lastTradeTime (state (recordAll calls w)) <> None.
Proof.
  assert (Keep : forall (l : list (Env num * Trade num)) (v : World num),
            lastTradeTime (state v) <> None ->
            lastTradeTime (state (recordAll l v)) <> None).
  { induction l as [| [env t] l IH]; intros v Hv; [exact Hv |].
    unfold recordAll in *. cbn [map afterAll fst snd]. apply IH.
    unfold after, recordTrade, killSwitch. run_monad.
    repeat split_match; cbn; discriminate. }
  destruct calls as [| [env t] calls]; [congruence | intros _].
  unfold recordAll. cbn [map afterAll fst snd].
  apply (Keep calls).
  unfold after, recordTrade, killSwitch. run_monad.
  repeat split_match; cbn; discriminate.
Qed.

(** X22. A sequence of [recordTrade] calls with no continuation of the
    initialization in between leaves the daily PnL at the PnL before
    with the profits added one after the other, in the order of the
    calls, whether or not a call raised; and the last trade time is set
    as soon as one trade was recorded.  The continuation that follows
    [getDailyStats] overwrites the daily PnL with the database's: the
    outcomes recorded before it are dropped from the sum.  The other
    continuation leaves the daily PnL alone, and so does a continuation
    on an object whose initialization is over. *)
Theorem dailyPnl_accumulates_until_refreshed :
  (forall (m : Instance num) (calls : list (Env num * Trade num)),
     dailyPnl (state (world (run (records calls) m)))
     = fold_left add (map (fun p => actualProfitUsd (snd p)) calls)
                 (dailyPnl (state (world m)))
     /\ (calls <> [] ->
         lastTradeTime (state (world (run (records calls) m))) <> None))
  /\
  (forall (m : Instance num) (env : Env num) (stats : DailyStats num)
          (earlier later : list (Env num * Trade num)),
     initStage m = AwaitsDailyStats ->
     getDailyStats env = Return stats ->
     dailyPnl
       (state (world (run (records earlier ++ InitResumes env :: records later)
                          m)))
     = fold_left add (map (fun p => actualProfitUsd (snd p)) later)
                 (stats_dailyPnl stats))
  /\
  (forall (m : Instance num) (env : Env num)
          (earlier later : list (Env num * Trade num)),
     initStage m <> AwaitsDailyStats ->
     dailyPnl
       (state (world (run (records earlier ++ InitResumes env :: records later)
                          m)))
     = fold_left add
         (map (fun p => actualProfitUsd (snd p)) (earlier ++ later))
         (dailyPnl (state (world m)))).
Proof.
  assert (Split :
    forall (m : Instance num) env earlier later,
      dailyPnl
        (state (world (run (records earlier ++ InitResumes env :: records later)
                           m)))
      = fold_left add (map (fun p => actualProfitUsd (snd p)) later)
          (dailyPnl
             (state (snd (initResume env (initStage m)
                            (recordAll earlier (world m))))))).
  { intros m env earlier later. rewrite run_app. cbn [run fold_left].
    change (fold_left step (records later) ?x) with (run (records later) x).
    rewrite (proj1 (run_records _ _)), recordAll_dailyPnl.
    f_equal. cbn [step world].
    now rewrite (proj2 (run_records earlier m)), (proj1 (run_records earlier m)). }
  split; [| split].
  - intros m calls. rewrite (proj1 (run_records calls m)). split.
    + apply recordAll_dailyPnl.
    + apply recordAll_lastTradeTime.
  - intros m env stats earlier later Hstage Hstats.
    rewrite Split, Hstage. cbn [initResume]. rewrite Hstats. reflexivity.
  - intros m env earlier later Hstage.
    rewrite Split, map_app, fold_left_app. f_equal.
    rewrite <- recordAll_dailyPnl.
    destruct (initStage m); [congruence | |]; cbn [initResume].
    + destruct (getRecentTrades env 10); reflexivity.
    + reflexivity.
Qed.

End AccumulationFacts.

(** The second part on doubles, for the outcome +2 recorded on a new
    manager before the daily statistics arrive, and the outcomes -1, -2
    and -1.5 recorded after: the database reports 0, and the daily PnL
    is left at -4.5, not at the sum -2.5. *)
Lemma dailyPnl_accumulates_until_refreshed_witness :
  let env := Fixtures.mockEnv (num := float) (of_Z 0) in
  dailyPnl
    (state (world
       (run (records (Fixtures.outcomes [of_Z 2])
             ++ InitResumes env
                :: records (Fixtures.outcomes
                              [of_Z (-1); of_Z (-2); of_decimal (-15) 1]))
            (construct env Fixtures.mockConfig))))
  = of_decimal (-45) 1.
Proof.
  intros env.
  rewrite (proj1 (proj2 dailyPnl_accumulates_until_refreshed)
             (construct env Fixtures.mockConfig) env
             {| stats_dailyPnl := of_Z 0 |}
             (Fixtures.outcomes [of_Z 2])
             (Fixtures.outcomes [of_Z (-1); of_Z (-2); of_decimal (-15) 1])
             eq_refl eq_refl).
  vm_compute. reflexivity.
Defined.

Section BoundaryFacts.
Local Open Scope float_scope.

(** [x <= y] without [x < y] is [x == y]. *)
Lemma float64_leb_not_ltb (x y : float) :
  (x <? y) = false -> (x <=? y) = (x =? y).
Proof.
  rewrite ltb_spec, leb_spec, FloatAxioms.eqb_spec.
  unfold SFltb, SFleb, SFeqb.
  destruct (SFcompare _ _) as [[] |]; congruence.
Qed.

(** X23. On doubles and for a daily loss ceiling that is not negative: when
    [canTrade] has authorized a trade and the trade is then recorded
    with the profit that was expected, [recordTrade] kills exactly when
    the refreshed daily PnL plus that profit equals the negated
    ceiling; the projection [canTrade] let pass is the realized PnL
    [recordTrade] tests, but the first test is strict and the second is
    not. *)
Theorem authorized_trade_kills_at_the_ceiling
    (env env' : Env float) (amountUsd expectedProfitUsd : float)
    (trade : Trade float) (w : World float) :
  leb (of_Z 0) (maxDailyLossUsd (limits w)) = true ->
  actualProfitUsd trade = expectedProfitUsd ->
  let r := canTrade env amountUsd expectedProfitUsd w in
  fst r = Return true ->
  isKilled (state (snd (recordTrade env' trade (snd r))))
  = eqb (add (refreshedPnl env w) expectedProfitUsd)
        (neg (maxDailyLossUsd (limits w))).
Proof.
  intros Hm Hp r Hr. subst r.
  destruct (canTrade_true_state env amountUsd expectedProfitUsd w Hr)
    as (Hk & _ & Hpnl & _ & _ & _ & _ & Hl & _).
  assert (Hb : gtb (potentialDailyLoss (refreshedPnl env w) expectedProfitUsd)
                   (maxDailyLossUsd (limits w)) = false).
  { destruct (isKilled (state w)) eqn:Hk0.
    { rewrite canTrade_killed in Hr by exact Hk0. discriminate Hr. }
    destruct (gtb amountUsd (maxNotionalUsd (limits w))) eqn:Hc.
    { destruct (canTrade_rejected env amountUsd expectedProfitUsd w)
        as (Hcap & _).
      rewrite (Hcap Hk0 Hc) in Hr. discriminate Hr. }
    destruct (gtb (potentialDailyLoss _ _) _) eqn:Hb; [| reflexivity].
    destruct (canTrade_daily_loss env amountUsd expectedProfitUsd w Hk0 Hc)
      as [Hkill _].
    destruct (Hkill Hb) as (_ & _ & [E | [x E]]);
      rewrite E in Hr; discriminate Hr. }
  rewrite float64_projected_breach in Hb by exact Hm.
  destruct (recordTrade_daily_loss env' trade
              (snd (canTrade env amountUsd expectedProfitUsd w)))
    as (_ & Hkill & Hkeep).
  rewrite Hpnl, Hl, Hp in Hkill, Hkeep.
  rewrite float64_realized_breach in Hkill, Hkeep.
  pose proof (float64_leb_not_ltb _ _ Hb) as Heq.
  cbn [eqb leb ltb add neg float64] in *.
  rewrite <- Heq.
  destruct (_ + _ <=? _)%float eqn:E.
  - exact (proj1 (Hkill eq_refl)).
  - rewrite (proj1 (Hkeep eq_refl)). exact Hk.
Qed.

End BoundaryFacts.

(** The theorem for a ceiling of 100, a database whose daily PnL is
    -90 and a trade expected to lose 10: [canTrade] authorizes it, and
    recording that loss kills. *)
Lemma authorized_trade_kills_at_the_ceiling_witness :
  isKilled
    (state
       (snd (recordTrade (Fixtures.mockEnv (of_Z (-90)))
               (Fixtures.mockTrade (of_Z (-10)))
               (snd (canTrade (Fixtures.mockEnv (of_Z (-90)))
                       (of_Z 100) (of_Z (-10))
                       (constructed (num := float) Fixtures.mockConfig))))))
  = true.
Proof.
  exact (authorized_trade_kills_at_the_ceiling
           (Fixtures.mockEnv (of_Z (-90))) (Fixtures.mockEnv (of_Z (-90)))
           (of_Z 100) (of_Z (-10)) (Fixtures.mockTrade (of_Z (-10)))
           (constructed (num := float) Fixtures.mockConfig)
           eq_refl eq_refl eq_refl).
Defined.

(** ** The ceilings of the trade sizes *)

Section ProfitFacts.
Local Open Scope float_scope.

(** [Math.min] of two doubles that are not NaN is one of the two, and
    at most each; it is NaN as soon as one of the two is. *)
Lemma float64_Math_min_spec (x y : float) :
  (is_nan x = false -> is_nan y = false ->
   (F64.Math_min x y = x \/ F64.Math_min x y = y)
   /\ (F64.Math_min x y <=? x) = true /\ (F64.Math_min x y <=? y) = true)
  /\ (is_nan (F64.Math_min x y) = false ->
      is_nan x = false /\ is_nan y = false).
Proof.
  unfold F64.Math_min. split.
  - intros Hx Hy. rewrite Hx, Hy. cbn [orb].
    destruct (x <? y) eqn:E1.
    { split; [now left |]. split; [now apply float64_leb_refl |].
      now apply ltb_leb. }
    destruct (y <? x) eqn:E2.
    { split; [now right |]. split; [now apply ltb_leb |].
      now apply float64_leb_refl. }
    destruct (F64.is_neg_zero x).
    + split; [now left |]. split; [now apply float64_leb_refl |].
      now apply not_ltb_leb.
    + split; [now right |]. split; [now apply not_ltb_leb |].
      now apply float64_leb_refl.
  - destruct (is_nan x); [discriminate |].
    destruct (is_nan y); [discriminate |]. now split.
Qed.

Lemma float64_Math_max_spec (x y : float) :
  (is_nan x = false -> is_nan y = false ->
   (F64.Math_max x y = x \/ F64.Math_max x y = y)
   /\ (x <=? F64.Math_max x y) = true /\ (y <=? F64.Math_max x y) = true)
  /\ (is_nan (F64.Math_max x y) = false ->
      is_nan x = false /\ is_nan y = false).
Proof.
  unfold F64.Math_max. split.
  - intros Hx Hy. rewrite Hx, Hy. cbn [orb].
    destruct (x <? y) eqn:E1.
    { split; [now right |]. split; [now apply ltb_leb |].
      now apply float64_leb_refl. }
    destruct (y <? x) eqn:E2.
    { split; [now left |]. split; [now apply float64_leb_refl |].
      now apply ltb_leb. }
    destruct (F64.is_pos_zero x).
    + split; [now left |]. split; [now apply float64_leb_refl |].
      now apply not_ltb_leb.
    + split; [now right |]. split; [now apply not_ltb_leb |].
      now apply float64_leb_refl.
  - destruct (is_nan x); [discriminate |].
    destruct (is_nan y); [discriminate |]. now split.
Qed.

(** A product is NaN as soon as its second factor is. *)
Lemma float64_mul_not_nan_r (x y : float) :
  is_nan (x * y) = false -> is_nan y = false.
Proof.
  destruct (is_nan y) eqn:Hy; [| reflexivity].
  apply is_nan_eq in Hy. subst y. now rewrite float64_mul_nan_r.
Qed.

(** X24. On doubles, [calculateOptimalSize] returns 0 for a spread of at
    most 0; for any other spread the size it returns is at most the
    ceiling [maxSizeUsd], unless it is NaN, which it is whenever the
    spread or the ceiling is NaN. *)
Theorem calculateOptimalSize_capped
    (spreadBps gasCostUsd maxSizeUsd minProfitUsd : float) :
  let size :=
    Profit.calculateOptimalSize spreadBps gasCostUsd maxSizeUsd minProfitUsd in
  (leb spreadBps (of_Z 0) = true -> size = of_Z 0)
  /\ (leb spreadBps (of_Z 0) = false ->
      is_nan size = false -> leb size maxSizeUsd = true)
  /\ (is_nan spreadBps = true -> is_nan size = true)
  /\ (leb spreadBps (of_Z 0) = false ->
      is_nan maxSizeUsd = true -> is_nan size = true).
Proof.
  intros size. subst size. unfold Profit.calculateOptimalSize.
  cbn [leb div mul add of_Z Math_min Math_max float64].
  split; [| split; [| split]].
  - intros ->. reflexivity.
  - intros -> Hn.
    destruct (proj2 (float64_Math_min_spec _ _) Hn) as [Ha Hb].
    exact (proj2 (proj2 (proj1 (float64_Math_min_spec _ _) Ha Hb))).
  - intros Hs. apply is_nan_eq in Hs. subst spreadBps.
    change (nan <=? F64.of_Z 0) with false. cbv iota.
    rewrite !float64_div_nan_r. reflexivity.
  - intros -> Hm. apply is_nan_eq in Hm. subst maxSizeUsd.
    destruct (is_nan (F64.Math_min _ nan)) eqn:E; [reflexivity |].
    destruct (proj2 (float64_Math_min_spec _ _) E) as [_ Hb].
    discriminate Hb.
Qed.

(** X25. On doubles, [maxProfitableSize] returns 0 when the spread is at
    most the slippage; otherwise the size it returns is at most the
    ceiling [maxSizeUsd], unless it is NaN. *)
Theorem maxProfitableSize_capped
    (spreadBps gasCostUsd slippageBps maxSizeUsd : float) :
  let size :=
    Profit.maxProfitableSize spreadBps gasCostUsd slippageBps maxSizeUsd in
  (leb spreadBps slippageBps = true -> size = of_Z 0)
  /\ (leb spreadBps slippageBps = false ->
      is_nan size = false -> leb size maxSizeUsd = true).
Proof.
  intros size. subst size. unfold Profit.maxProfitableSize.
  cbn [leb div mul sub of_Z Math_min float64].
  split.
  - intros ->. reflexivity.
  - intros -> Hn.
    destruct (proj2 (float64_Math_min_spec _ _) Hn) as [Ha Hb].
    exact (proj2 (proj2 (proj1 (float64_Math_min_spec _ _) Ha Hb))).
Qed.

(** X26. On doubles, the size [calculatePositionSize] returns, unless it
    is NaN, is at most the capital times the hundredth of the risk
    percentage, and at most the capital times a fraction that lies
    between 0 and 0.25. *)
Theorem calculatePositionSize_capped
    (availableCapitalUsd maxRiskPerTradePercent expectedReturnBps
       volatilityBps : float) :
  let size :=
    Profit.calculatePositionSize availableCapitalUsd maxRiskPerTradePercent
      expectedReturnBps volatilityBps in
  is_nan size = false ->
  leb size (mul availableCapitalUsd (div maxRiskPerTradePercent (of_Z 100)))
  = true
  /\ exists fraction,
       leb (of_Z 0) fraction = true
       /\ leb fraction (of_decimal 25 2) = true
       /\ leb size (mul availableCapitalUsd fraction) = true.
Proof.
  intros size Hn. subst size. unfold Profit.calculatePositionSize in *.
  cbv zeta in *.
  cbn [leb div mul sub add of_Z of_decimal Math_min Math_max float64] in *.
  set (maxRiskUsd := availableCapitalUsd * (maxRiskPerTradePercent / F64.of_Z 100))
    in *.
  set (kellyFraction := (_ - _) / expectedReturnBps) in *.
  set (quarter := F64.of_decimal 25 2) in *.
  set (fraction := F64.Math_max (F64.of_Z 0) (F64.Math_min kellyFraction quarter))
    in *.
  destruct (proj2 (float64_Math_min_spec _ _) Hn) as [Ha Hb].
  destruct (proj1 (float64_Math_min_spec _ _) Ha Hb) as (_ & L1 & L2).
  split; [exact L1 |].
  exists fraction. split; [| split; [| exact L2]].
  - pose proof (float64_mul_not_nan_r _ _ Hb) as Hf.
    destruct (proj2 (float64_Math_max_spec _ _) Hf) as [H0 Hm].
    exact (proj1 (proj2 (proj1 (float64_Math_max_spec _ _) H0 Hm))).
  - pose proof (float64_mul_not_nan_r _ _ Hb) as Hf.
    destruct (proj2 (float64_Math_max_spec _ _) Hf) as [H0 Hm].
    destruct (proj2 (float64_Math_min_spec _ _) Hm) as [Hk Hq].
    destruct (proj1 (float64_Math_min_spec _ _) Hk Hq) as (_ & _ & M2).
    destruct (proj1 (float64_Math_max_spec _ _) H0 Hm) as ([E | E] & _).
    + unfold fraction. rewrite E. reflexivity.
    + unfold fraction. rewrite E. exact M2.
Qed.

End ProfitFacts.

(** The theorem at a spread of 50 basis points, a gas cost of 1 USD, a
    ceiling of 100 USD and a target of 2 USD: the size that reaches
    the target, 600 USD, is cut to the ceiling. *)
Lemma calculateOptimalSize_capped_witness :
  leb (Profit.calculateOptimalSize (num := float)
         (of_Z 50) (of_Z 1) (of_Z 100) (of_Z 2))
      (of_Z 100) = true.
Proof.
  exact (proj1 (proj2 (calculateOptimalSize_capped
                         (of_Z 50) (of_Z 1) (of_Z 100) (of_Z 2)))
               eq_refl eq_refl).
Defined.

(** The theorem at a spread of 50 basis points, a gas cost of 1 USD, a
    slippage of 10 basis points and a ceiling of 1000 USD. *)
Lemma maxProfitableSize_capped_witness :
  leb (Profit.maxProfitableSize (num := float)
         (of_Z 50) (of_Z 1) (of_Z 10) (of_Z 1000))
      (of_Z 1000) = true.
Proof.
  exact (proj2 (maxProfitableSize_capped
                  (of_Z 50) (of_Z 1) (of_Z 10) (of_Z 1000))
               eq_refl eq_refl).
Defined.

(** The theorem at a capital of 10000 USD, a risk of 2 percent, an
    expected return of 50 basis points and a volatility of 100. *)
Lemma calculatePositionSize_capped_witness :
  leb (Profit.calculatePositionSize (num := float)
         (of_Z 10000) (of_Z 2) (of_Z 50) (of_Z 100))
      (mul (of_Z 10000) (div (of_Z 2) (of_Z 100))) = true.
Proof.
  exact (proj1 (calculatePositionSize_capped
                  (of_Z 10000) (of_Z 2) (of_Z 50) (of_Z 100) eq_refl)).
Defined.

(** ** The in-memory cache *)

Section MapFacts.
Context {T : Type}.
Implicit Types (m : list (string * T)) (key : string) (v : T).

Lemma Map_get_set_same key v m :
  Cache.Map_get key (Cache.Map_set key v m) = Some v.
Proof.
  induction m as [| [k x] m IH]; cbn.
  - now rewrite String.eqb_refl.
  - destruct (String.eqb k key) eqn:E; cbn; rewrite E; [reflexivity | exact IH].
Qed.

Lemma Map_get_set_other key key' v m :
  key' <> key ->
  Cache.Map_get key' (Cache.Map_set key v m) = Cache.Map_get key' m.
Proof.
  intros Hne. induction m as [| [k x] m IH]; cbn.
  - destruct (String.eqb_spec key key'); [congruence | reflexivity].
  - destruct (String.eqb_spec k key) as [-> | Hk]; cbn.
    + destruct (String.eqb_spec key key'); [congruence | reflexivity].
    + destruct (String.eqb k key'); [reflexivity | exact IH].
Qed.

Lemma Map_get_None key m :
  Cache.Map_get key m = None <-> ~ In key (map fst m).
Proof.
  induction m as [| [k x] m IH]; cbn.
  - tauto.
  - destruct (String.eqb_spec k key) as [-> | Hk].
    + split; [discriminate | tauto].
    + rewrite IH. tauto.
Qed.

Lemma Map_get_In key m e :
  Cache.Map_get key m = Some e -> In (key, e) m.
Proof.
  induction m as [| [k x] m IH]; cbn; [discriminate |].
  destruct (String.eqb_spec k key) as [-> | Hk].
  - intros [= ->]. now left.
  - intros H. right. now apply IH.
Qed.

Lemma Map_set_keys key v m :
  map fst (Cache.Map_set key v m)
  = match Cache.Map_get key m with
    | Some _ => map fst m
    | None => map fst m ++ [key]
    end.
Proof.
  induction m as [| [k x] m IH]; cbn.
  - reflexivity.
  - destruct (String.eqb_spec k key) as [-> | Hk]; cbn.
    + reflexivity.
    + rewrite IH. destruct (Cache.Map_get key m); reflexivity.
Qed.

Lemma Map_set_NoDup key v m :
  NoDup (map fst m) -> NoDup (map fst (Cache.Map_set key v m)).
Proof.
  intros H. rewrite Map_set_keys.
  destruct (Cache.Map_get key m) eqn:E; [exact H |].
  apply Map_get_None in E.
  apply NoDup_app; [exact H | constructor; [tauto | constructor] |].
  intros a Ha [<- | []]. contradiction.
Qed.

Lemma Map_delete_filter key m :
  NoDup (map fst m) ->
  Cache.Map_delete key m
  = filter (fun kv => negb (String.eqb (fst kv) key)) m.
Proof.
  induction m as [| [k x] m IH]; cbn; [reflexivity |].
  intros H. inversion H as [| ? ? Hin Hnd]; subst.
  destruct (String.eqb_spec k key) as [-> | Hk]; cbn.
  - symmetry. apply forallb_filter_id. apply forallb_forall.
    intros [k' x'] Hin'. cbn. apply negb_true_iff.
    destruct (String.eqb_spec k' key) as [-> |]; [| reflexivity].
    exfalso. apply Hin. apply (in_map fst) in Hin'. exact Hin'.
  - f_equal. now apply IH.
Qed.

Lemma filter_keys_NoDup (f : string * T -> bool) m :
  NoDup (map fst m) -> NoDup (map fst (filter f m)).
Proof.
  induction m as [| [k x] m IH]; cbn; [trivial |].
  intros H. inversion H as [| ? ? Hin Hnd]; subst.
  destruct (f (k, x)); cbn; [constructor |]; auto.
  intros Hin'. apply Hin. apply in_map_iff in Hin' as ([k' x'] & <- & Hf).
  apply filter_In in Hf as [Hf _]. apply (in_map fst) in Hf. exact Hf.
Qed.

Lemma Map_get_delete_same key m :
  NoDup (map fst m) -> Cache.Map_get key (Cache.Map_delete key m) = None.
Proof.
  intros H. rewrite Map_delete_filter by exact H.
  apply Map_get_None. intros Hin.
  apply in_map_iff in Hin as ([k x] & E & Hf). cbn in E. subst k.
  apply filter_In in Hf as [_ Hf]. cbn in Hf.
  now rewrite String.eqb_refl in Hf.
Qed.

Lemma Map_get_delete_other key key' m :
  key' <> key ->
  Cache.Map_get key' (Cache.Map_delete key m) = Cache.Map_get key' m.
Proof.
  intros Hne. induction m as [| [k x] m IH]; cbn; [reflexivity |].
  destruct (String.eqb_spec k key) as [-> | Hk]; cbn.
  - destruct (String.eqb_spec key key'); [congruence | reflexivity].
  - destruct (String.eqb k key'); [reflexivity | exact IH].
Qed.

Lemma Map_delete_length key m e :
  Cache.Map_get key m = Some e ->
  S (List.length (Cache.Map_delete key m)) = List.length m.
Proof.
  induction m as [| [k x] m IH]; cbn; [discriminate |].
  destruct (String.eqb k key); cbn; [reflexivity |].
  intros H. f_equal. now apply IH.
Qed.

End MapFacts.

Section CacheFacts.
Context {num : Type} {N : JsNumber num} {V : Type}.
Implicit Types (cache : Cache.MemoryCache num V) (key : string).

Lemma get_keeps_NoDup key (now : Z) cache :
  NoDup (map fst cache) -> NoDup (map fst (snd (Cache.get key now cache))).
Proof.
  intros H. unfold Cache.get.
  destruct (Cache.Map_get key cache) as [entry |]; [| exact H].
  destruct (Cache.expired now entry); [| exact H].
  cbn [snd]. rewrite Map_delete_filter by exact H.
  now apply filter_keys_NoDup.
Qed.

(** X27. The cache keeps its keys distinct; a value that was stored is read
    back, and the cache left as it is, as long as the time elapsed
    since it was stored is not above its time to live; once it is
    above, the read returns nothing, removes the entry, and no later
    read finds it; and storing under one key changes no read of another
    key. *)
Theorem cache_set_then_get
    cache key (value : V) (ttlMs : num) (now now' : Z) :
  NoDup (map fst cache) ->
  let stored := Cache.set key value ttlMs now cache in
  NoDup (map fst stored)
  /\ (gtb (of_Z (now' - now)) ttlMs = false ->
      Cache.get key now' stored = (Some value, stored))
  /\ (gtb (of_Z (now' - now)) ttlMs = true ->
      let left := snd (Cache.get key now' stored) in
      fst (Cache.get key now' stored) = None
      /\ NoDup (map fst left)
      /\ S (Cache.size left) = Cache.size stored
      /\ forall later, fst (Cache.get key later left) = None)
  /\ (forall key' t, key' <> key ->
      fst (Cache.get key' t stored) = fst (Cache.get key' t cache)).
Proof.
  intros Hnd stored. subst stored. unfold Cache.set.
  set (entry := {| Cache.data := value; Cache.timestamp := now;
                   Cache.ttl := ttlMs |}).
  pose proof (Map_set_NoDup key entry cache Hnd) as Hnd'.
  split; [exact Hnd' | split; [| split]].
  - intros Hfresh. unfold Cache.get. rewrite Map_get_set_same.
    unfold Cache.expired. cbn [Cache.timestamp Cache.ttl entry].
    now rewrite Hfresh.
  - intros Hexp. cbv zeta.
    assert (G : Cache.get key now' (Cache.Map_set key entry cache)
                = (None, Cache.Map_delete key (Cache.Map_set key entry cache))).
    { unfold Cache.get. rewrite Map_get_set_same.
      unfold Cache.expired. cbn [Cache.timestamp Cache.ttl entry].
      now rewrite Hexp. }
    rewrite G. cbn [fst snd].
    split; [reflexivity | split; [| split]].
    + rewrite Map_delete_filter by exact Hnd'. now apply filter_keys_NoDup.
    + unfold Cache.size. apply (Map_delete_length key _ entry).
      apply Map_get_set_same.
    + intros later. unfold Cache.get.
      now rewrite Map_get_delete_same by exact Hnd'.
  - intros key' t Hne. unfold Cache.get.
    rewrite Map_get_set_other by exact Hne.
    destruct (Cache.Map_get key' cache) as [e |]; [| reflexivity].
    destruct (Cache.expired t e); reflexivity.
Qed.

Lemma fold_delete_filter (keys : list string) cache :
  NoDup (map fst cache) ->
  fold_left (fun c key => Cache.Map_delete key c) keys cache
  = filter (fun kv => negb (existsb (String.eqb (fst kv)) keys)) cache.
Proof.
  revert cache. induction keys as [| k keys IH]; intros cache Hnd; cbn.
  - symmetry. apply forallb_filter_id. apply forallb_forall. reflexivity.
  - rewrite IH, Map_delete_filter by
      (try rewrite Map_delete_filter by exact Hnd;
       try apply filter_keys_NoDup; exact Hnd).
    clear. induction cache as [| [k' x] cache IHc]; cbn; [reflexivity |].
    destruct (String.eqb k' k); cbn; [exact IHc |].
    destruct (existsb _ keys); cbn; [exact IHc | now f_equal].
Qed.

(** X28. [cleanup] removes exactly the entries whose time to live has
    elapsed and keeps the others in their order; after it, a read at
    the same time returns what it would have returned before and
    removes nothing. *)
Theorem cache_cleanup_removes_the_expired cache (now : Z) :
  NoDup (map fst cache) ->
  let cleaned := Cache.cleanup now cache in
  cleaned = filter (fun kv => negb (Cache.expired now (snd kv))) cache
  /\ NoDup (map fst cleaned)
  /\ (forall key,
        fst (Cache.get key now cleaned) = fst (Cache.get key now cache)
        /\ snd (Cache.get key now cleaned) = cleaned).
Proof.
  intros Hnd cleaned.
  assert (E : cleaned
              = filter (fun kv => negb (Cache.expired now (snd kv))) cache).
  { subst cleaned. unfold Cache.cleanup. rewrite fold_delete_filter by exact Hnd.
    apply filter_ext_in. intros [k e] Hin. cbn [fst snd]. f_equal.
    destruct (Cache.expired now e) eqn:Ex.
    - apply existsb_exists. exists k. split; [| apply String.eqb_refl].
      apply in_map_iff. exists (k, e). split; [reflexivity |].
      apply filter_In. split; [exact Hin | exact Ex].
    - destruct (existsb _ _) eqn:Eb; [| reflexivity].
      apply existsb_exists in Eb as (k' & Hk' & Heq).
      apply String.eqb_eq in Heq. subst k'.
      apply in_map_iff in Hk' as ([k' e'] & Ek & Hf). cbn in Ek. subst k'.
      apply filter_In in Hf as [Hin' Ex']. cbn in Ex'.
      assert (e' = e); [| congruence].
      clear - Hnd Hin Hin'.
      induction cache as [| [k0 e0] cache IH]; [contradiction |].
      cbn in Hnd. inversion Hnd as [| ? ? Hn Hnd']; subst.
      destruct Hin as [[= -> ->] | Hin], Hin' as [[= ->] | Hin'].
      + reflexivity.
      + exfalso. apply Hn. apply (in_map fst) in Hin'. exact Hin'.
      + exfalso. subst. apply Hn. apply (in_map fst) in Hin. exact Hin.
      + now apply IH. }
  split; [exact E | split].
  - rewrite E. now apply filter_keys_NoDup.
  - intros key. rewrite E. clear E cleaned. unfold Cache.get.
    assert (G : Cache.Map_get key
                  (filter (fun kv => negb (Cache.expired now (snd kv))) cache)
                = match Cache.Map_get key cache with
                  | Some e => if Cache.expired now e then None else Some e
                  | None => None
                  end).
    { induction cache as [| [k e] cache IH]; cbn; [reflexivity |].
      cbn in Hnd. inversion Hnd as [| ? ? Hn Hnd']; subst.
      destruct (Cache.expired now e) eqn:Ex; cbn.
      - destruct (String.eqb_spec k key) as [-> | Hk].
        + rewrite Ex. rewrite IH by exact Hnd'.
          destruct (Cache.Map_get key cache) eqn:Eg; [| reflexivity].
          exfalso. apply Hn. apply Map_get_In in Eg.
          apply (in_map fst) in Eg. exact Eg.
        + now apply IH.
      - destruct (String.eqb_spec k key) as [-> | Hk].
        + now rewrite Ex.
        + now apply IH. }
    rewrite G.
    destruct (Cache.Map_get key cache) as [e |]; [| split; reflexivity].
    destruct (Cache.expired now e) eqn:Ex; cbn [fst snd];
      [split; reflexivity |].
    rewrite Ex. split; reflexivity.
Qed.

End CacheFacts.

(** The theorem for a gas price stored in an empty cache with the
    default time to live and read one second later. *)
Lemma cache_set_then_get_witness :
  let stored :=
    Cache.set (num := float) "gasPrice" "30000000000"%string
      Cache.default_ttlMs 1700000000000 [] in
  Cache.get "gasPrice" 1700000001000 stored
  = (Some "30000000000"%string, stored).
Proof.
  destruct (cache_set_then_get (num := float) []
              "gasPrice" "30000000000"%string Cache.default_ttlMs
              1700000000000 1700000001000 (NoDup_nil _)) as (_ & H & _).
  exact (H eq_refl).
Defined.

(** The theorem for a cache of two entries, of which the first has
    outlived its ten milliseconds. *)
Lemma cache_cleanup_removes_the_expired_witness :
  Cache.cleanup (num := float) 100
    [ ("a"%string, {| Cache.data := 1%Z; Cache.timestamp := 0;
                      Cache.ttl := of_Z 10 |});
      ("b"%string, {| Cache.data := 2%Z; Cache.timestamp := 0;
                      Cache.ttl := of_Z 1000 |}) ]
  = [ ("b"%string, {| Cache.data := 2%Z; Cache.timestamp := 0;
                      Cache.ttl := of_Z 1000 |}) ].
Proof.
  refine (proj1 (cache_cleanup_removes_the_expired (num := float)
                   [ ("a"%string, {| Cache.data := 1%Z; Cache.timestamp := 0;
                                     Cache.ttl := of_Z 10 |});
                     ("b"%string, {| Cache.data := 2%Z; Cache.timestamp := 0;
                                     Cache.ttl := of_Z 1000 |}) ]
                   100 _)).
  repeat constructor; simpl; intuition discriminate.
Defined.

Section SnapshotFacts.
Context {num : Type} {N : JsNumber num}.

(** X29. After [addSnapshot], and as long as the five minutes of the entry
    have not elapsed, the history of the snapshot's pair ends with the
    snapshot: it is the history that was read, with the snapshot added
    and the oldest entry dropped when that makes more than 100.  A
    history of at most 100 stays at most 100; and a history that was
    not there, or whose five minutes had elapsed when the snapshot
    came, restarts as the snapshot alone. *)
Theorem addSnapshot_bounds_the_history
    (snapshot : Cache.Snapshot) (now now' later : Z)
    (cache : Cache.MemoryCache num (list Cache.Snapshot)) :
  gtb (of_Z (later - now')) (of_Z 300000) = false ->
  let pair := Cache.pairAddress snapshot in
  let dex := Cache.dex snapshot in
  let before := fst (Cache.getSnapshotHistory pair dex now cache) in
  let after :=
    fst (Cache.getSnapshotHistory pair dex later
           (Cache.addSnapshot snapshot now now' cache)) in
  after = (if (100 <? List.length (before ++ [snapshot]))%nat
           then tl (before ++ [snapshot]) else before ++ [snapshot])
  /\ (exists older, after = older ++ [snapshot])
  /\ (List.length before <= 100 -> List.length after <= 100)%nat
  /\ (fst (Cache.get (Cache.snapshotKey pair dex) now cache) = None ->
      after = [snapshot]).
Proof.
  intros Hfresh pair dex before after.
  assert (E : after
              = (if (100 <? List.length (before ++ [snapshot]))%nat
                 then tl (before ++ [snapshot]) else before ++ [snapshot])).
  { subst after before pair dex.
    unfold Cache.getSnapshotHistory, Cache.addSnapshot.
    destruct (Cache.get (Cache.snapshotKey _ _) now cache) as [found c1].
    cbn [fst]. unfold Cache.set, Cache.get at 1.
    rewrite Map_get_set_same. unfold Cache.expired.
    cbn [Cache.timestamp Cache.ttl Cache.data]. rewrite Hfresh.
    reflexivity. }
  split; [exact E | split; [| split]].
  - rewrite E. destruct (100 <? _)%nat eqn:L.
    + destruct before as [| b rest]; [discriminate L |].
      exists rest. reflexivity.
    + now exists before.
  - intros Hlen. rewrite E.
    destruct (Nat.ltb_spec 100 (List.length (before ++ [snapshot]))) as [L | L].
    + destruct before as [| b rest]; cbn in *; [lia |].
      rewrite length_app in *. cbn in *. lia.
    + exact L.
  - intros Hnone. rewrite E.
    assert (B : before = []).
    { subst before pair dex. unfold Cache.getSnapshotHistory.
      destruct (Cache.get _ now cache) as [found c1]. cbn in *. now subst. }
    rewrite B. reflexivity.
Qed.

End SnapshotFacts.

(** The theorem for a first snapshot added to an empty cache and read
    one second later. *)
Lemma addSnapshot_bounds_the_history_witness :
  let snapshot :=
    {| Cache.snapshot_timestamp := 1700000000000;
       Cache.pairAddress := "0xpair"; Cache.snapshot_reserve0 := "1000";
       Cache.snapshot_reserve1 := "2000"; Cache.token0 := "USDC";
       Cache.token1 := "WETH"; Cache.dex := "quickswap" |} in
  fst (Cache.getSnapshotHistory (num := float) "0xpair" "quickswap"
         1700000001000
         (Cache.addSnapshot snapshot 1700000000000 1700000000000 []))
  = [snapshot].
Proof.
  intros snapshot.
  destruct (@addSnapshot_bounds_the_history float float64 snapshot
              1700000000000 1700000000000 1700000001000 [] eq_refl)
    as (_ & _ & _ & H).
  exact (H eq_refl).
Defined.
